(** * Transfer-Learning-Library: MixStyle ResNet factory and CORAL training script

    A shallow embedding of
    - [dglib/generalization/mixstyle/models/resnet.py]  (module [MixStyleResNet])
    - [examples/domain_generalization/classification/coral.py] (module [Coral])

    Python code that raises is embedded in a state-and-exception monad; the
    calls into torch (modules, optimizer, data loaders) are the fields of an
    interface class, so every statement below holds for any implementation
    of those calls. *)

From Stdlib Require Import ZArith QArith.
From stdpp Require Import base numbers list strings gmap.

(** ** Python runtime: exceptions and the state/exception monad *)

Module Py.

Inductive exn : Type :=
| AssertionError
| IndexError
| KeyError
| ZeroDivisionError
| AttributeError
| FileNotFoundError
| OSError
| RuntimeError (msg : string).

Inductive outcome (A : Type) : Type :=
| Ok (a : A)
| Raise (e : exn).
Arguments Ok {A} a.
Arguments Raise {A} e.

(** A computation over a store [S]: it returns a value or raises, and in
    both cases leaves a store behind. *)
Definition M (S A : Type) : Type := S -> outcome A * S.

Definition ret {S A} (a : A) : M S A := fun s => (Ok a, s).

Definition bind {S A B} (c : M S A) (k : A -> M S B) : M S B :=
  fun s => match c s with
           | (Ok a, s') => k a s'
           | (Raise e, s') => (Raise e, s')
           end.

Definition raise {S A} (e : exn) : M S A := fun s => (Raise e, s).

Definition get {S} : M S S := fun s => (Ok s, s).

Definition modify {S} (f : S -> S) : M S unit := fun s => (Ok tt, f s).

(** [assert b] *)
Definition assert {S} (b : bool) : M S unit :=
  if b then ret tt else raise AssertionError.

(** [for x in l: acc = body acc x] *)
Fixpoint foldM {S A B} (body : B -> A -> M S B) (l : list A) (acc : B) : M S B :=
  match l with
  | [] => ret acc
  | x :: l' => bind (body acc x) (fun acc' => foldM body l' acc')
  end.

(** [for x in l: body x] *)
Definition for_ {S A} (l : list A) (body : A -> M S unit) : M S unit :=
  foldM (fun _ x => body x) l tt.

(** [range(lo, hi)] *)
Definition range (lo hi : nat) : list nat := seq lo (hi - lo).

(** [t[i]] on a tuple or list. *)
Definition index {S A} (t : list A) (i : nat) : M S A :=
  match t !! i with
  | Some a => ret a
  | None => raise IndexError
  end.

End Py.

Import Py.

Declare Scope py_scope.
Delimit Scope py_scope with py.
Notation "'let*' x := c 'in' k" := (bind c (fun x => k))
  (at level 10, x pattern, c at level 100, k at level 200) : py_scope.
Notation "c ;; k" := (bind c (fun _ => k))
  (at level 100, k at level 200, right associativity) : py_scope.

(** ** resnet.py: ResNet with MixStyle modules *)

Module MixStyleResNet.

(** The class object passed as [resnet_class].  [OtherClass] stands for any
    class object other than the two imported ones. *)
Inductive resnet_class : Type :=
| ResNet
| ReidResNet
| OtherClass (name : string).

#[export] Instance resnet_class_eq_dec : EqDecision resnet_class.
Proof. solve_decision. Defined.

(** The submodules [forward] calls, by attribute name. *)
Inductive module : Type :=
| conv1 | bn1 | relu | maxpool
| layer1 | layer2 | layer3 | layer4
| mixStyleModule.

#[export] Instance module_eq_dec : EqDecision module.
Proof. solve_decision. Defined.

(** Tensors as far as [load_state_dict] looks at them. *)
Class TensorLib : Type := {
  Tensor : Type;
  shape : Tensor -> list nat;
  (** [t[0]] of a tensor with one dimension and at least one element *)
  first_element : Tensor -> Tensor;
}.

Section Model.
Context `{TensorLib}.

(** An instance of [ResNetWithMixStyleModule]: the class it was derived
    from (the closure variable [resnet_class]), its attributes, and its
    parameters and buffers by name. *)
Record model : Type := {
  base_class : resnet_class;
  mix_p : Q;
  mix_alpha : Q;
  apply_layers : list string;
  state_dict : gmap string Tensor;
}.

End Model.

(** What the file imports: the base constructors, the weight registry and
    the modules' own [forward]. *)
Class Backbone `{TensorLib} : Type := {
  World : Type;
  Feat : Type;
  Block : Type;
  Kwargs : Type;
  (** [resnet_class.__init__(block, layers, **kwargs)] followed by
      [MixStyle(p, alpha)]: the freshly initialised parameters *)
  super_init : resnet_class -> Block -> list nat -> Kwargs -> World ->
               gmap string Tensor * World;
  model_urls : gmap string string;
  (** [load_state_dict_from_url(url, progress)]: the downloaded weights,
      or nothing when the download or the deserialization fails *)
  load_state_dict_from_url : string -> bool -> World ->
                             option (gmap string Tensor) * World;
  (** [self.<module>(x)] *)
  call : model -> module -> Feat -> World -> Feat * World;
}.

Section Factory.
Context `{Backbone}.

Definition available_resnet_class : list resnet_class := [ResNet; ReidResNet].

Definition valid_choices : list string := ["layer1"; "layer2"; "layer3"]%string.

(** [ResNetWithMixStyleModule.__init__] *)
Definition init (resnet_class : resnet_class) (mix_layers : list string)
    (mix_p mix_alpha : Q) (block : Block) (layers : list nat) (kwargs : Kwargs)
  : M World model :=
  (let* params := (fun w => let '(p, w') := super_init resnet_class block layers kwargs w
                            in (Ok p, w')) in
   for_ mix_layers (fun layer => assert (bool_decide (layer ∈ valid_choices))) ;;
   ret {| base_class := resnet_class; mix_p := mix_p; mix_alpha := mix_alpha;
          apply_layers := mix_layers; state_dict := params |})%py.

(** One key of the module that is also a key of [sd], as
    [torch.nn.Module._load_from_state_dict] treats it: a 1-dim value for a
    0-dim parameter is replaced by its first element ([input_param[0]],
    IndexError when it has no element); after that the shapes must be
    equal, or the key is reported as a size mismatch. *)
Inductive entry : Type :=
| Copied (t : Tensor)
| SizeMismatch
| IndexOutOfBounds.

Definition load_entry (param input_param : Tensor) : entry :=
  match shape param, shape input_param with
  | [], [n] => if (n =? 0)%nat then IndexOutOfBounds
               else Copied (first_element input_param)
  | _, _ => if bool_decide (shape input_param = shape param)
            then Copied input_param else SizeMismatch
  end.

Definition is_index_error (own : gmap string Tensor) (k : string) (w : Tensor) : bool :=
  match own !! k with
  | Some v => match load_entry v w with IndexOutOfBounds => true | _ => false end
  | None => false
  end.

Definition is_size_mismatch (own : gmap string Tensor) (k : string) (w : Tensor) : bool :=
  match own !! k with
  | Some v => match load_entry v w with SizeMismatch => true | _ => false end
  | None => false
  end.

Definition index_errors (own sd : gmap string Tensor) : gmap string Tensor :=
  filter (fun kv => is_index_error own kv.1 kv.2 = true) sd.

Definition size_mismatch (own sd : gmap string Tensor) : gmap string Tensor :=
  filter (fun kv => is_size_mismatch own kv.1 kv.2 = true) sd.

Definition missing_keys (own sd : gmap string Tensor) : gmap string Tensor :=
  filter (fun kv => sd !! kv.1 = None) own.

Definition unexpected_keys (own sd : gmap string Tensor) : gmap string Tensor :=
  filter (fun kv => own !! kv.1 = None) sd.

Definition copy_params (own sd : gmap string Tensor) : gmap string Tensor :=
  merge (fun o n => match o, n with
                    | Some v, Some w => match load_entry v w with
                                        | Copied t => Some t
                                        | _ => Some v
                                        end
                    | Some v, None => Some v
                    | None, _ => None
                    end) own sd.

(** [torch.nn.Module.load_state_dict]: the IndexError of [input_param[0]]
    leaves the call at once; a key of the module missing from [sd] and a
    key of [sd] unknown to the module are errors only when [strict]; a size
    mismatch is an error always.  Without an error every shared key takes
    the value [load_entry] accepted. *)
Definition load_state_dict (self : model) (sd : gmap string Tensor) (strict : bool)
  : M World model :=
  let own := state_dict self in
  if bool_decide (index_errors own sd = ∅) then
    if bool_decide (size_mismatch own sd = ∅) then
      if strict && negb (bool_decide (missing_keys own sd = ∅ /\ unexpected_keys own sd = ∅))
      then raise (RuntimeError "Missing or unexpected key(s) in state_dict")
      else ret {| base_class := base_class self; mix_p := mix_p self;
                  mix_alpha := mix_alpha self; apply_layers := apply_layers self;
                  state_dict := copy_params own sd |}
    else raise (RuntimeError "size mismatch")
  else raise IndexError.

(** [{k: v for k, v in pretrained_dict.items() if k in model_dict}] *)
Definition restrict_to (model_dict pretrained_dict : gmap string Tensor)
  : gmap string Tensor :=
  filter (fun kv => is_Some (model_dict !! kv.1)) pretrained_dict.

(** [_resnet_with_mix_style] *)
Definition _resnet_with_mix_style (arch : string) (block : Block) (layers : list nat)
    (pretrained progress : bool) (mix_layers : option (list string))
    (mix_p mix_alpha : Q) (resnet_class : resnet_class) (kwargs : Kwargs)
  : M World model :=
  (let mix_layers := match mix_layers with None => [] | Some l => l end in
   assert (bool_decide (resnet_class ∈ available_resnet_class)) ;;
   let* model := init resnet_class mix_layers mix_p mix_alpha block layers kwargs in
   if pretrained then
     let model_dict := state_dict model in
     let* url := match model_urls !! arch with
                 | Some u => ret u
                 | None => raise KeyError
                 end in
     let* pretrained_dict :=
       (fun w => match load_state_dict_from_url url progress w with
                 | (Some d, w') => (Ok d, w')
                 | (None, w') => (Raise OSError, w')
                 end) in
     let pretrained_dict := restrict_to model_dict pretrained_dict in
     load_state_dict model pretrained_dict false
   else ret model)%py.

(** [ResNetWithMixStyleModule.forward].  The store carries the list of
    submodule calls made so far, oldest first. *)
Definition invoke (self : model) (m : module) (x : Feat)
  : M (World * list module) Feat :=
  fun '(w, log) => let '(y, w') := call self m x w in (Ok y, (w', log ++ [m])).

Definition forward (self : model) (x : Feat) : M (World * list module) Feat :=
  (let* x := invoke self conv1 x in
   let* x := invoke self bn1 x in
   let* x := (if bool_decide (base_class self <> ReidResNet)
              then invoke self relu x else ret x) in
   let* x := invoke self maxpool x in
   let* x := invoke self layer1 x in
   let* x := (if bool_decide ("layer1"%string ∈ apply_layers self)
              then invoke self mixStyleModule x else ret x) in
   let* x := invoke self layer2 x in
   let* x := (if bool_decide ("layer2"%string ∈ apply_layers self)
              then invoke self mixStyleModule x else ret x) in
   let* x := invoke self layer3 x in
   let* x := (if bool_decide ("layer3"%string ∈ apply_layers self)
              then invoke self mixStyleModule x else ret x) in
   let* x := invoke self layer4 x in
   ret x)%py.

(** The calls [forward] makes, in order, read off its text. *)
Definition mix_after (name : string) (apply_layers : list string) : list module :=
  if bool_decide (name ∈ apply_layers) then [mixStyleModule] else [].

Definition forward_calls (rc : resnet_class) (apply_layers : list string) : list module :=
  [conv1; bn1] ++ (if bool_decide (rc <> ReidResNet) then [relu] else [])
    ++ [maxpool; layer1] ++ mix_after "layer1" apply_layers
    ++ [layer2] ++ mix_after "layer2" apply_layers
    ++ [layer3] ++ mix_after "layer3" apply_layers
    ++ [layer4].

(** Running a list of submodules one after the other. *)
Fixpoint run_calls (self : model) (ms : list module) (x : Feat) (w : World)
  : Feat * World :=
  match ms with
  | [] => (x, w)
  | m :: ms' => let '(y, w') := call self m x w in run_calls self ms' y w'
  end.

(** The forward pass as the specification words it: the stages of the
    backbone in order, and the mixing transform after every stage named in
    the insertion set. *)
Definition stage_name (m : module) : string :=
  match m with
  | conv1 => "conv1" | bn1 => "bn1" | relu => "relu" | maxpool => "maxpool"
  | layer1 => "layer1" | layer2 => "layer2" | layer3 => "layer3"
  | layer4 => "layer4" | mixStyleModule => "mixStyleModule"
  end.

Definition backbone_stages (rc : resnet_class) : list module :=
  match rc with
  | ReidResNet => [conv1; bn1; maxpool; layer1; layer2; layer3; layer4]
  | _ => [conv1; bn1; relu; maxpool; layer1; layer2; layer3; layer4]
  end.

Definition stages_with_mixing (insertion : list string) (stages : list module)
  : list module :=
  flat_map (fun m => if bool_decide (stage_name m ∈ insertion)
                     then [m; mixStyleModule] else [m]) stages.

End Factory.

(** The two block classes the constructors pass on. *)
Class Blocks `{Backbone} : Type := {
  BasicBlock : Block;
  Bottleneck : Block;
}.

Section Constructors.
Context `{Blocks}.

(** The keyword arguments of the four constructors: the ones
    [_resnet_with_mix_style] names, and the rest for the base class. *)
Record factory_kwargs : Type := {
  kw_mix_layers : option (list string);
  kw_mix_p : Q;
  kw_mix_alpha : Q;
  kw_resnet_class : resnet_class;
  kw_rest : Kwargs;
}.

(** No keyword given: the defaults of [_resnet_with_mix_style]. *)
Definition default_kwargs (rest : Kwargs) : factory_kwargs :=
  {| kw_mix_layers := None; kw_mix_p := 1 # 2; kw_mix_alpha := 1 # 10;
     kw_resnet_class := ResNet; kw_rest := rest |}.

Definition with_kwargs (arch : string) (block : Block) (layers : list nat)
    (pretrained progress : bool) (kwargs : factory_kwargs) : M World model :=
  _resnet_with_mix_style arch block layers pretrained progress
    (kw_mix_layers kwargs) (kw_mix_p kwargs) (kw_mix_alpha kwargs)
    (kw_resnet_class kwargs) (kw_rest kwargs).

Definition resnet18 (pretrained progress : bool) (kwargs : factory_kwargs)
  : M World model :=
  with_kwargs "resnet18" BasicBlock [2; 2; 2; 2] pretrained progress kwargs.

Definition resnet34 (pretrained progress : bool) (kwargs : factory_kwargs)
  : M World model :=
  with_kwargs "resnet34" BasicBlock [3; 4; 6; 3] pretrained progress kwargs.

Definition resnet50 (pretrained progress : bool) (kwargs : factory_kwargs)
  : M World model :=
  with_kwargs "resnet50" Bottleneck [3; 4; 6; 3] pretrained progress kwargs.

Definition resnet101 (pretrained progress : bool) (kwargs : factory_kwargs)
  : M World model :=
  with_kwargs "resnet101" Bottleneck [3; 4; 23; 3] pretrained progress kwargs.

(** The exported constructors, with the architecture each one names. *)
Definition constructors
  : list (string * (bool -> bool -> factory_kwargs -> M World model)) :=
  [("resnet18"%string, resnet18); ("resnet34"%string, resnet34);
   ("resnet50"%string, resnet50); ("resnet101"%string, resnet101)].

End Constructors.

(** A small implementation of the interfaces, to run the definitions on. *)
Module Toy.

#[export] Instance toy_tensors : TensorLib :=
  {| Tensor := list nat * Z; shape := fst; first_element := fun t => ([], t.2) |}.

Definition module_code (m : module) : nat :=
  match m with
  | conv1 => 1 | bn1 => 2 | relu => 3 | maxpool => 4
  | layer1 => 5 | layer2 => 6 | layer3 => 7 | layer4 => 8
  | mixStyleModule => 9
  end.

Definition toy_params : gmap string (list nat * Z) :=
  {[ "conv1.weight"%string := ([64; 3; 7; 7], 1%Z);
     "fc.weight"%string := ([1000; 512], 2%Z) ]}.

Definition toy_pretrained : gmap string (list nat * Z) :=
  {[ "conv1.weight"%string := ([64; 3; 7; 7], 10%Z);
     "fc.bias"%string := ([1000], 30%Z) ]}.

Definition toy_mismatched : gmap string (list nat * Z) :=
  {[ "fc.weight"%string := ([10; 512], 20%Z) ]}.

#[export] Instance toy_backbone : Backbone :=
  {| World := nat;
     Feat := list nat;
     Block := unit;
     Kwargs := unit;
     super_init := fun _ _ _ _ w => (toy_params, S w);
     model_urls := {[ "resnet18"%string := "https://download/resnet18.pth"%string;
                      "resnet34"%string := "https://download/resnet34.pth"%string ]};
     load_state_dict_from_url := fun url _ w =>
       (if bool_decide (url = "https://download/resnet18.pth"%string)
        then Some toy_pretrained else Some toy_mismatched, w);
     call := fun _ m x w => (x ++ [module_code m], S w) |}.

#[export] Instance toy_blocks : Blocks :=
  {| BasicBlock := tt; Bottleneck := tt |}.

Definition layer2_model : model :=
  {| base_class := ResNet; mix_p := 1 # 2; mix_alpha := 1 # 10;
     apply_layers := ["layer2"%string]; state_dict := toy_params |}.

Definition repeated_names_model : model :=
  {| base_class := ResNet; mix_p := 1 # 2; mix_alpha := 1 # 10;
     apply_layers := ["layer2"; "layer2"; "layer2"]%string; state_dict := toy_params |}.

(** A module with a 0-dim buffer, as the batch counters of the
    normalization layers are. *)
Definition counter_model : model :=
  {| base_class := ResNet; mix_p := 1 # 2; mix_alpha := 1 # 10;
     apply_layers := [];
     state_dict := {[ "bn1.num_batches_tracked"%string := ([], 0%Z) ]} |}.

End Toy.

End MixStyleResNet.

(** ** coral.py: training with the correlation alignment loss *)

Module Coral.

(** What the script imports from torch and from the library: the
    classifier with its optimizer, scheduler and data iterator (all inside
    [TState]), the loss functions, arithmetic on 0-dim tensors, checkpoints
    and [AverageMeter].  A batch tensor is the list of its rows along
    dimension 0. *)
Class Torch : Type := {
  TState : Type;
  Image : Type;
  Label : Type;
  Logit : Type;
  Feature : Type;
  Scalar : Type;
  Checkpoint : Type;
  Meter : Type;
  (** [next(train_iter)] *)
  next_batch : TState -> (list Image * list Label) * TState;
  (** [model.train()], [model.eval()] *)
  model_train : TState -> TState;
  model_eval : TState -> TState;
  (** [model(x)] while training: outputs, and buffers updated *)
  model_call : list Image -> TState -> (list Logit * list Feature) * TState;
  (** [model(x)] after [model.eval()] under [torch.no_grad()]: outputs only *)
  model_infer : TState -> list Image -> list Logit * list Feature;
  cross_entropy : list Logit -> list Label -> Scalar;
  (** [accuracy(output, target)[0]], the top-1 accuracy *)
  accuracy : list Logit -> list Label -> Scalar;
  correlation_alignment_loss : list Feature -> list Feature -> Scalar;
  tensor_add : Scalar -> Scalar -> Scalar;
  tensor_mul : Scalar -> Scalar -> Scalar;
  tensor_div : Scalar -> Scalar -> Scalar;
  tensor_add_number : Scalar -> Q -> Scalar;
  tensor_mul_number : Scalar -> Q -> Scalar;
  tensor_div_number : Scalar -> Q -> Scalar;
  number_div_tensor : Q -> Scalar -> Scalar;
  item : Scalar -> Q;
  (** [optimizer.zero_grad()], [loss.backward()], [optimizer.step()],
      [lr_scheduler.step()] *)
  zero_grad : TState -> TState;
  backward : Scalar -> TState -> TState;
  optimizer_step : TState -> TState;
  scheduler_step : TState -> TState;
  (** [classifier.state_dict()], [classifier.load_state_dict(checkpoint)] *)
  state_dict : TState -> Checkpoint;
  load_state_dict : Checkpoint -> TState -> TState;
  (** whether [classifier.load_state_dict(checkpoint)], which matches
      strictly, accepts the checkpoint *)
  checkpoint_fits : Checkpoint -> TState -> bool;
  (** [AverageMeter(..)], [.update(val, n)], [.avg] *)
  meter_new : Meter;
  meter_update : Meter -> Q -> nat -> Meter;
  meter_avg : Meter -> Q;
}.

(** *** torch.chunk *)

(** [t.narrow(0, start, length)] *)
Definition narrow {A} (t : list A) (start len : nat) : list A :=
  take len (drop start t).

(** [t.split_with_sizes(sizes)] *)
Fixpoint split_with_sizes {A} (t : list A) (start : nat) (sizes : list nat)
  : list (list A) :=
  match sizes with
  | [] => []
  | n :: sizes' => narrow t start n :: split_with_sizes t (start + n) sizes'
  end.

(** [t.split(split_size)]: pieces of [split_size] rows, the last one with
    what is left. *)
Definition tensor_split {A} (t : list A) (split_size : nat) : list (list A) :=
  let dim_size := length t in
  let num_splits := Nat.max ((dim_size + split_size - 1) / split_size) 1 in
  let last_split_size := split_size - (split_size * num_splits - dim_size) in
  map (fun i => narrow t (i * split_size)
                  (if i <? num_splits - 1 then split_size else last_split_size))
      (seq 0 num_splits).

(** [t.chunk(chunks, dim=0)]: the piece size is the batch size divided by
    [chunks], rounded up; an empty tensor still gives [chunks] pieces. *)
Definition tensor_chunk {S A} (t : list A) (chunks : nat) : M S (list (list A)) :=
  if chunks =? 0 then raise (RuntimeError "chunk expects `chunks` to be greater than 0")
  else
    let dim_size := length t in
    let split_size := (dim_size + chunks - 1) / chunks in
    if (split_size =? 0) && (dim_size =? 0)
    then ret (split_with_sizes t 0
                (replicate (chunks - 1) split_size
                   ++ [split_size - (split_size * chunks - dim_size)]))
    else ret (tensor_split t split_size).

(** How many pieces [chunk] returns for [n] rows. *)
Definition chunk_count (n chunks : nat) : nat :=
  let split_size := (n + chunks - 1) / chunks in
  if (split_size =? 0) && (n =? 0) then chunks
  else Nat.max ((n + split_size - 1) / split_size) 1.

Section Script.
Context `{Torch}.

(** *** Python values of the loop variables *)

(** [loss_ce], [loss_penalty] and [cls_acc] start as the int [0] and become
    tensors with the first term added.  A Python float is read as the
    rational it denotes. *)
Inductive pyval : Type :=
| PyInt (n : Z)
| PyFloat (x : Q)
| PyTensor (t : Scalar).

Definition py_add (a b : pyval) : pyval :=
  match a, b with
  | PyInt m, PyInt n => PyInt (m + n)
  | PyInt m, PyFloat y => PyFloat (inject_Z m + y)
  | PyFloat x, PyInt n => PyFloat (x + inject_Z n)
  | PyFloat x, PyFloat y => PyFloat (x + y)
  | PyTensor t, PyTensor u => PyTensor (tensor_add t u)
  | PyTensor t, PyInt n | PyInt n, PyTensor t => PyTensor (tensor_add_number t (inject_Z n))
  | PyTensor t, PyFloat y | PyFloat y, PyTensor t => PyTensor (tensor_add_number t y)
  end.

Definition py_mul (a b : pyval) : pyval :=
  match a, b with
  | PyInt m, PyInt n => PyInt (m * n)
  | PyInt m, PyFloat y => PyFloat (inject_Z m * y)
  | PyFloat x, PyInt n => PyFloat (x * inject_Z n)
  | PyFloat x, PyFloat y => PyFloat (x * y)
  | PyTensor t, PyTensor u => PyTensor (tensor_mul t u)
  | PyTensor t, PyInt n | PyInt n, PyTensor t => PyTensor (tensor_mul_number t (inject_Z n))
  | PyTensor t, PyFloat y | PyFloat y, PyTensor t => PyTensor (tensor_mul_number t y)
  end.

(** [a / b]: between Python numbers a zero divisor raises; a division
    with a tensor operand never raises. *)
Definition number_div {S} (x y : Q) : M S pyval :=
  if Qeq_bool y 0 then raise ZeroDivisionError else ret (PyFloat (x / y)).

Definition py_truediv {S} (a b : pyval) : M S pyval :=
  match a, b with
  | PyInt m, PyInt n => number_div (inject_Z m) (inject_Z n)
  | PyInt m, PyFloat y => number_div (inject_Z m) y
  | PyFloat x, PyInt n => number_div x (inject_Z n)
  | PyFloat x, PyFloat y => number_div x y
  | PyTensor t, PyTensor u => ret (PyTensor (tensor_div t u))
  | PyTensor t, PyInt n => ret (PyTensor (tensor_div_number t (inject_Z n)))
  | PyTensor t, PyFloat y => ret (PyTensor (tensor_div_number t y))
  | PyInt m, PyTensor u => ret (PyTensor (number_div_tensor (inject_Z m) u))
  | PyFloat x, PyTensor u => ret (PyTensor (number_div_tensor x u))
  end.

(** [v.item()], [v.backward()]: methods of tensors only. *)
Definition as_tensor {S} (v : pyval) : M S Scalar :=
  match v with
  | PyTensor t => ret t
  | _ => raise AttributeError
  end.

(** [a > b] and [max(a, b)] on floats. *)
Definition py_gt (a b : Q) : bool := negb (Qle_bool a b).

Definition py_max (a b : Q) : Q := if py_gt b a then b else a.

(** *** Store and trace *)

Inductive event : Type :=
| NextBatch
| Forward
| CrossEntropy (domain_i : nat)
| Alignment (domain_i domain_j : nat)
| ZeroGrad
| Backward
| OptimizerStep
| SchedulerStep
| SourceValidated (acc1 : Q)
| SavedLatest (checkpoint : Checkpoint)
| CopiedToBest
| TargetValidated (acc1 : Q).

(** The classifier with optimizer, scheduler and iterator; the checkpoint
    files by name; the calls made so far, oldest first. *)
Record store : Type := {
  ts : TState;
  files : gmap string Checkpoint;
  trace : list event;
}.

Definition add_events (s : store) (evs : list event) : store :=
  {| ts := ts s; files := files s; trace := trace s ++ evs |}.

Definition set_ts (s : store) (t : TState) : store :=
  {| ts := t; files := files s; trace := trace s |}.

Definition emit (e : event) : M store unit :=
  modify (fun s => {| ts := ts s; files := files s; trace := trace s ++ [e] |}).

Definition on_ts (f : TState -> TState) : M store unit :=
  modify (fun s => {| ts := f (ts s); files := files s; trace := trace s |}).

Definition on_ts_get {A} (f : TState -> A * TState) : M store A :=
  fun s => let '(a, t') := f (ts s) in
           (Ok a, {| ts := t'; files := files s; trace := trace s |}).

Definition read_ts {A} (f : TState -> A) : M store A :=
  fun s => (Ok (f (ts s)), s).

Definition read_files {A} (f : gmap string Checkpoint -> A) : M store A :=
  fun s => (Ok (f (files s)), s).

Definition on_files (f : gmap string Checkpoint -> gmap string Checkpoint)
  : M store unit :=
  modify (fun s => {| ts := ts s; files := f (files s); trace := trace s |}).

Record Args : Type := {
  sources : list string;
  phase : string;
  epochs : nat;
  iters_per_epoch : nat;
  trade_off : Q;
  print_freq : Z;
}.

(** *** train *)

(** Lines 165-167: [y_all], [f_all], [labels_all] chunked per domain. *)
Definition separate_domains {S} (y_all : list Logit) (f_all : list Feature)
    (labels_all : list Label) (num_domains : nat)
  : M S (list (list Logit) * list (list Feature) * list (list Label)) :=
  (let* y_all := tensor_chunk y_all num_domains in
   let* f_all := tensor_chunk f_all num_domains in
   let* labels_all := tensor_chunk labels_all num_domains in
   ret (y_all, f_all, labels_all))%py.

(** Lines 179-182: the inner loop over [domain_j]. *)
Definition alignment_row (f_all : list (list Feature)) (num_domains domain_i : nat)
    (loss_penalty : pyval) : M store pyval :=
  foldM (fun loss_penalty domain_j =>
           (let* f_i := index f_all domain_i in
            let* f_j := index f_all domain_j in
            emit (Alignment domain_i domain_j) ;;
            ret (py_add loss_penalty (PyTensor (correlation_alignment_loss f_i f_j))))%py)
        (range (domain_i + 1) num_domains) loss_penalty.

(** Lines 173-182: the body of the loop over [domain_i], on the locals
    [(loss_ce, loss_penalty, cls_acc)]. *)
Definition domain_step (y_all : list (list Logit)) (f_all : list (list Feature))
    (labels_all : list (list Label)) (num_domains : nat)
    (locals : pyval * pyval * pyval) (domain_i : nat)
  : M store (pyval * pyval * pyval) :=
  (let '(loss_ce, loss_penalty, cls_acc) := locals in
   let* y_i := index y_all domain_i in
   let* labels_i := index labels_all domain_i in
   emit (CrossEntropy domain_i) ;;
   let loss_ce := py_add loss_ce (PyTensor (cross_entropy y_i labels_i)) in
   let* acc := py_truediv (PyTensor (accuracy y_i labels_i))
                          (PyInt (Z.of_nat num_domains)) in
   let cls_acc := py_add cls_acc acc in
   let* loss_penalty := alignment_row f_all num_domains domain_i loss_penalty in
   ret (loss_ce, loss_penalty, cls_acc))%py.

(** Lines 169-188: the losses of one iteration; returns
    [(loss_ce, loss_penalty, cls_acc, loss)]. *)
Definition compute_losses (y_all : list (list Logit)) (f_all : list (list Feature))
    (labels_all : list (list Label)) (num_domains : nat) (args : Args)
  : M store (pyval * pyval * pyval * pyval) :=
  (let* (loss_ce, loss_penalty, cls_acc) :=
     foldM (domain_step y_all f_all labels_all num_domains)
           (range 0 num_domains) (PyInt 0, PyInt 0, PyInt 0) in
   let* loss_ce := py_truediv loss_ce (PyInt (Z.of_nat num_domains)) in
   let* pair_count := py_truediv (PyInt (Z.of_nat num_domains * (Z.of_nat num_domains - 1)))
                                 (PyInt 2) in
   let* loss_penalty := py_truediv loss_penalty pair_count in
   let loss := py_add loss_ce (py_mul loss_penalty (PyFloat (trade_off args))) in
   ret (loss_ce, loss_penalty, cls_acc, loss))%py.

(** Lines 154-199: one iteration.  The meters only feed the progress
    display and are left out; their [.item()] calls are kept. *)
Definition train_iteration (num_domains : nat) (args : Args) : M store unit :=
  (let* (x_all, labels_all) := on_ts_get next_batch in
   emit NextBatch ;;
   let* (y_all, f_all) := on_ts_get (model_call x_all) in
   emit Forward ;;
   let* (y_all, f_all, labels_all) := separate_domains y_all f_all labels_all num_domains in
   let* (loss_ce, loss_penalty, cls_acc, loss) :=
     compute_losses y_all f_all labels_all num_domains args in
   as_tensor loss ;;
   as_tensor loss_ce ;;
   as_tensor loss_penalty ;;
   as_tensor cls_acc ;;
   on_ts zero_grad ;; emit ZeroGrad ;;
   let* l := as_tensor loss in
   on_ts (backward l) ;; emit Backward ;;
   on_ts optimizer_step ;; emit OptimizerStep ;;
   on_ts scheduler_step ;; emit SchedulerStep)%py.

(** Lines 149-199 of [train]: the epoch up to the update of each
    iteration, without the display test of lines 205-206 that ends the
    iteration.  The function as written is [train_displaying] below; the
    two agree for every nonzero [print_freq]. *)
Definition train (num_domains epoch : nat) (args : Args) : M store unit :=
  (on_ts model_train ;;
   for_ (range 0 (iters_per_epoch args)) (fun i => train_iteration num_domains args))%py.

(** *** validate *)

(** Lines 218-247 and 257 of [validate], without the display test of lines
    249-250 that ends each batch.  The function as written is
    [validate_displaying] below; the two agree for every nonzero
    [print_freq] and for an empty loader. *)
Definition validate (val_loader : list (list Image * list Label)) : M store Q :=
  (on_ts model_eval ;;
   let* top1 :=
     foldM (fun top1 '(images, target) =>
              let* (output, _) := read_ts (fun t => model_infer t images) in
              let acc1 := accuracy output target in
              ret (meter_update top1 (item acc1) (length images)))
           val_loader meter_new in
   ret (meter_avg top1))%py.

(** *** main *)

(** [torch.load(logger.get_checkpoint_path(name))] *)
Definition torch_load (name : string) : M store Checkpoint :=
  (let* found := read_files (fun fs => fs !! name) in
   match found with
   | Some c => ret c
   | None => raise FileNotFoundError
   end)%py.

(** [shutil.copy(src, dst)] *)
Definition shutil_copy (src dst : string) : M store unit :=
  (let* c := torch_load src in on_files (insert dst c))%py.

(** Lines 107-125: the body of the epoch loop, on the locals
    [(best_val_acc1, best_test_acc1)], over [train] and [validate] without
    their display tests. *)
Definition epoch_body (val_loader test_loader : list (list Image * list Label))
    (num_domains : nat) (args : Args) (best : Q * Q) (epoch : nat) : M store (Q * Q) :=
  (let '(best_val_acc1, best_test_acc1) := best in
   train num_domains epoch args ;;
   let* acc1 := validate val_loader in
   emit (SourceValidated acc1) ;;
   let* checkpoint := read_ts state_dict in
   on_files (insert "latest"%string checkpoint) ;;
   emit (SavedLatest checkpoint) ;;
   (if py_gt acc1 best_val_acc1
    then shutil_copy "latest" "best" ;; emit CopiedToBest
    else ret tt) ;;
   let best_val_acc1 := py_max acc1 best_val_acc1 in
   let* acc_t := validate test_loader in
   emit (TargetValidated acc_t) ;;
   let best_test_acc1 := py_max best_test_acc1 acc_t in
   ret (best_val_acc1, best_test_acc1))%py.

Definition training_loop (val_loader test_loader : list (list Image * list Label))
    (num_domains : nat) (args : Args) : M store (Q * Q) :=
  foldM (epoch_body val_loader test_loader num_domains args)
        (range 0 (epochs args)) (0%Q, 0%Q).

(** [main], from the creation of the classifier on, over [train] and
    [validate] without their display tests; returns the accuracy it prints
    last.  The script as written is [main_displaying] below. *)
Definition main (val_loader test_loader : list (list Image * list Label)) (args : Args)
  : M store Q :=
  (let num_domains := length (sources args) in
   if bool_decide (phase args = "test"%string) then
     let* checkpoint := torch_load "best" in
     on_ts (load_state_dict checkpoint) ;;
     validate test_loader
   else
     training_loop val_loader test_loader num_domains args ;;
     let* checkpoint := torch_load "best" in
     on_ts (load_state_dict checkpoint) ;;
     validate test_loader)%py.

(** *** The progress display *)

(** Lines 205-206 and 249-250: [if i % args.print_freq == 0:
    progress.display(i)].  The display prints; the remainder raises when
    [print_freq] is 0. *)
Definition display_progress (i : nat) (print_freq : Z) : M store unit :=
  if (print_freq =? 0)%Z then raise ZeroDivisionError
  else if (Z.of_nat i mod print_freq =? 0)%Z then ret tt else ret tt.

(** [train] with the display at the end of every iteration. *)
Definition train_displaying (num_domains epoch : nat) (args : Args) (print_freq : Z)
  : M store unit :=
  (on_ts model_train ;;
   for_ (range 0 (iters_per_epoch args))
        (fun i => train_iteration num_domains args ;; display_progress i print_freq))%py.

(** [validate] with the display after every batch; the batches are
    numbered by [enumerate]. *)
Definition validate_displaying (val_loader : list (list Image * list Label))
    (print_freq : Z) : M store Q :=
  (on_ts model_eval ;;
   let* top1 :=
     foldM (fun top1 '(i, (images, target)) =>
              let* (output, _) := read_ts (fun t => model_infer t images) in
              let acc1 := accuracy output target in
              let top1 := meter_update top1 (item acc1) (length images) in
              display_progress i print_freq ;;
              ret top1)
           (zip (seq 0 (length val_loader)) val_loader) meter_new in
   ret (meter_avg top1))%py.

(** *** The script as written *)

(** [classifier.load_state_dict(torch.load(logger.get_checkpoint_path(name)))]:
    the load matches strictly and raises when the checkpoint does not fit
    the classifier. *)
Definition load_checkpoint (name : string) : M store unit :=
  (let* checkpoint := torch_load name in
   let* fits := read_ts (checkpoint_fits checkpoint) in
   if fits then on_ts (load_state_dict checkpoint)
   else raise (RuntimeError "Error(s) in loading state_dict"))%py.

(** Lines 107-125 with the display tests of [train] and [validate]. *)
Definition epoch_body_displaying (val_loader test_loader : list (list Image * list Label))
    (num_domains : nat) (args : Args) (best : Q * Q) (epoch : nat) : M store (Q * Q) :=
  (let '(best_val_acc1, best_test_acc1) := best in
   train_displaying num_domains epoch args (print_freq args) ;;
   let* acc1 := validate_displaying val_loader (print_freq args) in
   emit (SourceValidated acc1) ;;
   let* checkpoint := read_ts state_dict in
   on_files (insert "latest"%string checkpoint) ;;
   emit (SavedLatest checkpoint) ;;
   (if py_gt acc1 best_val_acc1
    then shutil_copy "latest" "best" ;; emit CopiedToBest
    else ret tt) ;;
   let best_val_acc1 := py_max acc1 best_val_acc1 in
   let* acc_t := validate_displaying test_loader (print_freq args) in
   emit (TargetValidated acc_t) ;;
   let best_test_acc1 := py_max best_test_acc1 acc_t in
   ret (best_val_acc1, best_test_acc1))%py.

Definition training_loop_displaying
    (val_loader test_loader : list (list Image * list Label))
    (num_domains : nat) (args : Args) : M store (Q * Q) :=
  foldM (epoch_body_displaying val_loader test_loader num_domains args)
        (range 0 (epochs args)) (0%Q, 0%Q).

(** Lines 96-131 of [main]: the test phase, or the epoch loop followed by
    the evaluation of the best checkpoint; returns the accuracy it prints
    last. *)
Definition main_displaying (val_loader test_loader : list (list Image * list Label))
    (args : Args) : M store Q :=
  (let num_domains := length (sources args) in
   if bool_decide (phase args = "test"%string) then
     load_checkpoint "best" ;;
     validate_displaying test_loader (print_freq args)
   else
     training_loop_displaying val_loader test_loader num_domains args ;;
     load_checkpoint "best" ;;
     validate_displaying test_loader (print_freq args))%py.

(** *** The losses as the specification words them *)

(** [acc = 0; for t in terms: acc += t] *)
Definition plus_tensor (acc : pyval) (t : Scalar) : pyval := py_add acc (PyTensor t).

Definition py_sum (terms : list Scalar) : pyval :=
  fold_left plus_tensor terms (PyInt 0).

(** The pairs [(i, j)] with [i < j < num_domains], in the order of the loops. *)
Definition domain_pairs (num_domains : nat) : list (nat * nat) :=
  flat_map (fun i => map (fun j => (i, j)) (range (i + 1) num_domains))
           (range 0 num_domains).

Definition classification_terms (y_all : list (list Logit))
    (labels_all : list (list Label)) (num_domains : nat) : list Scalar :=
  map (fun i => cross_entropy (nth i y_all []) (nth i labels_all []))
      (range 0 num_domains).

Definition accuracy_terms (y_all : list (list Logit))
    (labels_all : list (list Label)) (num_domains : nat) : list Scalar :=
  map (fun i => tensor_div_number (accuracy (nth i y_all []) (nth i labels_all []))
                                  (inject_Z (Z.of_nat num_domains)))
      (range 0 num_domains).

Definition alignment_terms (f_all : list (list Feature)) (num_domains : nat)
  : list Scalar :=
  map (fun ij => correlation_alignment_loss (nth ij.1 f_all []) (nth ij.2 f_all []))
      (domain_pairs num_domains).

(** The calls of one iteration. *)
Definition loss_events (num_domains : nat) : list event :=
  flat_map (fun i => CrossEntropy i :: map (Alignment i) (range (i + 1) num_domains))
           (range 0 num_domains).

Definition update_events : list event :=
  [ZeroGrad; Backward; OptimizerStep; SchedulerStep].

Definition iteration_events (num_domains : nat) : list event :=
  [NextBatch; Forward] ++ loss_events num_domains ++ update_events.



Definition is_update (e : event) : bool :=
  match e with
  | ZeroGrad | Backward | OptimizerStep | SchedulerStep => true
  | _ => false
  end.

Definition is_event (e e' : event) : bool :=
  match e, e' with
  | ZeroGrad, ZeroGrad | Backward, Backward
  | OptimizerStep, OptimizerStep | SchedulerStep, SchedulerStep => true
  | _, _ => false
  end.

Definition count_event (e : event) (tr : list event) : nat :=
  length (List.filter (is_event e) tr).

(** Every batch of the iterator has [batch_size] samples and labels, and
    the classifier returns one logit row and one feature row per sample. *)
Definition batches_of (batch_size : nat) : Prop :=
  (forall t, length (next_batch t).1.1 = batch_size
             /\ length (next_batch t).1.2 = batch_size)
  /\ (forall x t, length (model_call x t).1.1 = length x
                  /\ length (model_call x t).1.2 = length x).

(** *** Model selection as the specification words it *)

(** The accuracy [validate] returns on a classifier in evaluation mode. *)
Definition top1_avg (loader : list (list Image * list Label)) (t : TState) : Q :=
  meter_avg
    (fold_left (fun top1 batch =>
                  meter_update top1 (item (accuracy (model_infer t batch.1).1 batch.2))
                               (length batch.1))
               loader meter_new).

(** [acc1] strictly exceeds 0 and every accuracy of an earlier epoch. *)
Definition exceeds_all (acc1 : Q) (earlier : list Q) : bool :=
  forallb (fun a => py_gt acc1 a) (0%Q :: earlier).

(** One record per epoch: source accuracy, checkpoint saved, target accuracy. *)
Fixpoint epoch_events (earlier : list Q) (records : list (Q * Checkpoint * Q))
  : list event :=
  match records with
  | [] => []
  | (acc1, c, acc_t) :: rest =>
      [SourceValidated acc1; SavedLatest c]
        ++ (if exceeds_all acc1 earlier then [CopiedToBest] else [])
        ++ [TargetValidated acc_t]
        ++ epoch_events (earlier ++ [acc1]) rest
  end.

Fixpoint select_best (earlier : list Q) (records : list (Q * Checkpoint * Q))
    (current : option Checkpoint) : option Checkpoint :=
  match records with
  | [] => current
  | (acc1, c, _) :: rest =>
      select_best (earlier ++ [acc1]) rest
                  (if exceeds_all acc1 earlier then Some c else current)
  end.

(** The checkpoint written last. *)
Definition last_saved (records : list (Q * Checkpoint * Q))
    (current : option Checkpoint) : option Checkpoint :=
  fold_left (fun _ r => Some r.1.2) records current.

Definition is_epoch_event (e : event) : bool :=
  match e with
  | SourceValidated _ | SavedLatest _ | CopiedToBest | TargetValidated _ => true
  | _ => false
  end.

Definition is_target_event (e : event) : bool :=
  match e with
  | TargetValidated _ => true
  | _ => false
  end.

(** What a run shows once the target evaluations are taken out of it: the
    exception or [best_val_acc1], the classifier, the checkpoint files, and
    the trace without the [TargetValidated] entries. *)
Definition source_trace (tr : list event) : list event :=
  List.filter (fun e => negb (is_target_event e)) tr.

Definition source_view (r : outcome (Q * Q) * store)
  : outcome Q * TState * gmap string Checkpoint * list event :=
  (match r.1 with Ok best => Ok best.1 | Raise e => Raise e end,
   ts r.2, files r.2, source_trace (trace r.2)).

(** Two stores that differ at most in target evaluations. *)
Definition same_for_source (s1 s2 : store) : Prop :=
  ts s1 = ts s2 /\ files s1 = files s2
  /\ source_trace (trace s1) = source_trace (trace s2).

(** Two computations that, from such stores, raise the same exception or
    return values related by [R], and again leave such stores. *)
Definition related {A B} (R : A -> B -> Prop) (c1 : M store A) (c2 : M store B) : Prop :=
  forall s1 s2, same_for_source s1 s2 ->
    match c1 s1, c2 s2 with
    | (Ok a, s1'), (Ok b, s2') => R a b /\ same_for_source s1' s2'
    | (Raise e1, s1'), (Raise e2, s2') => e1 = e2 /\ same_for_source s1' s2'
    | _, _ => False
    end.

(** A computation that neither reads nor writes the store. *)
Definition pure {A} (c : M store A) : Prop :=
  exists r, forall s, c s = (r, s).

(** [s'] comes after [s]: the trace has only grown, and no checkpoint file
    other than those named in [writable] has changed. *)
Definition comes_after (writable : list string) (s s' : store) : Prop :=
  (exists new, trace s' = trace s ++ new)
  /\ (forall name, name ∉ writable -> files s' !! name = files s !! name).

(** A computation that, returning or raising, only appends to the trace
    and only writes the files in [writable]. *)
Definition writes_only {A} (writable : list string) (c : M store A) : Prop :=
  forall s, comes_after writable s (c s).2.

(** *** What a run does to the classifier *)

(** The chunks of a batch tensor whose rows divide evenly among the domains. *)
Definition domain_chunks {A} (t : list A) (num_domains : nat) : list (list A) :=
  let k := length t / num_domains in
  map (fun i => narrow t (i * k) k) (seq 0 num_domains).

(** The loss tensor of lines 184-188: the mean of the classification losses
    plus [trade_off] times the mean of the alignment losses. *)
Definition loss_tensor (y_all : list (list Logit)) (f_all : list (list Feature))
    (labels_all : list (list Label)) (num_domains : nat) (args : Args)
  : option Scalar :=
  match py_sum (classification_terms y_all labels_all num_domains),
        py_sum (alignment_terms f_all num_domains) with
  | PyTensor sum_ce, PyTensor sum_penalty =>
      Some (tensor_add
              (tensor_div_number sum_ce (inject_Z (Z.of_nat num_domains)))
              (tensor_mul_number
                 (tensor_div_number sum_penalty
                    (inject_Z (Z.of_nat num_domains * (Z.of_nat num_domains - 1))
                     / inject_Z 2))
                 (trade_off args)))
  | _, _ => None
  end.

(** Lines 196-199 on the classifier, optimizer and scheduler. *)
Definition gradient_update (loss : Scalar) (t : TState) : TState :=
  scheduler_step (optimizer_step (backward loss (zero_grad t))).

(** One iteration of [train] on the classifier, optimizer, scheduler and
    iterator: the next batch, the forward pass, one gradient update. *)
Definition iteration_update (num_domains : nat) (args : Args) (t : TState)
  : option TState :=
  let '((x_all, labels_all), t1) := next_batch t in
  let '((y_all, f_all), t2) := model_call x_all t1 in
  match loss_tensor (domain_chunks y_all num_domains) (domain_chunks f_all num_domains)
                    (domain_chunks labels_all num_domains) num_domains args with
  | Some loss => Some (gradient_update loss t2)
  | None => None
  end.

Fixpoint iterations_update (num_domains : nat) (args : Args) (n : nat) (t : TState)
  : option TState :=
  match n with
  | 0 => Some t
  | S n' => match iteration_update num_domains args t with
            | Some t' => iterations_update num_domains args n' t'
            | None => None
            end
  end.

(** One epoch of [train]. *)
Definition epoch_update (num_domains : nat) (args : Args) (t : TState) : option TState :=
  iterations_update num_domains args (iters_per_epoch args) (model_train t).

(** The epochs of a run, from the classifier they start with: per epoch
    the source accuracy measured after training, the checkpoint of the
    trained classifier, and the target accuracy; and the classifier the
    run ends with. *)
Fixpoint epoch_records (val_loader test_loader : list (list Image * list Label))
    (num_domains : nat) (args : Args) (n : nat) (t : TState)
  : option (list (Q * Checkpoint * Q) * TState) :=
  match n with
  | 0 => Some ([], t)
  | S n' =>
      match epoch_update num_domains args t with
      | Some trained =>
          let t_val := model_eval trained in
          let t_test := model_eval t_val in
          match epoch_records val_loader test_loader num_domains args n' t_test with
          | Some (rest, t_end) =>
              Some ((top1_avg val_loader t_val, state_dict t_val,
                     top1_avg test_loader t_test) :: rest, t_end)
          | None => None
          end
      | None => None
      end
  end.

(** [m] is the greatest of the accuracies [l]. *)
Definition greatest (m : Q) (l : list Q) : Prop :=
  (forall a, a ∈ l -> (a <= m)%Q) /\ (exists a, a ∈ l /\ (a == m)%Q).

Definition source_accuracies (records : list (Q * Checkpoint * Q)) : list Q :=
  map (fun r => r.1.1) records.

Definition target_accuracies (records : list (Q * Checkpoint * Q)) : list Q :=
  map (fun r => r.2) records.

End Script.

(** A small implementation of the interface, to run the definitions on:
    the classifier state is the number of optimizer steps taken. *)
Module Toy.

#[export] Instance toy_torch : Torch :=
  {| TState := nat;
     Image := nat;
     Label := nat;
     Logit := nat;
     Feature := nat;
     Scalar := Q;
     Checkpoint := nat;
     Meter := Q * nat;
     next_batch := fun t => (([1; 2; 3; 4; 5; 6], [1; 0; 3; 0; 5; 0]), t);
     model_train := fun t => t;
     model_eval := fun t => t;
     model_call := fun x t => ((x, map (fun i => i + t) x), t);
     model_infer := fun t x => (map (fun i => i * (t mod 3)) x, x);
     cross_entropy := fun y l => inject_Z (Z.of_nat (list_sum y + list_sum l));
     accuracy := fun y l =>
       inject_Z (Z.of_nat (length (List.filter (fun p => fst p =? snd p) (zip y l))));
     correlation_alignment_loss := fun f g =>
       inject_Z (Z.of_nat (list_sum f * list_sum g));
     tensor_add := Qplus;
     tensor_mul := Qmult;
     tensor_div := Qdiv;
     tensor_add_number := Qplus;
     tensor_mul_number := Qmult;
     tensor_div_number := Qdiv;
     number_div_tensor := Qdiv;
     item := fun q => q;
     zero_grad := fun t => t;
     backward := fun _ t => t;
     optimizer_step := S;
     scheduler_step := fun t => t;
     state_dict := fun t => t;
     load_state_dict := fun c _ => c;
     checkpoint_fits := fun c _ => c <? 100;
     meter_new := (0%Q, 0);
     meter_update := fun m v n => ((m.1 + v * inject_Z (Z.of_nat n))%Q, m.2 + n);
     meter_avg := fun m => (m.1 / inject_Z (Z.of_nat m.2))%Q |}.

Definition toy_args (domains : list string) : Args :=
  {| sources := domains; phase := "train"; epochs := 3; iters_per_epoch := 2;
     trade_off := 1; print_freq := 100 |}.

Definition toy_store : store := {| ts := 0; files := ∅; trace := [] |}.

Definition toy_val_loader : list (list nat * list nat) := [([1; 2], [1; 2]); ([3], [6])].

Definition toy_test_loader : list (list nat * list nat) := [([4; 5], [8; 5])].

Definition toy_test_args : Args :=
  {| sources := ["a"; "b"; "c"]%string; phase := "test"; epochs := 3;
     iters_per_epoch := 2; trade_off := 1; print_freq := 100 |}.

(** A second implementation, whose classifier state is the journal of the
    calls made on the classifier, the optimizer, the scheduler and the
    iterator, oldest first. *)
Inductive call : Type :=
| CallTrain | CallEval | CallNext | CallForward
| CallZeroGrad | CallBackward (loss : Q) | CallStep | CallSchedulerStep
| CallLoad.

Definition journal_torch : Torch :=
  {| TState := list call;
     Image := nat;
     Label := nat;
     Logit := nat;
     Feature := nat;
     Scalar := Q;
     Checkpoint := nat;
     Meter := Q * nat;
     next_batch := fun t => (([1; 2; 3; 4; 5; 6], [1; 0; 3; 0; 5; 0]), t ++ [CallNext]);
     model_train := fun t => t ++ [CallTrain];
     model_eval := fun t => t ++ [CallEval];
     model_call := fun x t => ((x, x), t ++ [CallForward]);
     model_infer := fun t x => (x, x);
     cross_entropy := fun y l => inject_Z (Z.of_nat (list_sum y + list_sum l));
     accuracy := fun y l =>
       inject_Z (Z.of_nat (length (List.filter (fun p => fst p =? snd p) (zip y l))));
     correlation_alignment_loss := fun f g =>
       inject_Z (Z.of_nat (list_sum f * list_sum g));
     tensor_add := Qplus;
     tensor_mul := Qmult;
     tensor_div := Qdiv;
     tensor_add_number := Qplus;
     tensor_mul_number := Qmult;
     tensor_div_number := Qdiv;
     number_div_tensor := Qdiv;
     item := fun q => q;
     zero_grad := fun t => t ++ [CallZeroGrad];
     backward := fun loss t => t ++ [CallBackward (Qred loss)];
     optimizer_step := fun t => t ++ [CallStep];
     scheduler_step := fun t => t ++ [CallSchedulerStep];
     state_dict := fun t => length t;
     load_state_dict := fun c t => t ++ [CallLoad];
     checkpoint_fits := fun c _ => true;
     meter_new := (0%Q, 0);
     meter_update := fun m v n => ((m.1 + v * inject_Z (Z.of_nat n))%Q, m.2 + n);
     meter_avg := fun m => (m.1 / inject_Z (Z.of_nat m.2))%Q |}.

Definition journal_store : @store journal_torch :=
  @Build_store journal_torch (@nil call) ∅ [].

End Toy.

End Coral.

(** * Properties *)

(** ** The monad *)

Section MonadFacts.
Context {S : Type}.

Lemma for_assert {A} (P : A -> bool) (l : list A) (s : S) :
  for_ l (fun x => assert (P x)) s
  = (if forallb P l then Ok tt else Raise AssertionError, s).
Proof.
  unfold for_. induction l as [|x l IH]; simpl; [reflexivity|].
  unfold bind, assert at 1. destruct (P x); simpl; [apply IH | reflexivity].
Qed.

Lemma foldM_app {A B} (body : B -> A -> M S B) (l1 l2 : list A) (acc : B) (s : S) :
  foldM body (l1 ++ l2) acc s
  = bind (foldM body l1 acc) (fun acc' => foldM body l2 acc') s.
Proof.
  revert acc s. induction l1 as [|x l1 IH]; intros acc s; simpl.
  - reflexivity.
  - unfold bind. destruct (body acc x s) as [[b|e] s1].
    + rewrite IH. reflexivity.
    + reflexivity.
Qed.

End MonadFacts.

(** Closes a decidable closed goal by evaluation. *)
Ltac not_a_choice := apply (bool_decide_unpack _); vm_compute; exact I.

(** ** resnet.py *)

Module ResNetFacts.
Import MixStyleResNet.

Section Facts.
Context `{Backbone}.

Lemma forallb_valid (l : list string) :
  forallb (fun layer => bool_decide (layer ∈ valid_choices)) l = true
  <-> (forall layer, layer ∈ l -> layer ∈ valid_choices).
Proof.
  rewrite forallb_forall. split.
  - intros Hall layer Hin. apply list_elem_of_In in Hin.
    apply Hall in Hin. apply bool_decide_eq_true in Hin. exact Hin.
  - intros Hall layer Hin. apply bool_decide_eq_true, Hall, list_elem_of_In, Hin.
Qed.

(** The class is instantiated exactly when every name is a valid choice. *)
Lemma init_result rc mix_layers p a block layers kwargs w :
  init rc mix_layers p a block layers kwargs w
  = (if forallb (fun layer => bool_decide (layer ∈ valid_choices)) mix_layers
     then Ok {| base_class := rc; mix_p := p; mix_alpha := a;
                apply_layers := mix_layers;
                state_dict := (super_init rc block layers kwargs w).1 |}
     else Raise AssertionError,
     (super_init rc block layers kwargs w).2).
Proof.
  unfold init, bind. destruct (super_init rc block layers kwargs w) as [params w1].
  rewrite for_assert. simpl.
  destruct (forallb _ mix_layers); reflexivity.
Qed.

(** [load_state_dict] never raises [AssertionError]. *)
Lemma load_state_dict_not_assertion self sd strict w :
  (load_state_dict self sd strict w).1 <> Raise AssertionError.
Proof.
  unfold load_state_dict.
  destruct (bool_decide (index_errors _ _ = ∅)); [|discriminate].
  destruct (bool_decide (size_mismatch _ _ = ∅)); [|discriminate].
  destruct (strict && _); discriminate.
Qed.

(** Every call of [forward] is appended to the trace, and its value is that
    of the calls run in order. *)
Lemma forward_trace (self : model) (x : Feat) (w : World) (log : list module) :
  forward self x (w, log)
  = (Ok (run_calls self (forward_calls (base_class self) (apply_layers self)) x w).1,
     ((run_calls self (forward_calls (base_class self) (apply_layers self)) x w).2,
      log ++ forward_calls (base_class self) (apply_layers self))).
Proof.
  unfold forward, forward_calls, mix_after.
  destruct (bool_decide (base_class self <> ReidResNet));
    destruct (bool_decide ("layer1"%string ∈ apply_layers self));
    destruct (bool_decide ("layer2"%string ∈ apply_layers self));
    destruct (bool_decide ("layer3"%string ∈ apply_layers self));
    unfold bind, invoke, ret; simpl;
    repeat match goal with
           | |- context [call ?s ?m ?y ?v] => destruct (call s m y v)
           end;
    simpl; rewrite <- ?app_assoc; reflexivity.
Qed.

(** With only valid names in the insertion set, the calls of [forward] are
    the stages with the transform after each named one. *)
Lemma forward_calls_spec (rc : resnet_class) (l : list string) :
  (forall layer, layer ∈ l -> layer ∈ valid_choices) ->
  forward_calls rc l = stages_with_mixing l (backbone_stages rc).
Proof.
  intros Hvalid.
  assert (Hno : forall name, name ∉ valid_choices -> bool_decide (name ∈ l) = false).
  { intros name Hname. apply bool_decide_eq_false. intros Hin. apply Hname, Hvalid, Hin. }
  assert (Hc : bool_decide ("conv1"%string ∈ l) = false) by (apply Hno; not_a_choice).
  assert (Hb : bool_decide ("bn1"%string ∈ l) = false) by (apply Hno; not_a_choice).
  assert (Hr : bool_decide ("relu"%string ∈ l) = false) by (apply Hno; not_a_choice).
  assert (Hm : bool_decide ("maxpool"%string ∈ l) = false) by (apply Hno; not_a_choice).
  assert (H4 : bool_decide ("layer4"%string ∈ l) = false) by (apply Hno; not_a_choice).
  unfold forward_calls, stages_with_mixing, mix_after.
  destruct rc; simpl; rewrite ?Hc, ?Hb, ?Hr, ?Hm, ?H4;
    destruct (bool_decide ("layer1"%string ∈ l));
    destruct (bool_decide ("layer2"%string ∈ l));
    destruct (bool_decide ("layer3"%string ∈ l)); reflexivity.
Qed.

(** Which entries [restrict_to] keeps. *)
Lemma lookup_restrict_to (own pre : gmap string Tensor) (k : string) :
  restrict_to own pre !! k
  = match own !! k with Some _ => pre !! k | None => None end.
Proof.
  unfold restrict_to. destruct (own !! k) as [v|] eqn:Hown.
  - destruct (pre !! k) as [u|] eqn:Hpre.
    + apply map_lookup_filter_Some. simpl. rewrite Hown. eauto.
    + apply map_lookup_filter_None. left. exact Hpre.
  - apply map_lookup_filter_None. right. intros u _ [? Hsome]. simpl in Hsome.
    rewrite Hown in Hsome. discriminate.
Qed.


(** A value of the parameter's own shape is copied as it is. *)
Lemma load_entry_same_shape (v u : Tensor) :
  shape v = shape u -> load_entry v u = Copied u.
Proof.
  intros Heq. unfold load_entry. rewrite <- Heq.
  destruct (shape v) as [|n l]; rewrite bool_decide_eq_true_2; reflexivity.
Qed.

(** With the shared keys equal in shape nothing is indexed and nothing is
    reported. *)
Lemma no_errors_of_same_shapes (own sd : gmap string Tensor) :
  (forall k v u, own !! k = Some v -> sd !! k = Some u -> shape v = shape u)
  -> index_errors own sd = ∅ /\ size_mismatch own sd = ∅.
Proof.
  intros Hall. unfold index_errors, size_mismatch.
  split; apply map_empty; intros k; apply map_lookup_filter_None;
    (destruct (sd !! k) as [u|] eqn:Hsd; [right | left; reflexivity]);
    intros u' Hu'; injection Hu' as <-; simpl;
    unfold is_index_error, is_size_mismatch;
    (destruct (own !! k) as [v|] eqn:Hown; [|discriminate]);
    rewrite (load_entry_same_shape _ _ (Hall k v u Hown Hsd)); discriminate.
Qed.

(** An entry that is not copied has a value of another shape. *)
Lemma load_entry_rejected (v u : Tensor) :
  (forall t, load_entry v u <> Copied t) -> shape v <> shape u.
Proof.
  intros Hno Heq. apply (Hno u), load_entry_same_shape, Heq.
Qed.

Lemma index_errors_witness (own sd : gmap string Tensor) :
  index_errors own sd <> ∅
  -> exists k v u, own !! k = Some v /\ sd !! k = Some u /\ shape v <> shape u.
Proof.
  intros Hne. apply map_choose in Hne as (k & u & Hl).
  apply map_lookup_filter_Some in Hl as [Hl Hbad]. simpl in Hbad.
  unfold is_index_error in Hbad.
  destruct (own !! k) as [v|] eqn:Hown; [|discriminate].
  exists k, v, u. split; [exact Hown|]. split; [exact Hl|].
  apply load_entry_rejected. intros t Ht. rewrite Ht in Hbad. discriminate.
Qed.

Lemma size_mismatch_witness (own sd : gmap string Tensor) :
  size_mismatch own sd <> ∅
  -> exists k v u, own !! k = Some v /\ sd !! k = Some u /\ shape v <> shape u.
Proof.
  intros Hne. apply map_choose in Hne as (k & u & Hl).
  apply map_lookup_filter_Some in Hl as [Hl Hbad]. simpl in Hbad.
  unfold is_size_mismatch in Hbad.
  destruct (own !! k) as [v|] eqn:Hown; [|discriminate].
  exists k, v, u. split; [exact Hown|]. split; [exact Hl|].
  apply load_entry_rejected. intros t Ht. rewrite Ht in Hbad. discriminate.
Qed.

Lemma lookup_copy_params (own sd : gmap string Tensor) (k : string) :
  copy_params own sd !! k
  = match own !! k, sd !! k with
    | Some v, Some u => match load_entry v u with
                        | Copied t => Some t
                        | _ => Some v
                        end
    | Some v, None => Some v
    | None, _ => None
    end.
Proof.
  unfold copy_params. rewrite lookup_merge.
  destruct (own !! k), (sd !! k); reflexivity.
Qed.

(** C2: with an insertion set inside {layer1, layer2, layer3}, the forward
    pass calls the backbone stages in order (conv1, bn1, relu unless the
    class is ReidResNet, maxpool, layer1..layer4) with the mixing transform
    called once right after each stage named in the set and nowhere else;
    the number of mixing calls is the number of valid names in the set, the
    last call is layer4, and with the set {"layer2"} there is exactly one
    mixing call, right after layer2. *)
Theorem forward_mixes_after_named_stages
    (self : model) (x : Feat) (w : World) (log : list module) :
  (forall layer, layer ∈ apply_layers self -> layer ∈ valid_choices) ->
  let calls := stages_with_mixing (apply_layers self) (backbone_stages (base_class self)) in
  forward self x (w, log)
    = (Ok (run_calls self calls x w).1, ((run_calls self calls x w).2, log ++ calls))
  /\ length (filter (fun m => m = mixStyleModule) calls)
     = length (filter (fun name => name ∈ apply_layers self) valid_choices)
  /\ last calls = Some layer4
  /\ (apply_layers self = ["layer2"%string] ->
      length (filter (fun m => m = mixStyleModule) calls) = 1
      /\ exists before, (mixStyleModule ∉ before)
         /\ calls = before ++ [layer2; mixStyleModule; layer3; layer4]).
Proof.
  intros Hvalid calls. subst calls.
  rewrite <- (forward_calls_spec _ _ Hvalid).
  split; [apply forward_trace|].
  unfold forward_calls, mix_after, valid_choices.
  split; [|split].
  - rewrite !filter_cons, filter_nil.
    destruct (base_class self); simpl;
      repeat case_bool_decide; repeat case_decide; try reflexivity; contradiction.
  - destruct (base_class self); simpl; repeat case_bool_decide; reflexivity.
  - intros ->. split.
    + destruct (base_class self); reflexivity.
    + destruct (base_class self);
        [exists [conv1; bn1; relu; maxpool; layer1]
        |exists [conv1; bn1; maxpool; layer1]
        |exists [conv1; bn1; relu; maxpool; layer1]];
        (split; [not_a_choice | reflexivity]).
Qed.

(** C6: for a supported class, the relu after bn1 is called if and only if
    the class is ResNet and is left out if and only if it is ReidResNet; the
    calls after it are the same for both. *)
Theorem relu_iff_plain_resnet (self : model) (x : Feat) (w : World) :
  base_class self ∈ available_resnet_class ->
  let calls := (forward self x (w, [])).2.2 in
  let common := [maxpool; layer1] ++ mix_after "layer1" (apply_layers self)
                ++ [layer2] ++ mix_after "layer2" (apply_layers self)
                ++ [layer3] ++ mix_after "layer3" (apply_layers self)
                ++ [layer4] in
  (forward self x (w, [])).1 = Ok (run_calls self calls x w).1
  /\ (base_class self = ResNet -> calls = [conv1; bn1; relu] ++ common)
  /\ (base_class self = ReidResNet -> calls = [conv1; bn1] ++ common)
  /\ (relu ∈ calls <-> base_class self = ResNet)
  /\ (relu ∉ calls <-> base_class self = ReidResNet).
Proof.
  intros Hclass calls common. subst calls common.
  rewrite forward_trace. simpl fst. simpl snd.
  split; [reflexivity|].
  unfold forward_calls, mix_after.
  unfold available_resnet_class in Hclass.
  apply elem_of_cons in Hclass as [Hclass|Hclass];
    [|apply list_elem_of_singleton in Hclass]; rewrite Hclass; simpl.
  - split; [reflexivity|]. split; [discriminate|].
    split; [split; [reflexivity | intros _; do 2 right; left]
           |split; [intros Hno; exfalso; apply Hno; do 2 right; left | discriminate]].
  - split; [discriminate|]. split; [reflexivity|].
    assert (Hno : relu ∉
      conv1 :: bn1 :: maxpool :: layer1 ::
        (if bool_decide ("layer1"%string ∈ apply_layers self) then [mixStyleModule] else [])
        ++ layer2 :: (if bool_decide ("layer2"%string ∈ apply_layers self) then [mixStyleModule] else [])
        ++ layer3 :: (if bool_decide ("layer3"%string ∈ apply_layers self) then [mixStyleModule] else [])
        ++ [layer4]).
    { repeat case_bool_decide; not_a_choice. }
    split; [split; [intros Hin; contradiction | discriminate]
           |split; [reflexivity | intros _; exact Hno]].
Qed.

(** C3: the factory raises AssertionError if and only if the class is
    neither ResNet nor ReidResNet or some insertion name is outside
    {layer1, layer2, layer3}; with a supported class and valid names the
    model is instantiated, and without pretrained weights the factory
    returns it. *)
Theorem factory_asserts_class_and_names
    (arch : string) (block : Block) (layers : list nat) (pretrained progress : bool)
    (mix_layers : option (list string)) (p a : Q) (rc : resnet_class)
    (kwargs : Kwargs) (w : World) :
  let names := match mix_layers with None => [] | Some l => l end in
  let result :=
    _resnet_with_mix_style arch block layers pretrained progress mix_layers p a rc kwargs w in
  (result.1 = Raise AssertionError
   <-> rc ∉ available_resnet_class
       \/ exists layer, layer ∈ names /\ layer ∉ valid_choices)
  /\ (rc ∈ available_resnet_class ->
      (forall layer, layer ∈ names -> layer ∈ valid_choices) ->
      (exists m, (init rc names p a block layers kwargs w).1 = Ok m
                 /\ base_class m = rc /\ apply_layers m = names)
      /\ (pretrained = false -> exists m, result.1 = Ok m)).
Proof.
  intros names result.
  assert (Hres : result =
    if bool_decide (rc ∈ available_resnet_class) then
      if forallb (fun layer => bool_decide (layer ∈ valid_choices)) names then
        let m := {| base_class := rc; mix_p := p; mix_alpha := a; apply_layers := names;
                    state_dict := (super_init rc block layers kwargs w).1 |} in
        let w1 := (super_init rc block layers kwargs w).2 in
        if pretrained then
          match model_urls !! arch with
          | Some url =>
              match load_state_dict_from_url url progress w1 with
              | (Some d, w2) => load_state_dict m (restrict_to (state_dict m) d) false w2
              | (None, w2) => (Raise OSError, w2)
              end
          | None => (Raise KeyError, w1)
          end
        else (Ok m, w1)
      else (Raise AssertionError, (super_init rc block layers kwargs w).2)
    else (Raise AssertionError, w)).
  { subst result. unfold _resnet_with_mix_style. fold names. unfold bind at 1, assert.
    destruct (bool_decide (rc ∈ available_resnet_class)); [|reflexivity].
    unfold ret at 1. unfold bind at 1. rewrite init_result.
    destruct (forallb _ names); [|reflexivity].
    destruct pretrained; [|reflexivity].
    unfold bind, raise, ret. simpl.
    destruct (model_urls !! arch); [|reflexivity].
    destruct (load_state_dict_from_url _ _ _) as [[d|] w2]; reflexivity. }
  rewrite Hres. clear Hres result.
  destruct (decide (rc ∈ available_resnet_class)) as [Hrc|Hrc].
  2:{ rewrite (bool_decide_eq_false_2 _ Hrc). simpl.
      split; [split; [intros _; left; exact Hrc | reflexivity] | contradiction]. }
  rewrite (bool_decide_eq_true_2 _ Hrc). rewrite init_result.
  destruct (forallb (fun layer => bool_decide (layer ∈ valid_choices)) names) eqn:Hall.
  - pose proof (proj1 (forallb_valid names) Hall) as Hvalid.
    split.
    + split.
      * intros Hraise. exfalso. revert Hraise. simpl.
        destruct pretrained; [|discriminate].
        destruct (model_urls !! arch); [|discriminate].
        destruct (load_state_dict_from_url _ _ _) as [[d|] w2]; [|discriminate].
        apply load_state_dict_not_assertion.
      * intros [Hno | (layer & Hin & Hno)]; [contradiction|].
        exfalso. apply Hno, Hvalid, Hin.
    + intros _ _. split; [eexists; split; [reflexivity | split; reflexivity]|].
      intros ->. eexists. reflexivity.
  - split.
    + split; [|reflexivity]. intros _. right.
      destruct (decide (Forall (fun layer => layer ∈ valid_choices) names)) as [Hf|Hf].
      * exfalso. rewrite Forall_forall in Hf. apply forallb_valid in Hf. congruence.
      * apply not_Forall_Exists in Hf; [|intros layer; apply _].
        apply Exists_exists in Hf. exact Hf.
    + intros _ Hvalid. apply forallb_valid in Hvalid. congruence.
Qed.

(** C4: with pretrained weights requested, the downloaded dictionary is
    first restricted to the keys of the model and then loaded with strict
    matching off.  Keys of the model missing from the download never make
    the load raise: it raises only when a shared key differs in shape, and
    otherwise returns a model in which every parameter absent from the
    download has its constructed value and every shared one the downloaded
    value. *)
Theorem pretrained_load_keeps_absent_parameters
    (arch : string) (block : Block) (layers : list nat) (progress : bool)
    (mix_layers : option (list string)) (p a : Q) (rc : resnet_class)
    (kwargs : Kwargs) (w w1 w2 : World) (m : model) (url : string)
    (pre : gmap string Tensor) :
  rc ∈ available_resnet_class ->
  init rc (match mix_layers with None => [] | Some l => l end) p a block layers kwargs w
    = (Ok m, w1) ->
  model_urls !! arch = Some url ->
  load_state_dict_from_url url progress w1 = (Some pre, w2) ->
  let loaded := restrict_to (state_dict m) pre in
  let result :=
    _resnet_with_mix_style arch block layers true progress mix_layers p a rc kwargs w in
  (forall k, loaded !! k = match state_dict m !! k with
                           | Some _ => pre !! k
                           | None => None
                           end)
  /\ result = load_state_dict m loaded false w2
  /\ ((forall k v u, state_dict m !! k = Some v -> pre !! k = Some u -> shape v = shape u) ->
      exists m', result = (Ok m', w2)
        /\ base_class m' = base_class m /\ apply_layers m' = apply_layers m
        /\ (forall k, pre !! k = None -> state_dict m' !! k = state_dict m !! k)
        /\ (forall k, is_Some (state_dict m !! k) -> is_Some (pre !! k) ->
                      state_dict m' !! k = pre !! k)
        /\ (forall k, is_Some (state_dict m' !! k) <-> is_Some (state_dict m !! k)))
  /\ (forall e, result.1 = Raise e ->
      exists k v u, state_dict m !! k = Some v /\ pre !! k = Some u /\ shape v <> shape u).
Proof.
  intros Hrc Hinit Hurl Hfetch loaded result.
  assert (Hres : result = load_state_dict m loaded false w2).
  { subst result loaded. unfold _resnet_with_mix_style. unfold bind at 1, assert.
    rewrite (bool_decide_eq_true_2 _ Hrc). unfold ret at 1. unfold bind at 1.
    rewrite Hinit. unfold bind at 1. rewrite Hurl. unfold ret at 1.
    unfold bind. rewrite Hfetch. reflexivity. }
  assert (Hloaded : forall k v u, state_dict m !! k = Some v -> loaded !! k = Some u ->
                                  pre !! k = Some u).
  { intros k v u Hown Hl. subst loaded. rewrite lookup_restrict_to, Hown in Hl. exact Hl. }
  split; [intros k; apply lookup_restrict_to|].
  split; [exact Hres|].
  rewrite Hres. unfold load_state_dict. simpl andb.
  split.
  - intros Hsame.
    assert (Hsame' : forall k v u, state_dict m !! k = Some v -> loaded !! k = Some u ->
                                   shape v = shape u).
    { intros k v u Hown Hl. exact (Hsame k v u Hown (Hloaded k v u Hown Hl)). }
    destruct (no_errors_of_same_shapes _ _ Hsame') as [Hidx Hmis].
    rewrite (bool_decide_eq_true_2 _ Hidx), (bool_decide_eq_true_2 _ Hmis).
    eexists. split; [reflexivity|]. simpl.
    split; [reflexivity|]. split; [reflexivity|].
    split; [|split].
    + intros k Hpre. rewrite lookup_copy_params. subst loaded.
      rewrite lookup_restrict_to, Hpre. destruct (state_dict m !! k); reflexivity.
    + intros k [v Hown] [u Hpre]. rewrite lookup_copy_params. subst loaded.
      rewrite lookup_restrict_to, Hown, Hpre.
      rewrite (load_entry_same_shape _ _ (Hsame k v u Hown Hpre)). reflexivity.
    + intros k. rewrite lookup_copy_params.
      destruct (state_dict m !! k) as [v|], (loaded !! k) as [u|];
        [destruct (load_entry v u)| | |]; split; intros [? ?]; try discriminate; eauto.
  - intros e. case_bool_decide as Hidx.
    + case_bool_decide as Hmis; [discriminate|]. intros _.
      destruct (size_mismatch_witness _ _ Hmis) as (k & v & u & Hown & Hl & Hne).
      exists k, v, u. split; [exact Hown|]. split; [exact (Hloaded k v u Hown Hl)|exact Hne].
    + intros _.
      destruct (index_errors_witness _ _ Hidx) as (k & v & u & Hown & Hl & Hne).
      exists k, v, u. split; [exact Hown|]. split; [exact (Hloaded k v u Hown Hl)|exact Hne].
Qed.

End Facts.
End ResNetFacts.

(** ** coral.py *)

Module CoralFacts.
Import Coral.

(** *** torch.chunk on a batch that divides evenly *)

Section Chunk.
Context {A : Type}.

Lemma split_with_sizes_zeros (t : list A) (start n : nat) :
  split_with_sizes t start (replicate n 0) = replicate n [].
Proof.
  revert start. induction n as [|n IH]; intros start; simpl; [reflexivity|].
  rewrite Nat.add_0_r, IH. unfold narrow. rewrite take_0. reflexivity.
Qed.

Lemma narrow_nothing (t : list A) (start n : nat) :
  map (fun i => narrow t (i * 0) 0) (seq start n) = replicate n [].
Proof.
  revert start. induction n as [|n IH]; intros start; simpl; [reflexivity|].
  rewrite IH. unfold narrow. rewrite take_0. reflexivity.
Qed.

Lemma tensor_chunk_even {St} (t : list A) (chunks k : nat) (s : St) :
  0 < chunks -> length t = chunks * k ->
  tensor_chunk t chunks s
  = (Ok (map (fun i => narrow t (i * k) k) (seq 0 chunks)), s).
Proof.
  intros Hpos Hlen. unfold tensor_chunk.
  destruct (Nat.eqb_spec chunks 0) as [->|_]; [lia|].
  rewrite Hlen.
  assert (Hsize : (chunks * k + chunks - 1) / chunks = k).
  { replace (chunks * k + chunks - 1) with (k * chunks + (chunks - 1)) by lia.
    rewrite Nat.div_add_l by lia. rewrite Nat.div_small by lia. lia. }
  rewrite Hsize.
  destruct (Nat.eqb_spec k 0) as [->|Hk].
  - rewrite Nat.mul_0_r. simpl andb. cbv iota. unfold ret. f_equal. f_equal.
    replace (0 - (0 * chunks - 0)) with 0 by lia.
    rewrite <- replicate_S_end. replace (S (chunks - 1)) with chunks by lia.
    rewrite split_with_sizes_zeros. symmetry. apply narrow_nothing.
  - simpl andb. cbv iota. unfold ret, tensor_split. f_equal. f_equal.
    rewrite Hlen.
    assert (Hn : (chunks * k + k - 1) / k = chunks).
    { replace (chunks * k + k - 1) with (chunks * k + (k - 1)) by lia.
      rewrite Nat.div_add_l by lia. rewrite Nat.div_small by lia. lia. }
    rewrite Hn. replace (Nat.max chunks 1) with chunks by lia.
    replace (k - (k * chunks - chunks * k)) with k by lia.
    apply map_ext. intros i. destruct (i <? chunks - 1); reflexivity.
Qed.

Lemma narrow_concat (subs : list (list A)) (k : nat) :
  Forall (fun c => length c = k) subs ->
  map (fun i => narrow (concat subs) (i * k) k) (seq 0 (length subs)) = subs.
Proof.
  induction 1 as [|c rest Hc Hrest IH]; [reflexivity|].
  cbn [length seq map concat]. f_equal.
  - unfold narrow. simpl. rewrite drop_0. apply take_app_length'. symmetry. exact Hc.
  - rewrite <- seq_shift, map_map. rewrite <- IH at 2.
    apply map_ext. intros i. unfold narrow. f_equal.
    replace (S i * k) with (k + i * k) by lia.
    apply drop_app_add'. symmetry. exact Hc.
Qed.

Lemma length_narrow (t : list A) (i k n : nat) :
  length t = n * k -> i < n -> length (narrow t (i * k) k) = k.
Proof.
  intros Hlen Hi. unfold narrow. rewrite length_take, length_drop, Hlen. nia.
Qed.

Lemma chunks_shape (t : list A) (chunks k : nat) :
  length t = chunks * k ->
  length (map (fun i => narrow t (i * k) k) (seq 0 chunks)) = chunks
  /\ Forall (fun c => length c = k) (map (fun i => narrow t (i * k) k) (seq 0 chunks)).
Proof.
  intros Hlen. split.
  - rewrite length_map, length_seq. reflexivity.
  - apply Forall_forall. intros c Hin. apply list_elem_of_In, in_map_iff in Hin.
    destruct Hin as (i & <- & Hi). apply in_seq in Hi.
    apply (length_narrow t i k chunks Hlen). lia.
Qed.

End Chunk.


(** *** The store *)

Section Train.
Context `{Torch}.

Lemma add_events_nil (s : store) : add_events s [] = s.
Proof. destruct s. unfold add_events. simpl. rewrite app_nil_r. reflexivity. Qed.

Lemma add_events_app (s : store) (a b : list event) :
  add_events (add_events s a) b = add_events s (a ++ b).
Proof. unfold add_events. simpl. rewrite app_assoc. reflexivity. Qed.

Lemma index_in_range {St A} (t : list (list A)) (i : nat) (s : St) :
  i < length t -> index t i s = (Ok (nth i t []), s).
Proof.
  intros Hi. unfold index. rewrite nth_lookup.
  destruct (lookup_lt_is_Some_2 t i Hi) as [c ->]. reflexivity.
Qed.

(** *** The losses of one iteration *)

Lemma fold_left_map {A B C} (f : A -> B -> A) (g : C -> B) (l : list C) (a : A) :
  fold_left f (map g l) a = fold_left (fun a x => f a (g x)) l a.
Proof. revert a. induction l as [|x l IH]; intros a; simpl; [reflexivity | apply IH]. Qed.

Lemma fold_left_flat_map {A B C} (f : A -> B -> A) (g : C -> list B) (l : list C) (a : A) :
  fold_left f (flat_map g l) a = fold_left (fun a x => fold_left f (g x) a) l a.
Proof.
  revert a. induction l as [|x l IH]; intros a; simpl; [reflexivity|].
  rewrite fold_left_app. apply IH.
Qed.

Lemma fold_left_triple {A B C D} (f : A -> D -> A) (g : B -> D -> B) (h : C -> D -> C)
    (l : list D) (a : A) (b : B) (c : C) :
  fold_left (fun '(a, b, c) x => (f a x, g b x, h c x)) l (a, b, c)
  = (fold_left f l a, fold_left g l b, fold_left h l c).
Proof.
  revert a b c. induction l as [|x l IH]; intros a b c; simpl; [reflexivity | apply IH].
Qed.

Lemma plus_tensor_is_tensor (terms : list Scalar) (t : Scalar) :
  exists u, fold_left plus_tensor terms (PyTensor t) = PyTensor u.
Proof.
  revert t. induction terms as [|x terms IH]; intros t; simpl; [eauto|]. apply IH.
Qed.

Lemma py_sum_is_tensor (terms : list Scalar) :
  terms <> [] -> exists u, py_sum terms = PyTensor u.
Proof.
  destruct terms as [|x terms]; [congruence|]. intros _.
  unfold py_sum. simpl. apply (plus_tensor_is_tensor terms).
Qed.

Lemma alignment_fold (f_all : list (list Feature)) (i : nat) (js : list nat)
    (loss_penalty : pyval) (s : store) :
  i < length f_all -> Forall (fun j => j < length f_all) js ->
  foldM (fun loss_penalty domain_j =>
           (let* f_i := index f_all i in
            let* f_j := index f_all domain_j in
            emit (Alignment i domain_j) ;;
            ret (py_add loss_penalty (PyTensor (correlation_alignment_loss f_i f_j))))%py)
        js loss_penalty s
  = (Ok (fold_left (fun a j => plus_tensor a
                      (correlation_alignment_loss (nth i f_all []) (nth j f_all [])))
                   js loss_penalty),
     add_events s (map (Alignment i) js)).
Proof.
  intros Hi Hjs. revert loss_penalty s.
  induction Hjs as [|j js Hj Hjs IH]; intros loss_penalty s; simpl.
  - unfold ret. rewrite add_events_nil. reflexivity.
  - unfold bind at 1. unfold bind at 1. rewrite (index_in_range _ _ _ Hi).
    unfold bind at 1. rewrite (index_in_range _ _ _ Hj).
    unfold bind at 1. unfold emit, modify, ret at 1.
    rewrite IH. unfold add_events at 2. simpl.
    unfold add_events. simpl. rewrite <- app_assoc. reflexivity.
Qed.

Lemma fold_left_agree {A B} (f g : A -> B -> A) (l : list B) (a : A) :
  (forall a x, f a x = g a x) -> fold_left f l a = fold_left g l a.
Proof.
  intros Hfg. revert a. induction l as [|x l IH]; intros a; simpl; [reflexivity|].
  rewrite Hfg. apply IH.
Qed.

Lemma range_below (lo hi : nat) : Forall (fun i => i < hi) (range lo hi).
Proof.
  apply Forall_forall. intros i Hi. apply list_elem_of_In, in_seq in Hi. lia.
Qed.

Lemma domain_fold (y_all : list (list Logit)) (f_all : list (list Feature))
    (labels_all : list (list Label)) (num_domains : nat) (domains : list nat)
    (loss_ce loss_penalty cls_acc : pyval) (s : store) :
  length y_all = num_domains -> length f_all = num_domains ->
  length labels_all = num_domains ->
  Forall (fun i => i < num_domains) domains ->
  foldM (domain_step y_all f_all labels_all num_domains) domains
        (loss_ce, loss_penalty, cls_acc) s
  = (Ok (fold_left (fun a i => plus_tensor a
                      (cross_entropy (nth i y_all []) (nth i labels_all [])))
                   domains loss_ce,
         fold_left (fun a i =>
                      fold_left (fun a j => plus_tensor a
                                   (correlation_alignment_loss (nth i f_all []) (nth j f_all [])))
                                (range (i + 1) num_domains) a)
                   domains loss_penalty,
         fold_left (fun a i => plus_tensor a
                      (tensor_div_number (accuracy (nth i y_all []) (nth i labels_all []))
                                         (inject_Z (Z.of_nat num_domains))))
                   domains cls_acc),
     add_events s (flat_map (fun i => CrossEntropy i
                                        :: map (Alignment i) (range (i + 1) num_domains))
                            domains)).
Proof.
  intros Hy Hf Hl Hdom. revert loss_ce loss_penalty cls_acc s.
  induction Hdom as [|i domains Hi Hdom IH]; intros loss_ce loss_penalty cls_acc s.
  - simpl. unfold ret. rewrite add_events_nil. reflexivity.
  - cbn [foldM]. unfold bind at 1. unfold domain_step at 1.
    unfold bind at 1. rewrite index_in_range by lia.
    unfold bind at 1. rewrite index_in_range by lia.
    unfold bind at 1. unfold emit, modify. cbn [py_truediv].
    unfold bind at 1. unfold ret at 1.
    unfold bind at 1. unfold alignment_row.
    rewrite alignment_fold; [|lia|rewrite Hf; apply range_below].
    unfold ret at 1. rewrite IH. cbn [fold_left flat_map]. f_equal.
    unfold add_events. simpl. rewrite <- !app_assoc. reflexivity.
Qed.

Lemma compute_losses_sums (y_all : list (list Logit)) (f_all : list (list Feature))
    (labels_all : list (list Label)) (num_domains : nat) (args : Args) (s : store) :
  length y_all = num_domains -> length f_all = num_domains ->
  length labels_all = num_domains ->
  compute_losses y_all f_all labels_all num_domains args s
  = (let* loss_ce := py_truediv (py_sum (classification_terms y_all labels_all num_domains))
                                (PyInt (Z.of_nat num_domains)) in
     let* pair_count := py_truediv
                          (PyInt (Z.of_nat num_domains * (Z.of_nat num_domains - 1)))
                          (PyInt 2) in
     let* loss_penalty := py_truediv (py_sum (alignment_terms f_all num_domains))
                                     pair_count in
     ret (loss_ce, loss_penalty, py_sum (accuracy_terms y_all labels_all num_domains),
          py_add loss_ce (py_mul loss_penalty (PyFloat (trade_off args)))))%py
    (add_events s (loss_events num_domains)).
Proof.
  intros Hy Hf Hl. unfold compute_losses. unfold bind at 1.
  rewrite (domain_fold _ _ _ _ _ _ _ _ _ Hy Hf Hl (range_below 0 num_domains)).
  unfold py_sum, classification_terms, accuracy_terms, alignment_terms, domain_pairs.
  rewrite !fold_left_map, fold_left_flat_map.
  rewrite (fold_left_agree
             (fun a i => fold_left _ (map (fun j => (i, j)) (range (i + 1) num_domains)) a)
             (fun a i => fold_left (fun a j => plus_tensor a
                           (correlation_alignment_loss (nth i f_all []) (nth j f_all [])))
                         (range (i + 1) num_domains) a)).
  2:{ intros a i. rewrite fold_left_map. reflexivity. }
  reflexivity.
Qed.

(** *** Counting the pairs *)


Lemma length_pairs_from (n a : nat) :
  2 * length (flat_map (fun i => map (fun j => (i, j)) (range (i + 1) (a + n))) (seq a n))
  = n * (n - 1).
Proof.
  revert a. induction n as [|n IH]; intros a; [reflexivity|].
  cbn [seq flat_map]. rewrite length_app, length_map. unfold range at 1.
  rewrite length_seq. replace (a + S n) with (S a + n) by lia.
  specialize (IH (S a)). nia.
Qed.








(** *** One iteration *)

Lemma terms_nonempty {A} (f : nat -> A) (n : nat) : 0 < n -> map f (range 0 n) <> [].
Proof.
  intros Hn Hnil. apply (f_equal length) in Hnil.
  rewrite length_map in Hnil. unfold range in Hnil. rewrite length_seq in Hnil.
  simpl in Hnil. lia.
Qed.

Lemma alignment_terms_nonempty (f_all : list (list Feature)) (num_domains : nat) :
  2 <= num_domains -> alignment_terms f_all num_domains <> [].
Proof.
  intros Hn Hnil. apply (f_equal length) in Hnil.
  unfold alignment_terms in Hnil. rewrite length_map in Hnil.
  pose proof (length_pairs_from num_domains 0) as Hlen. simpl Nat.add in Hlen.
  unfold domain_pairs, range at 2 in Hnil. rewrite Nat.sub_0_r in Hnil.
  rewrite Hnil in Hlen. simpl in Hlen. nia.
Qed.

(** With at least two domains all three sums are tensors and nothing raises. *)
Lemma compute_losses_ok (y_all : list (list Logit)) (f_all : list (list Feature))
    (labels_all : list (list Label)) (num_domains : nat) (args : Args) (s : store) :
  2 <= num_domains ->
  length y_all = num_domains -> length f_all = num_domains ->
  length labels_all = num_domains ->
  exists sum_ce sum_penalty cls_acc,
    py_sum (classification_terms y_all labels_all num_domains) = PyTensor sum_ce
    /\ py_sum (alignment_terms f_all num_domains) = PyTensor sum_penalty
    /\ py_sum (accuracy_terms y_all labels_all num_domains) = PyTensor cls_acc
    /\ let loss_ce := tensor_div_number sum_ce (inject_Z (Z.of_nat num_domains)) in
       let loss_penalty :=
         tensor_div_number sum_penalty
           (inject_Z (Z.of_nat num_domains * (Z.of_nat num_domains - 1)) / inject_Z 2) in
       compute_losses y_all f_all labels_all num_domains args s
       = (Ok (PyTensor loss_ce, PyTensor loss_penalty, PyTensor cls_acc,
              PyTensor (tensor_add loss_ce
                          (tensor_mul_number loss_penalty (trade_off args)))),
          add_events s (loss_events num_domains)).
Proof.
  intros Hn Hy Hf Hl.
  destruct (py_sum_is_tensor (classification_terms y_all labels_all num_domains))
    as [sum_ce Hce]; [apply terms_nonempty; lia|].
  destruct (py_sum_is_tensor (alignment_terms f_all num_domains))
    as [sum_penalty Hpen]; [apply alignment_terms_nonempty; exact Hn|].
  destruct (py_sum_is_tensor (accuracy_terms y_all labels_all num_domains))
    as [cls_acc Hacc]; [apply terms_nonempty; lia|].
  exists sum_ce, sum_penalty, cls_acc.
  split; [exact Hce|]. split; [exact Hpen|]. split; [exact Hacc|].
  cbv zeta. rewrite (compute_losses_sums _ _ _ _ _ _ Hy Hf Hl), Hce, Hpen, Hacc.
  reflexivity.
Qed.

(** With one domain the penalty is still the int 0 when it is divided by
    the pair count 0.0. *)
Lemma compute_losses_single (y_all : list (list Logit)) (f_all : list (list Feature))
    (labels_all : list (list Label)) (args : Args) (s : store) :
  length y_all = 1 -> length f_all = 1 -> length labels_all = 1 ->
  compute_losses y_all f_all labels_all 1 args s
  = (Raise ZeroDivisionError, add_events s [CrossEntropy 0]).
Proof.
  intros Hy Hf Hl. rewrite (compute_losses_sums _ _ _ _ _ _ Hy Hf Hl). reflexivity.
Qed.

Lemma separate_domains_even {St} (y_all : list Logit) (f_all : list Feature)
    (labels_all : list Label) (num_domains k : nat) (s : St) :
  0 < num_domains ->
  length y_all = num_domains * k -> length f_all = num_domains * k ->
  length labels_all = num_domains * k ->
  separate_domains y_all f_all labels_all num_domains s
  = (Ok (map (fun i => narrow y_all (i * k) k) (seq 0 num_domains),
         map (fun i => narrow f_all (i * k) k) (seq 0 num_domains),
         map (fun i => narrow labels_all (i * k) k) (seq 0 num_domains)), s).
Proof.
  intros Hpos Hy Hf Hl. unfold separate_domains, bind.
  rewrite (tensor_chunk_even y_all _ k s Hpos Hy).
  rewrite (tensor_chunk_even f_all _ k s Hpos Hf).
  rewrite (tensor_chunk_even labels_all _ k s Hpos Hl).
  reflexivity.
Qed.

Lemma train_iteration_ok (num_domains k : nat) (args : Args) (s : store) :
  2 <= num_domains -> batches_of (num_domains * k) ->
  exists t, train_iteration num_domains args s
            = (Ok tt, add_events (set_ts s t) (iteration_events num_domains)).
Proof.
  intros Hn [Hbatch Hmodel]. unfold train_iteration.
  unfold bind at 1. unfold on_ts_get at 1.
  specialize (Hbatch (ts s)).
  destruct (next_batch (ts s)) as [[x_all labels_all] t1]. simpl in Hbatch.
  destruct Hbatch as [Hx Hlabels].
  unfold bind at 1. unfold emit at 1, modify. unfold bind at 1. unfold on_ts_get at 1.
  cbn [ts files trace].
  specialize (Hmodel x_all t1).
  destruct (model_call x_all t1) as [[y_all f_all] t2]. simpl in Hmodel.
  destruct Hmodel as [Hy Hf]. rewrite Hx in Hy, Hf.
  unfold bind at 1. unfold emit at 1, modify. cbn [ts files trace].
  unfold bind at 1.
  rewrite (separate_domains_even y_all f_all labels_all num_domains k _ ltac:(lia) Hy Hf Hlabels).
  unfold bind at 1.
  destruct (chunks_shape y_all num_domains k Hy) as [Hly _].
  destruct (chunks_shape f_all num_domains k Hf) as [Hlf _].
  destruct (chunks_shape labels_all num_domains k Hlabels) as [Hll _].
  match goal with
  | |- context [compute_losses ?y ?f ?l num_domains args ?s0] =>
      destruct (compute_losses_ok y f l num_domains args s0 Hn Hly Hlf Hll)
        as (sum_ce & sum_penalty & cls_acc & _ & _ & _ & Hrun)
  end.
  cbv zeta in Hrun. rewrite Hrun.
  eexists. unfold bind, as_tensor, ret, on_ts, emit, modify, add_events, set_ts.
  cbn [ts files trace]. unfold iteration_events, update_events.
  rewrite <- !app_assoc. reflexivity.
Qed.

Lemma tensor_chunk_one {St A} (t : list A) (s : St) :
  tensor_chunk t 1 s = (Ok [t], s).
Proof.
  rewrite (tensor_chunk_even t 1 (length t) s) by lia.
  simpl. unfold narrow. rewrite drop_0, take_ge by lia. reflexivity.
Qed.

Lemma train_iteration_single (args : Args) (s : store) :
  exists t, train_iteration 1 args s
            = (Raise ZeroDivisionError,
               add_events (set_ts s t) [NextBatch; Forward; CrossEntropy 0]).
Proof.
  unfold train_iteration.
  unfold bind at 1. unfold on_ts_get at 1.
  destruct (next_batch (ts s)) as [[x_all labels_all] t1].
  unfold bind at 1. unfold emit at 1, modify. unfold bind at 1. unfold on_ts_get at 1.
  cbn [ts files trace].
  destruct (model_call x_all t1) as [[y_all f_all] t2].
  unfold bind at 1. unfold emit at 1, modify. cbn [ts files trace].
  unfold bind at 1. unfold separate_domains. unfold bind at 1 2 3.
  rewrite !tensor_chunk_one. unfold ret at 1.
  unfold bind at 1. rewrite compute_losses_single by reflexivity.
  exists t2. unfold add_events, set_ts. cbn [ts files trace].
  rewrite <- !app_assoc. reflexivity.
Qed.

(** *** One epoch of training *)

Lemma train_single (epoch : nat) (args : Args) (s : store) :
  1 <= iters_per_epoch args ->
  exists t, train 1 epoch args s
            = (Raise ZeroDivisionError,
               add_events (set_ts s t) [NextBatch; Forward; CrossEntropy 0]).
Proof.
  intros Hiters. unfold train. unfold bind, on_ts at 1, modify.
  unfold range. rewrite Nat.sub_0_r.
  destruct (iters_per_epoch args) as [|n]; [lia|].
  unfold for_. cbn [seq foldM]. unfold bind.
  destruct (train_iteration_single args
              {| ts := model_train (ts s); files := files s; trace := trace s |})
    as [t ->].
  exists t. reflexivity.
Qed.

(** *** Chunks of an evenly divisible batch *)

Lemma concat_chunks {A} (t : list A) (n k : nat) :
  concat (map (fun i => narrow t (i * k) k) (seq 0 n)) = take (n * k) t.
Proof.
  induction n as [|n IH]; [simpl; rewrite take_0; reflexivity|].
  rewrite seq_S, map_app, concat_app, IH. simpl. rewrite app_nil_r.
  unfold narrow. rewrite take_take_drop. f_equal. lia.
Qed.

Lemma lookup_chunks {A} (t : list A) (n k i : nat) :
  i < n -> map (fun i => narrow t (i * k) k) (seq 0 n) !! i = Some (narrow t (i * k) k).
Proof.
  intros Hi. change (map ?f ?l) with (f <$> l).
  rewrite list_lookup_fmap, lookup_seq_lt by exact Hi. reflexivity.
Qed.

(** *** Update events *)

Lemma filter_none {A} (p : A -> bool) (l : list A) :
  Forall (fun x => p x = false) l -> List.filter p l = [].
Proof.
  induction 1 as [|x l Hx Hl IH]; [reflexivity|]. simpl. rewrite Hx. exact IH.
Qed.

Lemma loss_events_kind (num_domains : nat) :
  Forall (fun e => is_update e = false /\ is_epoch_event e = false
                   /\ is_target_event e = false)
         (loss_events num_domains).
Proof.
  unfold loss_events. induction (range 0 num_domains) as [|i l IH]; [constructor|].
  cbn [flat_map]. apply Forall_app. split; [|exact IH].
  constructor; [repeat split|].
  induction (range (i + 1) num_domains) as [|j js IHj]; constructor;
    [repeat split | exact IHj].
Qed.

Lemma filter_update_iteration (num_domains : nat) :
  List.filter is_update (iteration_events num_domains) = update_events.
Proof.
  unfold iteration_events. rewrite !List.filter_app.
  rewrite (filter_none is_update (loss_events num_domains)).
  - reflexivity.
  - eapply Forall_impl; [apply loss_events_kind|]. intros e He. apply He.
Qed.

Lemma filter_update_iterations (num_domains n : nat) :
  List.filter is_update (concat (replicate n (iteration_events num_domains)))
  = concat (replicate n update_events).
Proof.
  induction n as [|n IH]; [reflexivity|].
  cbn [replicate concat]. rewrite List.filter_app, filter_update_iteration, IH. reflexivity.
Qed.

Lemma count_event_iteration (e : event) (num_domains : nat) :
  count_event e (iteration_events num_domains) = count_event e update_events.
Proof.
  unfold count_event, iteration_events. rewrite !List.filter_app, !length_app.
  rewrite (filter_none (is_event e) (loss_events num_domains)).
  - destruct e; reflexivity.
  - eapply Forall_impl; [apply loss_events_kind|]. intros e' (He' & _ & _).
    destruct e, e'; try reflexivity; discriminate.
Qed.

Lemma count_event_iterations (e : event) (num_domains n : nat) :
  count_event e (concat (replicate n (iteration_events num_domains)))
  = n * count_event e update_events.
Proof.
  induction n as [|n IH]; [reflexivity|].
  cbn [replicate concat]. unfold count_event in *.
  rewrite List.filter_app, length_app, IH.
  fold (count_event e (iteration_events num_domains)).
  rewrite count_event_iteration. reflexivity.
Qed.

(** *** Properties of [train] *)


(** C5: when the batch size is a multiple of the domain count D, each of
    logits, features and labels is split into exactly D chunks of
    batch size / D rows; chunk i holds rows i*k .. (i+1)*k-1, so for a batch
    that is the concatenation of D per-domain sub-batches of equal size,
    chunk i of each of the three is the sub-batch of domain i. *)
Theorem chunks_follow_domain_order {St : Type}
    (y_all : list Logit) (f_all : list Feature) (labels_all : list Label)
    (num_domains batch_size : nat) (s : St) :
  0 < num_domains -> batch_size mod num_domains = 0 ->
  length y_all = batch_size -> length f_all = batch_size ->
  length labels_all = batch_size ->
  let k := batch_size / num_domains in
  exists ys fs ls,
    separate_domains y_all f_all labels_all num_domains s = (Ok (ys, fs, ls), s)
    /\ (length ys = num_domains /\ length fs = num_domains /\ length ls = num_domains)
    /\ (Forall (fun c => length c = k) ys /\ Forall (fun c => length c = k) fs
        /\ Forall (fun c => length c = k) ls)
    /\ (forall i, i < num_domains ->
          ys !! i = Some (narrow y_all (i * k) k)
          /\ fs !! i = Some (narrow f_all (i * k) k)
          /\ ls !! i = Some (narrow labels_all (i * k) k))
    /\ (concat ys = y_all /\ concat fs = f_all /\ concat ls = labels_all)
    /\ (forall y_sub f_sub l_sub,
          length y_sub = num_domains -> length f_sub = num_domains ->
          length l_sub = num_domains ->
          Forall (fun c => length c = k) y_sub -> Forall (fun c => length c = k) f_sub ->
          Forall (fun c => length c = k) l_sub ->
          concat y_sub = y_all -> concat f_sub = f_all -> concat l_sub = labels_all ->
          ys = y_sub /\ fs = f_sub /\ ls = l_sub).
Proof.
  intros Hpos Hmod Hy Hf Hl k.
  assert (Hb : batch_size = num_domains * k).
  { unfold k. apply Nat.Div0.div_exact. exact Hmod. }
  rewrite Hb in Hy, Hf, Hl.
  eexists _, _, _.
  split; [apply (separate_domains_even y_all f_all labels_all num_domains k s Hpos Hy Hf Hl)|].
  split; [repeat split; apply chunks_shape; assumption|].
  split; [repeat split; apply chunks_shape; assumption|].
  split; [intros i Hi; repeat split; apply lookup_chunks; exact Hi|].
  split.
  - rewrite !concat_chunks. repeat split; apply take_ge; lia.
  - intros y_sub f_sub l_sub Hny Hnf Hnl Hky Hkf Hkl <- <- <-.
    rewrite <- Hny at 1. rewrite <- Hnf at 1. rewrite <- Hnl.
    rewrite !narrow_concat by assumption. repeat split.
Qed.

(** C10: with a single source domain the pair count is 0 and every
    iteration raises ZeroDivisionError when the penalty is normalized, so an
    epoch with at least one iteration raises in its first iteration, before
    any gradient step. *)
Theorem single_domain_divides_by_zero (epoch : nat) (args : Args) (s : store) :
  1 <= iters_per_epoch args ->
  length (domain_pairs 1) = 0
  /\ (forall s0, (train_iteration 1 args s0).1 = Raise ZeroDivisionError)
  /\ exists s', train 1 epoch args s = (Raise ZeroDivisionError, s')
                /\ trace s' = trace s ++ [NextBatch; Forward; CrossEntropy 0]
                /\ files s' = files s.
Proof.
  intros Hiters. split; [reflexivity|]. split.
  - intros s0. destruct (train_iteration_single args s0) as [t ->]. reflexivity.
  - destruct (train_single epoch args s Hiters) as [t ->].
    eexists. split; [reflexivity|]. split; reflexivity.
Qed.

(** *** validate and the epoch loop *)

Lemma validate_batches (loader : list (list Image * list Label)) (m : Meter) (s : store) :
  foldM (fun top1 '(images, target) =>
           (let* (output, _) := read_ts (fun t => model_infer t images) in
            ret (meter_update top1 (item (accuracy output target)) (length images)))%py)
        loader m s
  = (Ok (fold_left (fun top1 batch =>
                      meter_update top1
                        (item (accuracy (model_infer (ts s) batch.1).1 batch.2))
                        (length batch.1)) loader m), s).
Proof.
  revert m. induction loader as [|[images target] loader IH]; intros m; [reflexivity|].
  cbn [foldM fold_left]. unfold bind at 1. unfold bind at 1. unfold read_ts at 1.
  cbn [fst snd]. destruct (model_infer (ts s) images) as [output features].
  unfold ret at 1. apply IH.
Qed.

Lemma validate_run (loader : list (list Image * list Label)) (s : store) :
  validate loader s
  = (Ok (top1_avg loader (model_eval (ts s))), set_ts s (model_eval (ts s))).
Proof.
  unfold validate, top1_avg. unfold bind at 1. unfold on_ts, modify.
  unfold bind. rewrite validate_batches. reflexivity.
Qed.

(** [a > b] on floats is the strict order of the rationals. *)
Lemma py_gt_spec (a b : Q) : py_gt a b = true <-> (b < a)%Q.
Proof.
  unfold py_gt. rewrite negb_true_iff. split.
  - intros Hle. apply Qnot_le_lt. intros Hab. apply Qle_bool_iff in Hab. congruence.
  - intros Hlt. destruct (Qle_bool a b) eqn:Hle; [|reflexivity].
    apply Qle_bool_iff in Hle. exfalso. exact (Qlt_not_le _ _ Hlt Hle).
Qed.

Lemma exceeds_all_spec (acc1 : Q) (earlier : list Q) :
  exceeds_all acc1 earlier = true
  <-> (0 < acc1)%Q /\ (forall a, a ∈ earlier -> (a < acc1)%Q).
Proof.
  unfold exceeds_all. rewrite forallb_forall. split.
  - intros Hall. split; [apply py_gt_spec, Hall; left; reflexivity|].
    intros a Ha. apply py_gt_spec, Hall. right. apply list_elem_of_In, Ha.
  - intros [H0 Hall] a [<- | Ha]; apply py_gt_spec; [exact H0|].
    apply Hall, list_elem_of_In, Ha.
Qed.

Lemma exceeds_all_snoc (acc1 a : Q) (earlier : list Q) :
  exceeds_all acc1 (earlier ++ [a]) = exceeds_all acc1 earlier && py_gt acc1 a.
Proof.
  unfold exceeds_all. rewrite app_comm_cons, forallb_app. simpl.
  rewrite andb_true_r. reflexivity.
Qed.

(** The local [best_val_acc1] is the running maximum: a new accuracy
    exceeds it exactly when it exceeds 0 and every earlier accuracy. *)
Lemma py_max_keeps_maximum (best acc1 : Q) (earlier : list Q) :
  (forall a, py_gt a best = exceeds_all a earlier) ->
  forall a, py_gt a (py_max acc1 best) = exceeds_all a (earlier ++ [acc1]).
Proof.
  intros Hinv a. rewrite exceeds_all_snoc, <- Hinv. unfold py_max.
  destruct (py_gt best acc1) eqn:Hcmp.
  - apply py_gt_spec in Hcmp.
    destruct (py_gt a best) eqn:Hab; [|reflexivity].
    apply py_gt_spec in Hab. symmetry. apply py_gt_spec.
    eapply Qlt_trans; eassumption.
  - destruct (py_gt a acc1) eqn:Haa; [|rewrite andb_false_r; reflexivity].
    rewrite andb_true_r. symmetry. apply py_gt_spec. apply py_gt_spec in Haa.
    eapply Qle_lt_trans; [|exact Haa].
    apply Qnot_lt_le. intros Hlt. apply py_gt_spec in Hlt. congruence.
Qed.

Lemma iteration_events_kind (num_domains n : nat) :
  Forall (fun e => is_epoch_event e = false /\ is_target_event e = false)
         (concat (replicate n (iteration_events num_domains))).
Proof.
  induction n as [|n IH]; [constructor|].
  cbn [replicate concat]. apply Forall_app. split; [|exact IH].
  unfold iteration_events. repeat constructor.
  apply Forall_app. split; [|repeat constructor].
  eapply Forall_impl; [apply loss_events_kind|]. intros e He. split; apply He.
Qed.

(** One pass through the body of the epoch loop, once training returned. *)
Lemma epoch_body_run (val_loader test_loader : list (list Image * list Label))
    (num_domains : nat) (args : Args) (best_val best_test : Q) (epoch : nat)
    (s s1 : store) :
  train num_domains epoch args s = (Ok tt, s1) ->
  let t := model_eval (ts s1) in
  let acc1 := top1_avg val_loader t in
  let acc_t := top1_avg test_loader (model_eval t) in
  epoch_body val_loader test_loader num_domains args (best_val, best_test) epoch s
  = (Ok (py_max acc1 best_val, py_max best_test acc_t),
     {| ts := model_eval t;
        files := if py_gt acc1 best_val
                 then <["best"%string := state_dict t]>
                        (<["latest"%string := state_dict t]> (files s1))
                 else <["latest"%string := state_dict t]> (files s1);
        trace := trace s1 ++ [SourceValidated acc1; SavedLatest (state_dict t)]
                   ++ (if py_gt acc1 best_val then [CopiedToBest] else [])
                   ++ [TargetValidated acc_t] |}).
Proof.
  intros Htrain t acc1 acc_t. unfold epoch_body.
  unfold bind at 1. rewrite Htrain.
  unfold bind at 1. rewrite validate_run. fold t. fold acc1.
  unfold bind at 1. unfold emit at 1, modify.
  unfold bind at 1. unfold read_ts at 1.
  unfold bind at 1. unfold on_files at 1, modify.
  unfold bind at 1. unfold emit at 1, modify.
  cbn [ts files trace set_ts].
  unfold bind at 1.
  destruct (py_gt acc1 best_val).
  - unfold bind at 1. unfold shutil_copy. unfold bind at 1. unfold torch_load.
    unfold bind at 1. unfold read_files at 1. cbn [files].
    rewrite lookup_insert_eq. unfold ret at 1. unfold on_files at 1, modify.
    unfold emit at 1, modify. cbn [ts files trace].
    unfold bind at 1. rewrite validate_run. unfold set_ts. cbn [ts files trace].
    unfold bind, emit, modify, ret. cbn [ts files trace].
    rewrite <- !app_assoc. reflexivity.
  - unfold ret at 1.
    unfold bind at 1. rewrite validate_run. unfold set_ts. cbn [ts files trace].
    unfold bind, emit, modify, ret. cbn [ts files trace].
    rewrite <- !app_assoc. reflexivity.
Qed.

Lemma filter_epoch_events_train (num_domains n : nat) (tr : list event) :
  List.filter is_epoch_event
    (tr ++ concat (replicate n (iteration_events num_domains)))
  = List.filter is_epoch_event tr.
Proof.
  rewrite List.filter_app, (filter_none is_epoch_event (concat _)), app_nil_r;
    [reflexivity|].
  eapply Forall_impl; [apply iteration_events_kind|]. intros e He. apply He.
Qed.

(** *** Runs that differ only in the target data *)

Lemma same_for_source_refl (s : store) : same_for_source s s.
Proof. repeat split. Qed.

Lemma pure_ret {A} (a : A) : pure (ret a).
Proof. exists (Ok a). reflexivity. Qed.

Lemma pure_raise {A} (e : exn) : pure (@raise store A e).
Proof. exists (Raise e). reflexivity. Qed.

Lemma pure_bind {A B} (c : M store A) (k : A -> M store B) :
  pure c -> (forall a, pure (k a)) -> pure (bind c k).
Proof.
  intros [r Hc] Hk. destruct r as [a|e].
  - destruct (Hk a) as [r' Hka]. exists r'. intros s. unfold bind.
    rewrite Hc. apply Hka.
  - exists (Raise e). intros s. unfold bind. rewrite Hc. reflexivity.
Qed.

Lemma pure_index {A} (t : list A) (i : nat) : pure (index t i).
Proof. unfold index. destruct (t !! i); [apply pure_ret | apply pure_raise]. Qed.

Lemma pure_number_div (x y : Q) : pure (number_div x y).
Proof. unfold number_div. destruct (Qeq_bool y 0); [apply pure_raise | apply pure_ret]. Qed.

Lemma pure_py_truediv (a b : pyval) : pure (py_truediv a b).
Proof.
  destruct a, b; simpl; try apply pure_number_div; apply pure_ret.
Qed.

Lemma pure_as_tensor (v : pyval) : pure (as_tensor v).
Proof. destruct v; simpl; try apply pure_raise; apply pure_ret. Qed.

Lemma pure_tensor_chunk {A} (t : list A) (chunks : nat) : pure (tensor_chunk t chunks).
Proof.
  unfold tensor_chunk. destruct (chunks =? 0); [apply pure_raise|].
  destruct (_ && _); apply pure_ret.
Qed.

Lemma pure_separate_domains (y_all : list Logit) (f_all : list Feature)
    (labels_all : list Label) (num_domains : nat) :
  pure (separate_domains y_all f_all labels_all num_domains).
Proof.
  unfold separate_domains.
  apply pure_bind; [apply pure_tensor_chunk | intros ys].
  apply pure_bind; [apply pure_tensor_chunk | intros fs].
  apply pure_bind; [apply pure_tensor_chunk | intros ls].
  apply pure_ret.
Qed.

Lemma related_pure {A} (c : M store A) : pure c -> related eq c c.
Proof.
  intros [r Hc] s1 s2 Hs. rewrite !Hc. destruct r; split; auto.
Qed.

Lemma related_ret {A B} (R : A -> B -> Prop) (a : A) (b : B) :
  R a b -> related R (ret a) (ret b).
Proof. intros HR s1 s2 Hs. simpl. split; assumption. Qed.

Lemma related_bind {A A' B B'} (R : A -> A' -> Prop) (R' : B -> B' -> Prop)
    (c1 : M store A) (c2 : M store A') (k1 : A -> M store B) (k2 : A' -> M store B') :
  related R c1 c2 -> (forall a a', R a a' -> related R' (k1 a) (k2 a')) ->
  related R' (bind c1 k1) (bind c2 k2).
Proof.
  intros Hc Hk s1 s2 Hs. unfold bind. specialize (Hc s1 s2 Hs).
  destruct (c1 s1) as [[a|e1] s1'], (c2 s2) as [[a'|e2] s2']; try contradiction.
  - destruct Hc as [HR Hs']. apply (Hk a a' HR s1' s2' Hs').
  - exact Hc.
Qed.

Lemma related_foldM {A B B'} (R : B -> B' -> Prop)
    (body1 : B -> A -> M store B) (body2 : B' -> A -> M store B') (l : list A) :
  (forall b b' x, R b b' -> related R (body1 b x) (body2 b' x)) ->
  forall b b', R b b' -> related R (foldM body1 l b) (foldM body2 l b').
Proof.
  intros Hbody. induction l as [|x l IH]; intros b b' HR.
  - apply related_ret, HR.
  - cbn [foldM]. eapply related_bind; [apply Hbody, HR | exact IH].
Qed.

Lemma related_modify (f : store -> store) :
  (forall s1 s2, same_for_source s1 s2 -> same_for_source (f s1) (f s2)) ->
  related eq (modify f) (modify f).
Proof. intros Hf s1 s2 Hs. simpl. split; [reflexivity | apply Hf, Hs]. Qed.

Lemma source_trace_app (a b : list event) :
  source_trace (a ++ b) = source_trace a ++ source_trace b.
Proof. apply List.filter_app. Qed.

Lemma related_emit (e : event) : related eq (emit e) (emit e).
Proof.
  apply related_modify. intros s1 s2 (Ht & Hf & Htr). repeat split; simpl; try assumption.
  rewrite !source_trace_app, Htr. reflexivity.
Qed.

(** The two runs record different target accuracies; the source view does
    not show them. *)
Lemma related_emit_target (a b : Q) :
  related eq (emit (TargetValidated a)) (emit (TargetValidated b)).
Proof.
  intros s1 s2 (Ht & Hf & Htr). simpl. split; [reflexivity|].
  repeat split; simpl; try assumption.
  rewrite !source_trace_app, Htr. reflexivity.
Qed.

Lemma related_on_ts (f : TState -> TState) : related eq (on_ts f) (on_ts f).
Proof.
  apply related_modify. intros s1 s2 (Ht & Hf & Htr). repeat split; simpl; try assumption.
  rewrite Ht. reflexivity.
Qed.

Lemma related_on_files (f : gmap string Checkpoint -> gmap string Checkpoint) :
  related eq (on_files f) (on_files f).
Proof.
  apply related_modify. intros s1 s2 (Ht & Hf & Htr). repeat split; simpl; try assumption.
  rewrite Hf. reflexivity.
Qed.

Lemma related_on_ts_get {A} (f : TState -> A * TState) :
  related eq (on_ts_get f) (on_ts_get f).
Proof.
  intros s1 s2 (Ht & Hf & Htr). unfold on_ts_get. rewrite Ht.
  destruct (f (ts s2)) as [a t']. split; [reflexivity|]. repeat split; assumption.
Qed.

Lemma related_read_ts {A} (f : TState -> A) : related eq (read_ts f) (read_ts f).
Proof.
  intros s1 s2 Hs. unfold read_ts. destruct Hs as (Ht & Hf & Htr) eqn:E. rewrite Ht.
  split; [reflexivity | exact Hs].
Qed.

Lemma related_read_files {A} (f : gmap string Checkpoint -> A) :
  related eq (read_files f) (read_files f).
Proof.
  intros s1 s2 Hs. unfold read_files. destruct Hs as (Ht & Hf & Htr) eqn:E. rewrite Hf.
  split; [reflexivity | exact Hs].
Qed.

Ltac related_step :=
  first
    [ apply related_emit
    | apply related_on_ts
    | apply related_on_files
    | apply related_on_ts_get
    | apply related_read_ts
    | apply related_read_files
    | apply related_ret; reflexivity
    | apply related_pure;
      first [ apply pure_index | apply pure_py_truediv | apply pure_as_tensor
            | apply pure_separate_domains | apply pure_raise ]
    | eapply (related_bind eq);
      [ | let a := fresh "a" in
          intros a ? <-;
          repeat match goal with
                 | |- related _ (match ?x with _ => _ end) _ =>
                     is_var x; destruct x
                 end ] ].

Lemma related_alignment_row (f_all : list (list Feature)) (num_domains i : nat)
    (loss_penalty : pyval) :
  related eq (alignment_row f_all num_domains i loss_penalty)
             (alignment_row f_all num_domains i loss_penalty).
Proof.
  unfold alignment_row. apply related_foldM; [|reflexivity].
  intros b b' j <-. repeat related_step.
Qed.

Lemma related_domain_step (y_all : list (list Logit)) (f_all : list (list Feature))
    (labels_all : list (list Label)) (num_domains : nat)
    (locals : pyval * pyval * pyval) (i : nat) :
  related eq (domain_step y_all f_all labels_all num_domains locals i)
             (domain_step y_all f_all labels_all num_domains locals i).
Proof.
  unfold domain_step. destruct locals as [[loss_ce loss_penalty] cls_acc].
  do 8 (try related_step). all: try apply related_alignment_row. all: repeat related_step.
Qed.

Lemma related_compute_losses (y_all : list (list Logit)) (f_all : list (list Feature))
    (labels_all : list (list Label)) (num_domains : nat) (args : Args) :
  related eq (compute_losses y_all f_all labels_all num_domains args)
             (compute_losses y_all f_all labels_all num_domains args).
Proof.
  unfold compute_losses.
  eapply related_bind.
  - apply (related_foldM eq); [|reflexivity].
    intros b b' i <-. apply related_domain_step.
  - intros [[loss_ce loss_penalty] cls_acc] ? <-. repeat related_step.
Qed.

Lemma related_train_iteration (num_domains : nat) (args : Args) :
  related eq (train_iteration num_domains args) (train_iteration num_domains args).
Proof.
  unfold train_iteration.
  eapply (related_bind eq); [apply related_on_ts_get|].
  intros [x_all labels_all] ? <-.
  eapply (related_bind eq); [apply related_emit|]. intros _ _ _.
  eapply (related_bind eq); [apply related_on_ts_get|].
  intros [y_all f_all] ? <-.
  eapply (related_bind eq); [apply related_emit|]. intros _ _ _.
  eapply (related_bind eq); [apply related_pure, pure_separate_domains|].
  intros [[ys fs] ls] ? <-.
  eapply (related_bind eq); [apply related_compute_losses|].
  intros [[[loss_ce loss_penalty] cls_acc] loss] ? <-.
  repeat related_step.
Qed.

Lemma related_train (num_domains epoch : nat) (args : Args) :
  related eq (train num_domains epoch args) (train num_domains epoch args).
Proof.
  unfold train. eapply related_bind; [apply related_on_ts|]. intros _ _ _.
  unfold for_. apply (related_foldM eq); [|reflexivity].
  intros [] [] i _. apply related_train_iteration.
Qed.

Lemma related_validate_any (loader1 loader2 : list (list Image * list Label)) :
  related (fun _ _ => True) (validate loader1) (validate loader2).
Proof.
  intros s1 s2 (Ht & Hf & Htr). rewrite !validate_run.
  split; [exact I|]. repeat split; simpl; congruence.
Qed.

Lemma related_validate (loader : list (list Image * list Label)) :
  related eq (validate loader) (validate loader).
Proof.
  intros s1 s2 (Ht & Hf & Htr). rewrite !validate_run, Ht.
  split; [reflexivity|]. repeat split; simpl; congruence.
Qed.

Lemma related_shutil_copy (src dst : string) :
  related eq (shutil_copy src dst) (shutil_copy src dst).
Proof.
  unfold shutil_copy, torch_load.
  eapply (related_bind eq).
  - eapply (related_bind eq); [apply related_read_files|].
    intros found ? <-. destruct found; [apply related_ret; reflexivity|].
    apply related_pure, pure_raise.
  - intros c ? <-. apply related_on_files.
Qed.

Lemma related_epoch_body (val_loader test1 test2 : list (list Image * list Label))
    (num_domains : nat) (args : Args) (best best' : Q * Q) (epoch : nat) :
  best.1 = best'.1 ->
  related (fun b b' => b.1 = b'.1)
          (epoch_body val_loader test1 num_domains args best epoch)
          (epoch_body val_loader test2 num_domains args best' epoch).
Proof.
  destruct best as [best_val best_test], best' as [best_val' best_test'].
  simpl. intros <-. unfold epoch_body.
  eapply (related_bind eq); [apply related_train|]. intros _ _ _.
  eapply (related_bind eq); [apply related_validate|]. intros acc1 ? <-.
  eapply (related_bind eq); [apply related_emit|]. intros _ _ _.
  eapply (related_bind eq); [apply related_read_ts|]. intros checkpoint ? <-.
  eapply (related_bind eq); [apply related_on_files|]. intros _ _ _.
  eapply (related_bind eq); [apply related_emit|]. intros _ _ _.
  eapply (related_bind eq).
  { destruct (py_gt acc1 best_val).
    - eapply (related_bind eq); [apply related_shutil_copy|]. intros _ _ _.
      apply related_emit.
    - apply related_ret. reflexivity. }
  intros _ _ _.
  eapply related_bind; [apply related_validate_any|]. intros acc_t acc_t' _.
  eapply (related_bind eq); [apply related_emit_target|]. intros _ _ _.
  apply related_ret. reflexivity.
Qed.


End Train.

End CoralFacts.

(** ** resnet.py: the factory as a whole *)

Module ResNetMore.
Import MixStyleResNet ResNetFacts.

Section More.
Context `{Blocks}.

(** The factory, one case per way it can end. *)
Lemma factory_cases (arch : string) (block : Block) (layers : list nat)
    (pretrained progress : bool) (mix_layers : option (list string)) (p a : Q)
    (rc : resnet_class) (kwargs : Kwargs) (w : World) :
  let names := match mix_layers with None => [] | Some l => l end in
  let m := {| base_class := rc; mix_p := p; mix_alpha := a; apply_layers := names;
              state_dict := (super_init rc block layers kwargs w).1 |} in
  let w1 := (super_init rc block layers kwargs w).2 in
  _resnet_with_mix_style arch block layers pretrained progress mix_layers p a rc kwargs w
  = if bool_decide (rc ∈ available_resnet_class) then
      if forallb (fun layer => bool_decide (layer ∈ valid_choices)) names then
        if pretrained then
          match model_urls !! arch with
          | Some url =>
              match load_state_dict_from_url url progress w1 with
              | (Some d, w2) => load_state_dict m (restrict_to (state_dict m) d) false w2
              | (None, w2) => (Raise OSError, w2)
              end
          | None => (Raise KeyError, w1)
          end
        else (Ok m, w1)
      else (Raise AssertionError, w1)
    else (Raise AssertionError, w).
Proof.
  intros names m w1. unfold _resnet_with_mix_style. fold names.
  unfold bind at 1, assert.
  destruct (bool_decide (rc ∈ available_resnet_class)); [|reflexivity].
  unfold ret at 1. unfold bind at 1. rewrite init_result. fold m w1.
  destruct (forallb _ names); [|reflexivity].
  destruct pretrained; [|reflexivity].
  unfold bind, raise, ret. simpl.
  destruct (model_urls !! arch); [|reflexivity].
  destruct (load_state_dict_from_url _ _ _) as [[d|] w2]; reflexivity.
Qed.

(** [load_state_dict] returns the module it was called on, with new tensors. *)
Lemma load_state_dict_attributes (self m' : model) (sd : gmap string Tensor)
    (strict : bool) (w w' : World) :
  load_state_dict self sd strict w = (Ok m', w') ->
  base_class m' = base_class self /\ apply_layers m' = apply_layers self
  /\ mix_p m' = mix_p self /\ mix_alpha m' = mix_alpha self
  /\ state_dict m' = copy_params (state_dict self) sd /\ w' = w.
Proof.
  unfold load_state_dict. destruct (bool_decide (index_errors _ _ = ∅)); [|discriminate].
  destruct (bool_decide (size_mismatch _ _ = ∅)); [|discriminate].
  destruct (strict && _); [discriminate|].
  unfold ret. intros Heq. injection Heq as <- <-. repeat split.
Qed.

Lemma mixing_calls_at_most_3 (rc : resnet_class) (l : list string) :
  length (filter (fun m => m = mixStyleModule) (forward_calls rc l)) <= 3.
Proof.
  unfold forward_calls, mix_after.
  destruct (bool_decide (rc <> ReidResNet));
    destruct (bool_decide ("layer1"%string ∈ l));
    destruct (bool_decide ("layer2"%string ∈ l));
    destruct (bool_decide ("layer3"%string ∈ l)); vm_compute; lia.
Qed.

(** X1: a model the factory returns has a supported class, exactly the
    insertion names and hyperparameters it was given, and only valid names;
    so its forward pass is the stage sequence with the transform after the
    named stages, with at most three mixing calls. *)
Theorem factory_returns_validated_model
    (arch : string) (block : Block) (layers : list nat) (pretrained progress : bool)
    (mix_layers : option (list string)) (p a : Q) (rc : resnet_class)
    (kwargs : Kwargs) (w w' : World) (m : model) :
  _resnet_with_mix_style arch block layers pretrained progress mix_layers p a rc kwargs w
    = (Ok m, w') ->
  let names := match mix_layers with None => [] | Some l => l end in
  let calls := stages_with_mixing names (backbone_stages rc) in
  base_class m = rc /\ rc ∈ available_resnet_class
  /\ apply_layers m = names /\ (forall layer, layer ∈ names -> layer ∈ valid_choices)
  /\ mix_p m = p /\ mix_alpha m = a
  /\ (forall x w0 log,
        forward m x (w0, log)
        = (Ok (run_calls m calls x w0).1, ((run_calls m calls x w0).2, log ++ calls)))
  /\ length (filter (fun c => c = mixStyleModule) calls) <= 3.
Proof.
  intros Hrun names calls. rewrite factory_cases in Hrun. fold names in Hrun.
  destruct (bool_decide (rc ∈ available_resnet_class)) eqn:Hrc; [|discriminate].
  apply bool_decide_eq_true in Hrc.
  destruct (forallb _ names) eqn:Hall'; [|discriminate].
  pose proof (proj1 (forallb_valid names) Hall') as Hall.
  assert (Hattr : base_class m = rc /\ apply_layers m = names
                  /\ mix_p m = p /\ mix_alpha m = a).
  { destruct pretrained.
    - destruct (model_urls !! arch); [|discriminate].
      destruct (load_state_dict_from_url _ _ _) as [[d|] w2]; [|discriminate].
      apply load_state_dict_attributes in Hrun as (Hb & Hl & Hp & Ha & _).
      repeat split; assumption.
    - injection Hrun as <- _. repeat split. }
  destruct Hattr as (Hb & Hl & Hp & Ha).
  split; [exact Hb|]. split; [exact Hrc|]. split; [exact Hl|]. split; [exact Hall|].
  split; [exact Hp|]. split; [exact Ha|].
  subst calls. rewrite <- (forward_calls_spec rc names Hall).
  split; [|apply mixing_calls_at_most_3].
  intros x w0 log. rewrite forward_trace, Hb, Hl. reflexivity.
Qed.

(** X2: the forward pass looks at the insertion names only through
    membership: two models of the same class whose name lists have the same
    elements make the same calls, so a repeated name adds no mixing call;
    and whatever the list holds, there are at most three mixing calls, none
    of them after layer4. *)
Theorem forward_reads_names_as_a_set (self self' : model) (x : Feat) (w : World)
    (log : list module) :
  base_class self = base_class self' ->
  (forall layer, layer ∈ apply_layers self <-> layer ∈ apply_layers self') ->
  (forward self x (w, log)).2.2 = (forward self' x (w, log)).2.2
  /\ length (filter (fun c => c = mixStyleModule)
               (forward_calls (base_class self) (apply_layers self))) <= 3
  /\ last (forward self x (w, log)).2.2 = Some layer4.
Proof.
  intros Hclass Hsame. rewrite !forward_trace. simpl.
  assert (Hcalls : forward_calls (base_class self) (apply_layers self)
                   = forward_calls (base_class self') (apply_layers self')).
  { unfold forward_calls, mix_after. rewrite Hclass.
    rewrite !(bool_decide_ext _ _ (Hsame _)). reflexivity. }
  split; [rewrite Hcalls; reflexivity|].
  split; [apply mixing_calls_at_most_3|].
  rewrite last_app. unfold forward_calls, mix_after.
  destruct (bool_decide (base_class self <> ReidResNet));
    destruct (bool_decide ("layer1"%string ∈ apply_layers self));
    destruct (bool_decide ("layer2"%string ∈ apply_layers self));
    destruct (bool_decide ("layer3"%string ∈ apply_layers self)); reflexivity.
Qed.

(** X3: an unsupported class is rejected before anything else runs (the
    world is left as it was), whereas an invalid insertion name is detected
    only after the base class constructor has run. *)
Theorem class_is_checked_before_construction
    (arch : string) (block : Block) (layers : list nat) (pretrained progress : bool)
    (mix_layers : option (list string)) (p a : Q) (rc : resnet_class)
    (kwargs : Kwargs) (w : World) :
  let names := match mix_layers with None => [] | Some l => l end in
  let result :=
    _resnet_with_mix_style arch block layers pretrained progress mix_layers p a rc kwargs w in
  (rc ∉ available_resnet_class -> result = (Raise AssertionError, w))
  /\ (rc ∈ available_resnet_class ->
      (exists layer, layer ∈ names /\ layer ∉ valid_choices) ->
      result = (Raise AssertionError, (super_init rc block layers kwargs w).2)).
Proof.
  intros names result. subst result. rewrite factory_cases. fold names. split.
  - intros Hrc. rewrite (bool_decide_eq_false_2 _ Hrc). reflexivity.
  - intros Hrc (layer & Hin & Hbad). rewrite (bool_decide_eq_true_2 _ Hrc).
    destruct (forallb _ names) eqn:Hall'; [|reflexivity].
    pose proof (proj1 (forallb_valid names) Hall') as Hall.
    exfalso. apply Hbad, Hall, Hin.
Qed.

(** X4: with a supported class and valid names, the factory without
    [pretrained] is just the constructor; with [pretrained] an architecture
    name missing from [model_urls] raises KeyError and a failed download
    raises OSError, both after the model has been built. *)
Theorem pretrained_failures_come_after_construction
    (arch : string) (block : Block) (layers : list nat) (pretrained progress : bool)
    (mix_layers : option (list string)) (p a : Q) (rc : resnet_class)
    (kwargs : Kwargs) (w : World) :
  rc ∈ available_resnet_class ->
  (forall layer, layer ∈ match mix_layers with None => [] | Some l => l end ->
                 layer ∈ valid_choices) ->
  let names := match mix_layers with None => [] | Some l => l end in
  let built := init rc names p a block layers kwargs w in
  let result :=
    _resnet_with_mix_style arch block layers pretrained progress mix_layers p a rc kwargs w in
  (exists m, built.1 = Ok m)
  /\ (pretrained = false -> result = built)
  /\ (pretrained = true -> model_urls !! arch = None ->
      result = (Raise KeyError, built.2))
  /\ (pretrained = true -> forall url w2,
      model_urls !! arch = Some url ->
      load_state_dict_from_url url progress built.2 = (None, w2) ->
      result = (Raise OSError, w2)).
Proof.
  intros Hrc Hvalid names built result. subst result built.
  rewrite factory_cases, init_result. fold names.
  rewrite (bool_decide_eq_true_2 _ Hrc).
  rewrite (proj2 (forallb_valid names) Hvalid). simpl.
  split; [eexists; reflexivity|]. split; [intros ->; reflexivity|].
  split.
  - intros -> ->. reflexivity.
  - intros -> url w2 -> ->. reflexivity.
Qed.





(** X6: each of the four constructors, called without pretrained weights
    and without keyword arguments, returns a plain ResNet without insertion
    names, whose forward pass makes the eight backbone calls and no mixing
    call. *)
Theorem constructors_default_to_plain_resnet
    (name : string) (ctor : bool -> bool -> factory_kwargs -> M World model)
    (progress : bool) (rest : Kwargs) (w : World) :
  (name, ctor) ∈ constructors ->
  exists m w',
    ctor false progress (default_kwargs rest) w = (Ok m, w')
    /\ base_class m = ResNet /\ apply_layers m = []
    /\ forall x w0,
         (forward m x (w0, [])).2.2
         = [conv1; bn1; relu; maxpool; layer1; layer2; layer3; layer4].
Proof.
  intros Hin. unfold constructors in Hin.
  repeat (apply elem_of_cons in Hin as [Hin|Hin];
          [injection Hin as -> ->; unfold resnet18, resnet34, resnet50, resnet101,
             with_kwargs, default_kwargs; simpl; rewrite factory_cases; simpl;
           eexists _, _; split; [reflexivity|];
           split; [reflexivity|]; split; [reflexivity|];
           intros x w0; rewrite forward_trace; reflexivity|]).
  apply elem_of_nil in Hin. contradiction.
Qed.

(** X7: with pretrained weights each constructor looks up its own
    architecture name: for a supported class and valid names it raises
    KeyError exactly when that name has no entry in [model_urls]. *)
Theorem constructors_fetch_their_own_architecture
    (name : string) (ctor : bool -> bool -> factory_kwargs -> M World model)
    (progress : bool) (kwargs : factory_kwargs) (w : World) :
  (name, ctor) ∈ constructors ->
  kw_resnet_class kwargs ∈ available_resnet_class ->
  (forall layer, layer ∈ match kw_mix_layers kwargs with None => [] | Some l => l end ->
                 layer ∈ valid_choices) ->
  ((ctor true progress kwargs w).1 = Raise KeyError <-> model_urls !! name = None).
Proof.
  intros Hin Hrc Hvalid. unfold constructors in Hin.
  assert (Hgen : forall block layers,
    (with_kwargs name block layers true progress kwargs w).1 = Raise KeyError
    <-> model_urls !! name = None).
  { intros block layers. unfold with_kwargs. rewrite factory_cases.
    rewrite (bool_decide_eq_true_2 _ Hrc).
    rewrite (proj2 (forallb_valid _) Hvalid).
    destruct (model_urls !! name) as [url|]; [|split; reflexivity].
    destruct (load_state_dict_from_url _ _ _) as [[d|] w2].
    - split; [|discriminate]. unfold load_state_dict.
      destruct (bool_decide (index_errors _ _ = ∅)); [|simpl; discriminate].
      destruct (bool_decide (size_mismatch _ _ = ∅)); simpl; discriminate.
    - split; discriminate. }
  repeat (apply elem_of_cons in Hin as [Hin|Hin];
          [injection Hin as -> ->; apply Hgen|]).
  apply elem_of_nil in Hin. contradiction.
Qed.

End More.
End ResNetMore.

(** ** coral.py: edge cases, frame conditions and the display tests *)

Module CoralMore.
Import Coral CoralFacts.

(** *** torch.chunk on any batch *)

Section ChunkMore.
Context {A : Type}.

Lemma split_size_bounds (n chunks : nat) :
  0 < chunks ->
  let split_size := (n + chunks - 1) / chunks in
  n <= chunks * split_size /\ (0 < n -> 0 < split_size)
  /\ (split_size = 0 <-> n = 0).
Proof.
  intros Hpos split_size.
  pose proof (Nat.div_mod_eq (n + chunks - 1) chunks) as Hdm.
  pose proof (Nat.mod_upper_bound (n + chunks - 1) chunks ltac:(lia)) as Hmod.
  fold split_size in Hdm. nia.
Qed.

Lemma num_splits_bounds (n split_size : nat) :
  0 < split_size ->
  let num_splits := Nat.max ((n + split_size - 1) / split_size) 1 in
  (num_splits - 1) * split_size <= n /\ n <= num_splits * split_size /\ 1 <= num_splits
  /\ (0 < n -> (num_splits - 1) * split_size < n).
Proof.
  intros Hpos num_splits.
  pose proof (Nat.div_mod_eq (n + split_size - 1) split_size) as Hdm.
  pose proof (Nat.mod_upper_bound (n + split_size - 1) split_size ltac:(lia)) as Hmod.
  subst num_splits. destruct (Nat.max_spec ((n + split_size - 1) / split_size) 1)
    as [[Hlt ->] | [Hle ->]]; nia.
Qed.

Lemma concat_tensor_split (t : list A) (split_size : nat) :
  0 < split_size -> concat (tensor_split t split_size) = t.
Proof.
  intros Hpos. unfold tensor_split.
  destruct (num_splits_bounds (length t) split_size Hpos) as (Hlo & Hhi & Hone & _).
  set (num_splits := Nat.max _ 1) in *.
  replace (seq 0 num_splits) with (seq 0 (num_splits - 1) ++ [num_splits - 1]).
  2:{ rewrite <- seq_S. f_equal. lia. }
  rewrite map_app, concat_app. cbn [map concat]. rewrite app_nil_r.
  rewrite Nat.ltb_irrefl.
  rewrite (map_ext_in _ (fun i => narrow t (i * split_size) split_size)).
  2:{ intros i Hi. apply in_seq in Hi.
      destruct (Nat.ltb_spec i (num_splits - 1)); [reflexivity | lia]. }
  rewrite concat_chunks. unfold narrow. rewrite take_take_drop.
  apply take_ge. nia.
Qed.

Lemma length_tensor_split (t : list A) (split_size : nat) :
  length (tensor_split t split_size)
  = Nat.max ((length t + split_size - 1) / split_size) 1.
Proof. unfold tensor_split. rewrite length_map, length_seq. reflexivity. Qed.

Lemma tensor_chunk_any {St} (t : list A) (chunks : nat) (s : St) :
  0 < chunks ->
  exists pieces,
    tensor_chunk t chunks s = (Ok pieces, s)
    /\ concat pieces = t
    /\ length pieces = chunk_count (length t) chunks
    /\ 1 <= length pieces <= chunks.
Proof.
  intros Hpos. unfold tensor_chunk, chunk_count.
  destruct (Nat.eqb_spec chunks 0) as [->|_]; [lia|].
  destruct (split_size_bounds (length t) chunks Hpos) as (Hcover & Hsize & Hzero).
  set (split_size := (length t + chunks - 1) / chunks) in *.
  destruct (Nat.eqb_spec split_size 0) as [Hs|Hs]; simpl andb.
  - rewrite (proj1 Hzero Hs). simpl Nat.eqb. cbv iota.
    eexists. split; [reflexivity|].
    rewrite Hs. replace (0 - (0 * chunks - length t)) with 0 by lia.
    rewrite <- replicate_S_end. replace (S (chunks - 1)) with chunks by lia.
    rewrite split_with_sizes_zeros, length_replicate.
    split; [|split; [reflexivity | lia]].
    destruct t; [|pose proof (proj1 Hzero Hs); discriminate].
    clear. induction chunks; [reflexivity | exact IHchunks].
  - eexists. split; [reflexivity|].
    split; [apply concat_tensor_split; lia|].
    rewrite length_tensor_split. split; [reflexivity|].
    destruct (num_splits_bounds (length t) split_size ltac:(lia))
      as (Hlo & Hhi & Hone & Hstrict).
    split; [exact Hone|].
    set (num_splits := Nat.max _ 1) in *.
    destruct (Nat.le_gt_cases num_splits chunks) as [Hle|Hgt]; [exact Hle|].
    exfalso. assert (Hn : 0 < length t).
    { destruct (length t); [exfalso; apply Hs, Hzero; reflexivity | lia]. }
    specialize (Hstrict Hn). nia.
Qed.

Lemma singletons (t : list A) :
  map (fun i => narrow t (i * 1) 1) (seq 0 (length t)) = map (fun x => [x]) t.
Proof.
  induction t as [|x t IH]; [reflexivity|].
  cbn [length seq map]. f_equal. rewrite <- seq_shift, map_map. rewrite <- IH.
  apply map_ext. intros i. unfold narrow. f_equal.
Qed.

(** Fewer rows than chunks: one row per piece. *)
Lemma tensor_chunk_small {St} (t : list A) (chunks : nat) (s : St) :
  1 <= length t <= chunks ->
  tensor_chunk t chunks s = (Ok (map (fun x => [x]) t), s).
Proof.
  intros [Hlo Hhi]. unfold tensor_chunk.
  destruct (Nat.eqb_spec chunks 0) as [->|_]; [lia|].
  assert (Hsize : (length t + chunks - 1) / chunks = 1).
  { replace (length t + chunks - 1) with (1 * chunks + (length t - 1)) by lia.
    rewrite Nat.div_add_l by lia. rewrite Nat.div_small by lia. reflexivity. }
  rewrite Hsize. simpl andb. cbv iota. unfold ret, tensor_split. f_equal. f_equal.
  rewrite Nat.add_sub, Nat.div_1_r. replace (Nat.max (length t) 1) with (length t) by lia.
  rewrite <- (singletons t). apply map_ext. intros i.
  destruct (i <? length t - 1); [reflexivity|]. f_equal. lia.
Qed.

End ChunkMore.

Section More.
Context `{Torch}.

(** X8: splitting into domains never loses or repeats a row: for any
    positive domain count the three splits return, their chunks
    concatenate back to the tensors, there are between 1 and num_domains
    chunks, and tensors with equally many rows get equally many chunks.
    With num_domains = 0 the first split raises torch's RuntimeError. *)
Theorem separate_domains_keeps_every_row {St : Type}
    (y_all : list Logit) (f_all : list Feature) (labels_all : list Label)
    (num_domains : nat) (s : St) :
  (num_domains = 0 ->
   exists msg, separate_domains y_all f_all labels_all num_domains s
               = (Raise (RuntimeError msg), s))
  /\ (0 < num_domains ->
      exists ys fs ls,
        separate_domains y_all f_all labels_all num_domains s = (Ok (ys, fs, ls), s)
        /\ concat ys = y_all /\ concat fs = f_all /\ concat ls = labels_all
        /\ 1 <= length ys <= num_domains
        /\ 1 <= length fs <= num_domains
        /\ 1 <= length ls <= num_domains
        /\ (length y_all = length f_all -> length ys = length fs)
        /\ (length y_all = length labels_all -> length ys = length ls)).
Proof.
  split.
  - intros ->. eexists. reflexivity.
  - intros Hpos. unfold separate_domains, bind.
    destruct (tensor_chunk_any y_all num_domains s Hpos) as (ys & -> & Hy & Hny & Hby).
    destruct (tensor_chunk_any f_all num_domains s Hpos) as (fs & -> & Hf & Hnf & Hbf).
    destruct (tensor_chunk_any labels_all num_domains s Hpos) as (ls & -> & Hl & Hnl & Hbl).
    exists ys, fs, ls. split; [reflexivity|].
    repeat (split; [assumption|]).
    split; intros Heq; congruence.
Qed.

(** *** A batch with fewer samples than domains *)

Lemma compute_losses_short (y_all : list (list Logit)) (f_all : list (list Feature))
    (labels_all : list (list Label)) (num_domains m : nat) (args : Args) (s : store) :
  1 <= m -> m < num_domains ->
  length y_all = m -> length f_all = m -> length labels_all = m ->
  compute_losses y_all f_all labels_all num_domains args s
  = (Raise IndexError,
     add_events s (CrossEntropy 0 :: map (Alignment 0) (range 1 m))).
Proof.
  intros Hm Hlt Hy Hf Hl. unfold compute_losses. unfold bind at 1.
  unfold range at 1. rewrite Nat.sub_0_r.
  destruct num_domains as [|n]; [lia|]. cbn [seq foldM]. unfold bind at 1.
  unfold domain_step at 1.
  unfold bind at 1. rewrite index_in_range by lia.
  unfold bind at 1. rewrite index_in_range by lia.
  unfold bind at 1. unfold emit at 1, modify. cbn [py_truediv].
  unfold bind at 1. unfold ret at 1.
  unfold bind at 1. unfold alignment_row.
  assert (Hrange : range (0 + 1) (S n) = range 1 m ++ m :: range (m + 1) (S n)).
  { unfold range. replace (S n - (0 + 1)) with ((m - 1) + S (S n - (m + 1))) by lia.
    rewrite seq_app. cbn [seq]. repeat f_equal; lia. }
  rewrite Hrange, foldM_app. unfold bind at 1.
  rewrite alignment_fold; [|lia|rewrite Hf; apply range_below].
  cbn [foldM]. unfold bind at 1. unfold bind at 1. rewrite index_in_range by lia.
  unfold bind at 1. unfold index at 1.
  rewrite (lookup_ge_None_2 f_all m) by lia.
  unfold raise, add_events. cbn [ts files trace]. rewrite <- app_assoc. reflexivity.
Qed.

Lemma separate_domains_small {St} (y_all : list Logit) (f_all : list Feature)
    (labels_all : list Label) (num_domains b : nat) (s : St) :
  1 <= b <= num_domains ->
  length y_all = b -> length f_all = b -> length labels_all = b ->
  separate_domains y_all f_all labels_all num_domains s
  = (Ok (map (fun x => [x]) y_all, map (fun x => [x]) f_all,
         map (fun x => [x]) labels_all), s).
Proof.
  intros Hb Hy Hf Hl. unfold separate_domains, bind.
  rewrite !tensor_chunk_small by lia. reflexivity.
Qed.

(** X9: when every batch has fewer samples than there are domains, chunk
    returns one chunk per sample, fewer than num_domains, and the iteration
    raises IndexError in the alignment loop of domain 0, at the first missing
    chunk; so an epoch with at least one iteration raises IndexError before
    any gradient step. *)
Theorem small_batch_raises_index_error
    (num_domains batch_size epoch : nat) (args : Args) (s : store) :
  1 <= batch_size -> batch_size < num_domains -> batches_of batch_size ->
  1 <= iters_per_epoch args ->
  (forall s0, (train_iteration num_domains args s0).1 = Raise IndexError)
  /\ exists s', train num_domains epoch args s = (Raise IndexError, s')
                /\ trace s' = trace s ++ [NextBatch; Forward; CrossEntropy 0]
                                ++ map (Alignment 0) (range 1 batch_size)
                /\ files s' = files s.
Proof.
  intros Hb Hlt [Hbatch Hmodel] Hiters.
  assert (Hiter : forall s0, exists t,
    train_iteration num_domains args s0
    = (Raise IndexError,
       add_events (set_ts s0 t)
         ([NextBatch; Forward; CrossEntropy 0] ++ map (Alignment 0) (range 1 batch_size)))).
  { intros s0. unfold train_iteration.
    unfold bind at 1. unfold on_ts_get at 1.
    specialize (Hbatch (ts s0)).
    destruct (next_batch (ts s0)) as [[x_all labels_all] t1]. simpl in Hbatch.
    destruct Hbatch as [Hx Hlabels].
    unfold bind at 1. unfold emit at 1, modify. unfold bind at 1. unfold on_ts_get at 1.
    cbn [ts files trace].
    specialize (Hmodel x_all t1).
    destruct (model_call x_all t1) as [[y_all f_all] t2]. simpl in Hmodel.
    destruct Hmodel as [Hy Hf]. rewrite Hx in Hy, Hf.
    unfold bind at 1. unfold emit at 1, modify. cbn [ts files trace].
    unfold bind at 1.
    rewrite (separate_domains_small y_all f_all labels_all num_domains batch_size)
      by (assumption || lia).
    unfold bind at 1.
    rewrite (compute_losses_short _ _ _ num_domains batch_size)
      by (rewrite ?length_map; assumption || lia).
    exists t2. unfold add_events, set_ts. cbn [ts files trace].
    rewrite <- !app_assoc. reflexivity. }
  split.
  - intros s0. destruct (Hiter s0) as [t ->]. reflexivity.
  - unfold train. unfold bind, on_ts at 1, modify.
    unfold range. rewrite Nat.sub_0_r.
    destruct (iters_per_epoch args) as [|n]; [lia|].
    unfold for_. cbn [seq foldM]. unfold bind.
    destruct (Hiter {| ts := model_train (ts s); files := files s; trace := trace s |})
      as [t ->].
    eexists. split; [reflexivity|]. split; reflexivity.
Qed.


(** *** What is written, and what is not *)

Lemma comes_after_refl (writable : list string) (s : store) : comes_after writable s s.
Proof. split; [exists []; rewrite app_nil_r; reflexivity | reflexivity]. Qed.

Lemma comes_after_trans (writable : list string) (s1 s2 s3 : store) :
  comes_after writable s1 s2 -> comes_after writable s2 s3 -> comes_after writable s1 s3.
Proof.
  intros [[new1 Ht1] Hf1] [[new2 Ht2] Hf2]. split.
  - exists (new1 ++ new2). rewrite Ht2, Ht1, app_assoc. reflexivity.
  - intros name Hname. rewrite (Hf2 name Hname). apply Hf1, Hname.
Qed.

Lemma writes_only_pure {A} (writable : list string) (c : M store A) :
  pure c -> writes_only writable c.
Proof. intros [r Hc] s. rewrite Hc. apply comes_after_refl. Qed.

Lemma writes_only_ret {A} (writable : list string) (a : A) :
  writes_only writable (ret a).
Proof. apply writes_only_pure, pure_ret. Qed.

Lemma writes_only_bind {A B} (writable : list string) (c : M store A)
    (k : A -> M store B) :
  writes_only writable c -> (forall a, writes_only writable (k a)) ->
  writes_only writable (bind c k).
Proof.
  intros Hc Hk s. unfold bind. specialize (Hc s).
  destruct (c s) as [[a|e] s1]; simpl in Hc; [|exact Hc].
  eapply comes_after_trans; [exact Hc | apply Hk].
Qed.

Lemma writes_only_foldM {A B} (writable : list string) (body : B -> A -> M store B)
    (l : list A) :
  (forall b x, writes_only writable (body b x)) ->
  forall b, writes_only writable (foldM body l b).
Proof.
  intros Hbody. induction l as [|x l IH]; intros b.
  - apply writes_only_ret.
  - cbn [foldM]. apply writes_only_bind; [apply Hbody | exact IH].
Qed.

Lemma writes_only_emit (writable : list string) (e : event) :
  writes_only writable (emit e).
Proof. intros s. split; [exists [e]; reflexivity | reflexivity]. Qed.

Lemma writes_only_on_ts (writable : list string) (f : TState -> TState) :
  writes_only writable (on_ts f).
Proof. intros s. split; [exists []; simpl; rewrite app_nil_r; reflexivity | reflexivity]. Qed.

Lemma writes_only_on_ts_get {A} (writable : list string) (f : TState -> A * TState) :
  writes_only writable (on_ts_get f).
Proof.
  intros s. unfold on_ts_get. destruct (f (ts s)) as [a t].
  split; [exists []; simpl; rewrite app_nil_r; reflexivity | reflexivity].
Qed.

Lemma writes_only_read_ts {A} (writable : list string) (f : TState -> A) :
  writes_only writable (read_ts f).
Proof. intros s. apply comes_after_refl. Qed.

Lemma writes_only_read_files {A} (writable : list string)
    (f : gmap string Checkpoint -> A) :
  writes_only writable (read_files f).
Proof. intros s. apply comes_after_refl. Qed.

Lemma writes_only_insert (writable : list string) (name : string) (c : Checkpoint) :
  name ∈ writable -> writes_only writable (on_files (insert name c)).
Proof.
  intros Hin s. split; [exists []; simpl; rewrite app_nil_r; reflexivity|].
  intros other Hother. simpl. apply lookup_insert_ne. intros ->. contradiction.
Qed.

Ltac frame_step :=
  first
    [ apply writes_only_emit
    | apply writes_only_on_ts
    | apply writes_only_on_ts_get
    | apply writes_only_read_ts
    | apply writes_only_read_files
    | apply writes_only_ret
    | apply writes_only_pure;
      first [ apply pure_index | apply pure_py_truediv | apply pure_as_tensor
            | apply pure_separate_domains | apply pure_raise ]
    | apply writes_only_bind;
      [ | let a := fresh "a" in
          intros a;
          repeat match goal with
                 | |- writes_only _ (match ?x with _ => _ end) =>
                     is_var x; destruct x
                 end ] ].

Lemma writes_only_alignment_row (writable : list string) (f_all : list (list Feature))
    (num_domains i : nat) (loss_penalty : pyval) :
  writes_only writable (alignment_row f_all num_domains i loss_penalty).
Proof.
  unfold alignment_row. apply writes_only_foldM. intros b j. repeat frame_step.
Qed.

Lemma writes_only_domain_step (writable : list string) (y_all : list (list Logit))
    (f_all : list (list Feature)) (labels_all : list (list Label)) (num_domains : nat)
    (locals : pyval * pyval * pyval) (i : nat) :
  writes_only writable (domain_step y_all f_all labels_all num_domains locals i).
Proof.
  unfold domain_step. destruct locals as [[loss_ce loss_penalty] cls_acc].
  apply writes_only_bind; [frame_step | intros y_i].
  apply writes_only_bind; [frame_step | intros labels_i].
  apply writes_only_bind; [frame_step | intros _].
  apply writes_only_bind; [frame_step | intros acc].
  apply writes_only_bind; [apply writes_only_alignment_row | intros lp].
  apply writes_only_ret.
Qed.

Lemma writes_only_compute_losses (writable : list string) (y_all : list (list Logit))
    (f_all : list (list Feature)) (labels_all : list (list Label)) (num_domains : nat)
    (args : Args) :
  writes_only writable (compute_losses y_all f_all labels_all num_domains args).
Proof.
  unfold compute_losses. apply writes_only_bind.
  - apply writes_only_foldM. intros b i. apply writes_only_domain_step.
  - intros [[loss_ce loss_penalty] cls_acc]. repeat frame_step.
Qed.

Lemma writes_only_train_iteration (writable : list string) (num_domains : nat)
    (args : Args) :
  writes_only writable (train_iteration num_domains args).
Proof.
  unfold train_iteration.
  apply writes_only_bind; [frame_step | intros [x_all labels_all]].
  apply writes_only_bind; [frame_step | intros _].
  apply writes_only_bind; [frame_step | intros [y_all f_all]].
  apply writes_only_bind; [frame_step | intros _].
  apply writes_only_bind; [frame_step | intros [[ys fs] ls]].
  apply writes_only_bind; [apply writes_only_compute_losses|].
  intros [[[loss_ce loss_penalty] cls_acc] loss]. repeat frame_step.
Qed.

Lemma writes_only_train (writable : list string) (num_domains epoch : nat) (args : Args) :
  writes_only writable (train num_domains epoch args).
Proof.
  unfold train. apply writes_only_bind; [frame_step | intros _].
  unfold for_. apply writes_only_foldM. intros b i. apply writes_only_train_iteration.
Qed.

Lemma writes_only_validate (writable : list string)
    (loader : list (list Image * list Label)) :
  writes_only writable (validate loader).
Proof.
  intros s. rewrite validate_run.
  split; [exists []; simpl; rewrite app_nil_r; reflexivity | reflexivity].
Qed.

Lemma writes_only_torch_load (writable : list string) (name : string) :
  writes_only writable (torch_load name).
Proof.
  unfold torch_load. apply writes_only_bind; [frame_step | intros found].
  destruct found; [apply writes_only_ret | apply writes_only_pure, pure_raise].
Qed.

Lemma writes_only_epoch_body (val_loader test_loader : list (list Image * list Label))
    (num_domains : nat) (args : Args) (best : Q * Q) (epoch : nat) :
  writes_only ["latest"; "best"]%string
    (epoch_body val_loader test_loader num_domains args best epoch).
Proof.
  unfold epoch_body. destruct best as [best_val best_test].
  apply writes_only_bind; [apply writes_only_train | intros _].
  apply writes_only_bind; [apply writes_only_validate | intros acc1].
  apply writes_only_bind; [frame_step | intros _].
  apply writes_only_bind; [frame_step | intros checkpoint].
  apply writes_only_bind; [apply writes_only_insert; left | intros _].
  apply writes_only_bind; [frame_step | intros _].
  apply writes_only_bind.
  { destruct (py_gt acc1 best_val); [|apply writes_only_ret].
    apply writes_only_bind; [|intros _; frame_step].
    unfold shutil_copy. apply writes_only_bind; [apply writes_only_torch_load|].
    intros c. apply writes_only_insert. right. left. }
  intros _.
  apply writes_only_bind; [apply writes_only_validate | intros acc_t].
  apply writes_only_bind; [frame_step | intros _].
  apply writes_only_ret.
Qed.

Lemma writes_only_training_loop (val_loader test_loader : list (list Image * list Label))
    (num_domains : nat) (args : Args) :
  writes_only ["latest"; "best"]%string
    (training_loop val_loader test_loader num_domains args).
Proof.
  unfold training_loop. apply writes_only_foldM. intros b epoch.
  apply writes_only_epoch_body.
Qed.

(** X11: training never touches the checkpoint files and never drops a
    recorded call, whether it returns or raises, for any domain count and
    any batches. *)
Theorem train_never_writes_checkpoints (num_domains epoch : nat) (args : Args)
    (s : store) :
  files (train num_domains epoch args s).2 = files s
  /\ exists new, trace (train num_domains epoch args s).2 = trace s ++ new.
Proof.
  destruct (writes_only_train [] num_domains epoch args s) as [Htrace Hfiles].
  split; [|exact Htrace].
  apply map_eq. intros name. apply Hfiles. apply not_elem_of_nil.
Qed.

(** X12: whatever happens, [main] writes no checkpoint file other than
    "latest" and "best", in the test phase it writes none at all, and it
    never drops a recorded call. *)
Theorem main_writes_only_latest_and_best
    (val_loader test_loader : list (list Image * list Label)) (args : Args) (s : store) :
  let s' := (main val_loader test_loader args s).2 in
  (forall name, name <> "latest"%string -> name <> "best"%string ->
                files s' !! name = files s !! name)
  /\ (phase args = "test"%string -> files s' = files s)
  /\ exists new, trace s' = trace s ++ new.
Proof.
  assert (Htail : forall writable,
    writes_only writable
      (let* checkpoint := torch_load "best" in
       on_ts (load_state_dict checkpoint) ;; validate test_loader)%py).
  { intros writable.
    apply writes_only_bind; [apply writes_only_torch_load | intros c].
    apply writes_only_bind; [apply writes_only_on_ts | intros _].
    apply writes_only_validate. }
  assert (Hmain : writes_only ["latest"; "best"]%string (main val_loader test_loader args)).
  { unfold main. case_bool_decide; [apply Htail|].
    apply writes_only_bind; [apply writes_only_training_loop | intros _]. apply Htail. }
  intros s'. subst s'. destruct (Hmain s) as [Htrace Hfiles].
  split; [|split; [|exact Htrace]].
  - intros name Hl Hb. apply Hfiles. intros Hin.
    apply elem_of_cons in Hin as [->|Hin]; [contradiction|].
    apply list_elem_of_singleton in Hin. contradiction.
  - intros Hphase. unfold main. rewrite (bool_decide_eq_true_2 _ Hphase).
    destruct (Htail [] s) as [_ Hnone].
    apply map_eq. intros name. apply Hnone, not_elem_of_nil.
Qed.

(** *** The running maxima *)

Lemma py_max_keeps_maximum_r (best acc : Q) (earlier : list Q) :
  (forall a, py_gt a best = exceeds_all a earlier) ->
  forall a, py_gt a (py_max best acc) = exceeds_all a (earlier ++ [acc]).
Proof.
  intros Hinv a. rewrite exceeds_all_snoc, <- Hinv. unfold py_max.
  destruct (py_gt acc best) eqn:Hcmp.
  - apply py_gt_spec in Hcmp.
    destruct (py_gt a acc) eqn:Haa; [|rewrite andb_false_r; reflexivity].
    rewrite andb_true_r. symmetry. apply py_gt_spec. apply py_gt_spec in Haa.
    eapply Qlt_trans; eassumption.
  - destruct (py_gt a best) eqn:Hab; [|reflexivity].
    apply py_gt_spec in Hab. symmetry. apply py_gt_spec.
    eapply Qle_lt_trans; [|exact Hab].
    apply Qnot_lt_le. intros Hlt. apply py_gt_spec in Hlt. congruence.
Qed.

Lemma forallb_false_witness {A} (p : A -> bool) (l : list A) :
  forallb p l = false -> exists x, x ∈ l /\ p x = false.
Proof.
  induction l as [|x l IH]; [discriminate|]. simpl.
  destruct (p x) eqn:Hx.
  - intros Hl. destruct (IH Hl) as (y & Hy & Hpy). exists y. split; [right|]; assumption.
  - intros _. exists x. split; [left | exact Hx].
Qed.

Lemma greatest_of_running_maximum (best : Q) (earlier : list Q) :
  (forall a, py_gt a best = exceeds_all a earlier) ->
  greatest best (0%Q :: earlier).
Proof.
  intros Hinv.
  assert (Hub : forall x, x ∈ 0%Q :: earlier -> (x <= best)%Q).
  { intros x Hx. apply Qnot_lt_le. intros Hlt. apply py_gt_spec in Hlt.
    rewrite Hinv in Hlt. unfold exceeds_all in Hlt. rewrite forallb_forall in Hlt.
    specialize (Hlt x (proj1 (list_elem_of_In _ _) Hx)).
    apply py_gt_spec in Hlt. exact (Qlt_irrefl _ Hlt). }
  split; [exact Hub|].
  assert (Hself : exceeds_all best earlier = false).
  { rewrite <- Hinv. destruct (py_gt best best) eqn:Hbb; [|reflexivity].
    apply py_gt_spec in Hbb. exfalso. exact (Qlt_irrefl _ Hbb). }
  apply forallb_false_witness in Hself as (x & Hx & Hpx).
  exists x. split; [exact Hx|]. apply Qle_antisym; [apply Hub, Hx|].
  apply Qnot_lt_le. intros Hlt. apply py_gt_spec in Hlt. congruence.
Qed.

(** *** The progress display *)

Lemma foldM_agree {A B} (f g : B -> A -> M store B) (l : list A) (b : B) (s : store) :
  (forall b x s, f b x s = g b x s) -> foldM f l b s = foldM g l b s.
Proof.
  intros Hfg. revert b s. induction l as [|x l IH]; intros b s; [reflexivity|].
  cbn [foldM]. unfold bind. rewrite Hfg. destruct (g b x s) as [[b'|e] s']; [apply IH|reflexivity].
Qed.

Lemma display_progress_nonzero (i : nat) (print_freq : Z) (s : store) :
  print_freq <> 0%Z -> display_progress i print_freq s = (Ok tt, s).
Proof.
  intros Hpf. unfold display_progress.
  destruct (Z.eqb_spec print_freq 0) as [->|_]; [congruence|].
  destruct (_ =? 0)%Z; reflexivity.
Qed.

(** X17: the display test [i % args.print_freq] is the only other place
    where an iteration can raise: for a nonzero print_freq an epoch behaves
    exactly as [train] without the display, and with print_freq = 0 an epoch
    of at least one iteration raises ZeroDivisionError at the end of its
    first iteration, after one optimizer and one scheduler step. *)
Theorem progress_display_needs_nonzero_print_freq
    (num_domains k epoch : nat) (args : Args) (print_freq : Z) (s : store) :
  (print_freq <> 0%Z ->
   train_displaying num_domains epoch args print_freq s = train num_domains epoch args s)
  /\ (print_freq = 0%Z -> 2 <= num_domains -> batches_of (num_domains * k) ->
      1 <= iters_per_epoch args ->
      exists s', train_displaying num_domains epoch args print_freq s
                 = (Raise ZeroDivisionError, s')
                 /\ trace s' = trace s ++ iteration_events num_domains
                 /\ files s' = files s).
Proof.
  split.
  - intros Hpf. unfold train_displaying, train, bind at 1 3, for_.
    destruct (on_ts model_train s) as [[[]|e] s1]; [|reflexivity].
    apply foldM_agree. intros [] i s0. unfold bind.
    destruct (train_iteration num_domains args s0) as [[[]|e] s2]; [|reflexivity].
    apply display_progress_nonzero, Hpf.
  - intros -> Hn Hbatch Hiters. unfold train_displaying. unfold bind at 1, on_ts at 1, modify.
    unfold range. rewrite Nat.sub_0_r.
    destruct (iters_per_epoch args) as [|n]; [lia|].
    unfold for_. cbn [seq foldM]. unfold bind at 1. unfold bind at 1.
    destruct (train_iteration_ok num_domains k args
                {| ts := model_train (ts s); files := files s; trace := trace s |}
                Hn Hbatch) as [t ->].
    eexists. split; [reflexivity|]. split; reflexivity.
Qed.

Lemma validate_displaying_batches (batches : list (nat * (list Image * list Label)))
    (print_freq : Z) (m : Meter) (s : store) :
  print_freq <> 0%Z ->
  foldM (fun top1 '(i, (images, target)) =>
           (let* (output, _) := read_ts (fun t => model_infer t images) in
            let acc1 := accuracy output target in
            let top1 := meter_update top1 (item acc1) (length images) in
            display_progress i print_freq ;;
            ret top1)%py) batches m s
  = foldM (fun top1 '(images, target) =>
             (let* (output, _) := read_ts (fun t => model_infer t images) in
              ret (meter_update top1 (item (accuracy output target)) (length images)))%py)
          (map snd batches) m s.
Proof.
  intros Hpf. revert m. induction batches as [|[i [images target]] batches IH];
    intros m; [reflexivity|].
  cbn [foldM map snd]. unfold bind, read_ts. cbn [fst snd].
  destruct (model_infer (ts s) images) as [output features].
  rewrite display_progress_nonzero by exact Hpf.
  unfold ret. apply IH.
Qed.

(** X18: the same display test in [validate]: for a nonzero print_freq
    (and for an empty loader) evaluation is exactly [validate] without the
    display; with print_freq = 0 and at least one batch it raises
    ZeroDivisionError after the first batch, the classifier already in
    evaluation mode and nothing else changed. *)
Theorem validate_display_needs_nonzero_print_freq
    (val_loader : list (list Image * list Label)) (print_freq : Z) (s : store) :
  (print_freq <> 0%Z -> validate_displaying val_loader print_freq s = validate val_loader s)
  /\ validate_displaying [] print_freq s = validate [] s
  /\ (print_freq = 0%Z -> val_loader <> [] ->
      validate_displaying val_loader print_freq s
      = (Raise ZeroDivisionError, set_ts s (model_eval (ts s)))).
Proof.
  split; [|split].
  - intros Hpf. unfold validate_displaying, validate. unfold bind.
    destruct (on_ts model_eval s) as [[[]|e] s1]; [|reflexivity].
    rewrite (validate_displaying_batches _ _ _ _ Hpf).
    rewrite snd_zip by (rewrite length_seq; lia). reflexivity.
  - reflexivity.
  - intros -> Hne. destruct val_loader as [|[images target] rest]; [congruence|].
    unfold validate_displaying. unfold bind at 1, on_ts at 1, modify.
    cbn [length seq zip zip_with foldM]. unfold bind. unfold read_ts at 1. cbn [ts].
    destruct (model_infer (model_eval (ts s)) images) as [output features].
    reflexivity.
Qed.

End More.

End CoralMore.

(** ** coral.py: the script as written, with the progress display *)

Module CoralProgram.
Import Coral CoralFacts CoralMore.

Section Program.
Context `{Torch}.

(** *** One iteration and one epoch on the classifier *)

Lemma domain_chunks_even {A} (t : list A) (num_domains k : nat) :
  0 < num_domains -> length t = num_domains * k ->
  domain_chunks t num_domains = map (fun i => narrow t (i * k) k) (seq 0 num_domains).
Proof.
  intros Hpos Hlen. unfold domain_chunks.
  rewrite Hlen, Nat.mul_comm, Nat.div_mul by lia. reflexivity.
Qed.

(** One iteration leaves the classifier as [iteration_update] says. *)
Lemma train_iteration_run (num_domains k : nat) (args : Args) (s : store) :
  2 <= num_domains -> batches_of (num_domains * k) ->
  exists t', iteration_update num_domains args (ts s) = Some t'
    /\ train_iteration num_domains args s
       = (Ok tt, add_events (set_ts s t') (iteration_events num_domains)).
Proof.
  intros Hn [Hbatch Hmodel].
  destruct (next_batch (ts s)) as [[x_all labels_all] t1] eqn:Hnext.
  destruct (model_call x_all t1) as [[y_all f_all] t2] eqn:Hcall.
  destruct (Hbatch (ts s)) as [Hx Hlabels]. rewrite Hnext in Hx, Hlabels.
  simpl in Hx, Hlabels.
  destruct (Hmodel x_all t1) as [Hy Hf]. rewrite Hcall in Hy, Hf. simpl in Hy, Hf.
  rewrite Hx in Hy, Hf.
  destruct (chunks_shape y_all num_domains k Hy) as [Hly _].
  destruct (chunks_shape f_all num_domains k Hf) as [Hlf _].
  destruct (chunks_shape labels_all num_domains k Hlabels) as [Hll _].
  destruct (compute_losses_ok _ _ _ num_domains args
              {| ts := t2; files := files s; trace := (trace s ++ [NextBatch]) ++ [Forward] |}
              Hn Hly Hlf Hll)
    as (sum_ce & sum_penalty & cls_acc & Hce & Hpen & _ & Hrun).
  cbv zeta in Hrun.
  eexists. split.
  - unfold iteration_update. rewrite Hnext, Hcall.
    rewrite !(domain_chunks_even _ num_domains k) by (assumption || lia).
    unfold loss_tensor. rewrite Hce, Hpen. reflexivity.
  - unfold train_iteration.
    unfold bind at 1. unfold on_ts_get at 1. rewrite Hnext.
    unfold bind at 1. unfold emit at 1, modify. unfold bind at 1. unfold on_ts_get at 1.
    cbn [ts files trace]. rewrite Hcall.
    unfold bind at 1. unfold emit at 1, modify. cbn [ts files trace].
    unfold bind at 1.
    rewrite (separate_domains_even y_all f_all labels_all num_domains k _
               ltac:(lia) Hy Hf Hlabels).
    unfold bind at 1. rewrite Hrun.
    unfold bind, as_tensor, ret, on_ts, emit, modify, add_events, set_ts, gradient_update.
    cbn [ts files trace]. unfold iteration_events, update_events.
    rewrite <- !app_assoc. reflexivity.
Qed.

Lemma iterations_run (num_domains k : nat) (args : Args) (iters : list nat) (s : store) :
  2 <= num_domains -> batches_of (num_domains * k) ->
  exists t', iterations_update num_domains args (length iters) (ts s) = Some t'
    /\ for_ iters (fun i => train_iteration num_domains args) s
       = (Ok tt, add_events (set_ts s t')
                   (concat (replicate (length iters) (iteration_events num_domains)))).
Proof.
  intros Hn Hbatch. revert s. induction iters as [|i iters IH]; intros s.
  - exists (ts s). split; [reflexivity|]. unfold for_. simpl. unfold ret. f_equal.
    destruct s. unfold add_events, set_ts. simpl. rewrite app_nil_r. reflexivity.
  - destruct (train_iteration_run num_domains k args s Hn Hbatch) as (t1 & Hup & Hrun).
    destruct (IH (add_events (set_ts s t1) (iteration_events num_domains)))
      as (t2 & Hups & Hruns).
    exists t2. split.
    + cbn [length iterations_update]. rewrite Hup. exact Hups.
    + unfold for_ in *. cbn [foldM]. unfold bind at 1. rewrite Hrun, Hruns.
      unfold add_events, set_ts. cbn [ts files trace length replicate concat].
      rewrite <- !app_assoc. reflexivity.
Qed.

Lemma train_run (num_domains k epoch : nat) (args : Args) (s : store) :
  2 <= num_domains -> batches_of (num_domains * k) ->
  exists t', epoch_update num_domains args (ts s) = Some t'
    /\ train num_domains epoch args s
       = (Ok tt, add_events (set_ts s t')
                   (concat (replicate (iters_per_epoch args)
                                      (iteration_events num_domains)))).
Proof.
  intros Hn Hbatch.
  destruct (iterations_run num_domains k args (range 0 (iters_per_epoch args))
              {| ts := model_train (ts s); files := files s; trace := trace s |}
              Hn Hbatch) as (t' & Hup & Hrun).
  unfold range in Hup, Hrun. rewrite length_seq, Nat.sub_0_r in Hup, Hrun.
  exists t'. split; [exact Hup|].
  unfold train. unfold bind, on_ts at 1, modify. unfold range. rewrite Nat.sub_0_r, Hrun.
  reflexivity.
Qed.

(** *** The display tests *)

Lemma bind_agree {A B} (c1 c2 : M store A) (k1 k2 : A -> M store B) (s : store) :
  c1 s = c2 s -> (forall a s', k1 a s' = k2 a s') -> bind c1 k1 s = bind c2 k2 s.
Proof.
  intros Hc Hk. unfold bind. rewrite Hc.
  destruct (c2 s) as [[a|e] s']; [apply Hk | reflexivity].
Qed.

Lemma train_displaying_nonzero (num_domains epoch : nat) (args : Args)
    (print_freq : Z) (s : store) :
  print_freq <> 0%Z ->
  train_displaying num_domains epoch args print_freq s = train num_domains epoch args s.
Proof.
  intros Hpf. unfold train_displaying, train.
  apply bind_agree; [reflexivity|]. intros [] s1.
  apply foldM_agree. intros [] i s0.
  unfold bind. destruct (train_iteration num_domains args s0) as [[[]|e] s2]; [|reflexivity].
  apply display_progress_nonzero, Hpf.
Qed.

Lemma train_displaying_zero (num_domains k epoch : nat) (args : Args) (s : store) :
  2 <= num_domains -> batches_of (num_domains * k) -> 1 <= iters_per_epoch args ->
  exists t', iteration_update num_domains args (model_train (ts s)) = Some t'
    /\ train_displaying num_domains epoch args 0 s
       = (Raise ZeroDivisionError,
          add_events (set_ts s t') (iteration_events num_domains)).
Proof.
  intros Hn Hbatch Hiters.
  destruct (train_iteration_run num_domains k args
              {| ts := model_train (ts s); files := files s; trace := trace s |}
              Hn Hbatch) as (t' & Hup & Hrun).
  exists t'. split; [exact Hup|].
  unfold train_displaying. unfold bind at 1, on_ts at 1, modify.
  unfold range. rewrite Nat.sub_0_r.
  destruct (iters_per_epoch args) as [|n]; [lia|].
  unfold for_. cbn [seq foldM]. unfold bind at 1. unfold bind at 1.
  rewrite Hrun. reflexivity.
Qed.

Lemma validate_displaying_nonzero (loader : list (list Image * list Label))
    (print_freq : Z) (s : store) :
  print_freq <> 0%Z \/ loader = [] ->
  validate_displaying loader print_freq s = validate loader s.
Proof.
  intros [Hpf | ->]; [|reflexivity].
  unfold validate_displaying, validate.
  apply bind_agree; [reflexivity|]. intros [] s1.
  apply bind_agree; [|reflexivity].
  rewrite (validate_displaying_batches _ _ _ _ Hpf).
  rewrite snd_zip by (rewrite length_seq; lia). reflexivity.
Qed.

Lemma validate_displaying_run (loader : list (list Image * list Label))
    (print_freq : Z) (s : store) :
  print_freq <> 0%Z \/ loader = [] ->
  validate_displaying loader print_freq s
  = (Ok (top1_avg loader (model_eval (ts s))), set_ts s (model_eval (ts s))).
Proof.
  intros Hpf. rewrite (validate_displaying_nonzero _ _ _ Hpf). apply validate_run.
Qed.

Lemma validate_displaying_zero (loader : list (list Image * list Label)) (s : store) :
  loader <> [] ->
  validate_displaying loader 0 s
  = (Raise ZeroDivisionError, set_ts s (model_eval (ts s))).
Proof.
  intros Hne. destruct loader as [|[images target] rest]; [congruence|].
  unfold validate_displaying. unfold bind at 1, on_ts at 1, modify.
  cbn [length seq zip zip_with foldM]. unfold bind. unfold read_ts at 1. cbn [ts].
  destruct (model_infer (model_eval (ts s)) images) as [output features].
  reflexivity.
Qed.

Lemma epoch_body_displaying_nonzero
    (val_loader test_loader : list (list Image * list Label))
    (num_domains : nat) (args : Args) (best : Q * Q) (epoch : nat) (s : store) :
  print_freq args <> 0%Z ->
  epoch_body_displaying val_loader test_loader num_domains args best epoch s
  = epoch_body val_loader test_loader num_domains args best epoch s.
Proof.
  intros Hpf. unfold epoch_body_displaying, epoch_body. destruct best as [best_val best_test].
  apply bind_agree; [apply train_displaying_nonzero, Hpf|]. intros [] s1.
  apply bind_agree; [apply validate_displaying_nonzero; left; exact Hpf|]. intros acc1 s2.
  apply bind_agree; [reflexivity|]. intros [] s3.
  apply bind_agree; [reflexivity|]. intros checkpoint s4.
  apply bind_agree; [reflexivity|]. intros [] s5.
  apply bind_agree; [reflexivity|]. intros [] s6.
  apply bind_agree; [reflexivity|]. intros [] s7.
  apply bind_agree; [apply validate_displaying_nonzero; left; exact Hpf|]. intros acc_t s8.
  reflexivity.
Qed.

(** *** The epoch loop *)

(** The epoch loop, from any epoch on: [earlier] and [earlier_t] are the
    source and target accuracies of the epochs already run. *)
Lemma epochs_follow_records (val_loader test_loader : list (list Image * list Label))
    (num_domains k : nat) (args : Args) (todo : list nat) :
  2 <= num_domains -> batches_of (num_domains * k) ->
  forall (best_val best_test : Q) (s : store) (earlier earlier_t : list Q),
  (forall a, py_gt a best_val = exceeds_all a earlier) ->
  (forall a, py_gt a best_test = exceeds_all a earlier_t) ->
  exists records t_end best_val' best_test' s',
    epoch_records val_loader test_loader num_domains args (length todo) (ts s)
      = Some (records, t_end)
    /\ foldM (epoch_body val_loader test_loader num_domains args) todo
             (best_val, best_test) s
       = (Ok (best_val', best_test'), s')
    /\ length records = length todo
    /\ ts s' = t_end
    /\ List.filter is_epoch_event (trace s')
       = List.filter is_epoch_event (trace s) ++ epoch_events earlier records
    /\ files s' !! "best"%string = select_best earlier records (files s !! "best"%string)
    /\ files s' !! "latest"%string = last_saved records (files s !! "latest"%string)
    /\ (forall name, name <> "best"%string -> name <> "latest"%string ->
                     files s' !! name = files s !! name)
    /\ (forall a, py_gt a best_val'
                  = exceeds_all a (earlier ++ source_accuracies records))
    /\ (forall a, py_gt a best_test'
                  = exceeds_all a (earlier_t ++ target_accuracies records)).
Proof.
  intros Hn Hbatch. induction todo as [|epoch todo IH];
    intros best_val best_test s earlier earlier_t Hinv Hinv_t.
  - exists [], (ts s), best_val, best_test, s. simpl. rewrite !app_nil_r.
    repeat split; try reflexivity; assumption.
  - destruct (train_run num_domains k epoch args s Hn Hbatch) as (t0 & Hup & Htrain).
    cbn [foldM length epoch_records]. rewrite Hup. unfold bind at 1.
    rewrite (epoch_body_run _ _ _ _ _ _ _ _ _ Htrain).
    cbn [ts files trace add_events set_ts].
    set (t := model_eval t0).
    set (acc1 := top1_avg val_loader t).
    set (acc_t := top1_avg test_loader (model_eval t)).
    match goal with
    | |- context [foldM _ todo _ ?s2] => set (s2' := s2)
    end.
    destruct (IH (py_max acc1 best_val) (py_max best_test acc_t) s2'
                 (earlier ++ [acc1]) (earlier_t ++ [acc_t])
                 (py_max_keeps_maximum _ _ _ Hinv)
                 (py_max_keeps_maximum_r _ _ _ Hinv_t))
      as (records & t_end & best_val' & best_test' & s' & Hrec & Hrun & Hlen & Hts
          & Htrace & Hbest & Hlatest & Hother & Hv & Ht).
    subst s2'. cbn [ts files trace] in Hrec, Htrace, Hbest, Hlatest, Hother.
    rewrite Hrec.
    exists ((acc1, state_dict t, acc_t) :: records), t_end, best_val', best_test', s'.
    split; [reflexivity|].
    split; [exact Hrun|].
    split; [simpl; rewrite Hlen; reflexivity|].
    split; [exact Hts|].
    split.
    { rewrite Htrace. rewrite List.filter_app, filter_epoch_events_train.
      cbn [epoch_events]. rewrite <- (Hinv acc1), <- !app_assoc. f_equal.
      destruct (py_gt acc1 best_val); reflexivity. }
    split.
    { rewrite Hbest. cbn [select_best]. rewrite <- (Hinv acc1).
      destruct (py_gt acc1 best_val).
      - rewrite lookup_insert_eq. reflexivity.
      - rewrite lookup_insert_ne by discriminate. reflexivity. }
    split.
    { rewrite Hlatest. unfold last_saved. cbn [fold_left fst snd].
      destruct (py_gt acc1 best_val).
      - rewrite lookup_insert_ne by discriminate. rewrite lookup_insert_eq. reflexivity.
      - rewrite lookup_insert_eq. reflexivity. }
    split.
    { intros name Hb Hl. rewrite (Hother name Hb Hl).
      destruct (py_gt acc1 best_val).
      - rewrite !lookup_insert_ne by congruence. reflexivity.
      - rewrite lookup_insert_ne by congruence. reflexivity. }
    split.
    { intros a. rewrite (Hv a). unfold source_accuracies. cbn [map fst].
      rewrite <- app_assoc. reflexivity. }
    { intros a. rewrite (Ht a). unfold target_accuracies. cbn [map snd].
      rewrite <- app_assoc. reflexivity. }
Qed.

Lemma py_gt_zero (a : Q) : py_gt a 0 = exceeds_all a [].
Proof. unfold exceeds_all. simpl. rewrite andb_true_r. reflexivity. Qed.

(** The whole loop as written, for a nonzero print frequency. *)
Lemma training_loop_displaying_run
    (val_loader test_loader : list (list Image * list Label))
    (num_domains k : nat) (args : Args) (s : store) :
  2 <= num_domains -> batches_of (num_domains * k) -> print_freq args <> 0%Z ->
  exists records t_end best_val best_test s',
    epoch_records val_loader test_loader num_domains args (epochs args) (ts s)
      = Some (records, t_end)
    /\ training_loop_displaying val_loader test_loader num_domains args s
       = (Ok (best_val, best_test), s')
    /\ length records = epochs args
    /\ ts s' = t_end
    /\ List.filter is_epoch_event (trace s')
       = List.filter is_epoch_event (trace s) ++ epoch_events [] records
    /\ files s' !! "best"%string = select_best [] records (files s !! "best"%string)
    /\ files s' !! "latest"%string = last_saved records (files s !! "latest"%string)
    /\ (forall name, name <> "best"%string -> name <> "latest"%string ->
                     files s' !! name = files s !! name)
    /\ (forall a, py_gt a best_val = exceeds_all a (source_accuracies records))
    /\ (forall a, py_gt a best_test = exceeds_all a (target_accuracies records)).
Proof.
  intros Hn Hbatch Hpf.
  destruct (epochs_follow_records val_loader test_loader num_domains k args
              (range 0 (epochs args)) Hn Hbatch 0%Q 0%Q s [] [] py_gt_zero py_gt_zero)
    as (records & t_end & best_val & best_test & s' & Hrec & Hrun & Hlen & Hrest).
  unfold range in Hrec, Hlen. rewrite length_seq, Nat.sub_0_r in Hrec, Hlen.
  exists records, t_end, best_val, best_test, s'.
  split; [exact Hrec|]. split; [|split; [exact Hlen | exact Hrest]].
  unfold training_loop_displaying. rewrite <- Hrun.
  apply foldM_agree. intros best epoch s0. apply epoch_body_displaying_nonzero, Hpf.
Qed.

(** With print_freq = 0 the first epoch ends in its first iteration. *)
Lemma training_loop_displaying_zero
    (val_loader test_loader : list (list Image * list Label))
    (num_domains k : nat) (args : Args) (s : store) :
  2 <= num_domains -> batches_of (num_domains * k) -> print_freq args = 0%Z ->
  1 <= epochs args -> 1 <= iters_per_epoch args ->
  exists t', iteration_update num_domains args (model_train (ts s)) = Some t'
    /\ training_loop_displaying val_loader test_loader num_domains args s
       = (Raise ZeroDivisionError,
          add_events (set_ts s t') (iteration_events num_domains)).
Proof.
  intros Hn Hbatch Hpf Hepochs Hiters.
  destruct (train_displaying_zero num_domains k 0 args s Hn Hbatch Hiters)
    as (t' & Hup & Hrun).
  exists t'. split; [exact Hup|].
  unfold training_loop_displaying, range. rewrite Nat.sub_0_r.
  destruct (epochs args) as [|n]; [lia|].
  cbn [seq foldM]. unfold bind at 1. unfold epoch_body_displaying. unfold bind at 1.
  rewrite Hpf, Hrun. reflexivity.
Qed.

(** C7: an epoch of N iterations updates the classifier N times, each
    time by zeroing the gradients, running backward on the loss of the
    iteration's batch, stepping the optimizer and stepping the scheduler, in
    that order and once each: N optimizer steps and N scheduler steps in the
    epoch.  This is the epoch for a nonzero print frequency; with
    print_freq = 0 the display test raises ZeroDivisionError at the end of
    the first iteration, after its one update. *)
Theorem one_update_per_iteration (num_domains k epoch : nat) (args : Args) (s : store) :
  2 <= num_domains -> batches_of (num_domains * k) ->
  let n := iters_per_epoch args in
  let new := concat (replicate n (iteration_events num_domains)) in
  (forall t, exists x_all labels_all t1 y_all f_all t2 loss,
      next_batch t = ((x_all, labels_all), t1)
      /\ model_call x_all t1 = ((y_all, f_all), t2)
      /\ loss_tensor (domain_chunks y_all num_domains) (domain_chunks f_all num_domains)
                     (domain_chunks labels_all num_domains) num_domains args = Some loss
      /\ iteration_update num_domains args t
         = Some (scheduler_step (optimizer_step (backward loss (zero_grad t2)))))
  /\ (print_freq args <> 0%Z ->
      exists t',
        iterations_update num_domains args n (model_train (ts s)) = Some t'
        /\ train_displaying num_domains epoch args (print_freq args) s
           = (Ok tt, {| ts := t'; files := files s; trace := trace s ++ new |})
        /\ List.filter is_update new
           = concat (replicate n [ZeroGrad; Backward; OptimizerStep; SchedulerStep])
        /\ count_event OptimizerStep new = n
        /\ count_event SchedulerStep new = n
        /\ count_event ZeroGrad new = n
        /\ count_event Backward new = n)
  /\ (print_freq args = 0%Z -> 1 <= n ->
      exists t',
        iteration_update num_domains args (model_train (ts s)) = Some t'
        /\ train_displaying num_domains epoch args (print_freq args) s
           = (Raise ZeroDivisionError,
              {| ts := t'; files := files s;
                 trace := trace s ++ iteration_events num_domains |})).
Proof.
  intros Hn Hbatch n new. split; [|split].
  - intros t.
    destruct (train_iteration_run num_domains k args
                {| ts := t; files := ∅; trace := [] |} Hn Hbatch) as (t' & Hup & _).
    cbn [ts] in Hup. unfold iteration_update in *.
    destruct (next_batch t) as [[x_all labels_all] t1].
    destruct (model_call x_all t1) as [[y_all f_all] t2] eqn:Hcall.
    destruct (loss_tensor _ _ _ _ _) as [loss|] eqn:Hloss; [|discriminate].
    exists x_all, labels_all, t1, y_all, f_all, t2, loss.
    split; [reflexivity|]. split; [exact Hcall|]. split; [exact Hloss|].
    reflexivity.
  - intros Hpf.
    destruct (train_run num_domains k epoch args s Hn Hbatch) as (t' & Hup & Hrun).
    exists t'. split; [exact Hup|].
    split; [rewrite (train_displaying_nonzero _ _ _ _ _ Hpf); exact Hrun|].
    split; [apply filter_update_iterations|].
    subst new. rewrite !count_event_iterations. unfold count_event. simpl. lia.
  - intros Hpf Hiters. rewrite Hpf.
    destruct (train_displaying_zero num_domains k epoch args s Hn Hbatch Hiters)
      as (t' & Hup & Hrun).
    exists t'. split; [exact Hup | exact Hrun].
Qed.

(** C8: after every epoch the state of the classifier just trained and
    evaluated is written to "latest", and "latest" is copied to "best"
    exactly in the epochs whose source validation accuracy strictly exceeds
    0 and the accuracy of every earlier epoch.  The accuracies and
    checkpoints are those of [epoch_records]: the accuracy [validate]
    measures on the classifier after the epoch's training, and that
    classifier's state.  This is the loop for a nonzero print frequency;
    with print_freq = 0 the first epoch raises ZeroDivisionError in its
    first iteration and no checkpoint is written. *)
Theorem best_checkpoint_follows_source_accuracy
    (val_loader test_loader : list (list Image * list Label))
    (num_domains k : nat) (args : Args) (s : store) :
  2 <= num_domains -> batches_of (num_domains * k) ->
  (print_freq args <> 0%Z ->
   exists records t_end best s',
     epoch_records val_loader test_loader num_domains args (epochs args) (ts s)
       = Some (records, t_end)
     /\ length records = epochs args
     /\ training_loop_displaying val_loader test_loader num_domains args s = (Ok best, s')
     /\ ts s' = t_end
     /\ files s' !! "latest"%string = last_saved records (files s !! "latest"%string)
     /\ files s' !! "best"%string = select_best [] records (files s !! "best"%string)
     /\ (forall name, name <> "best"%string -> name <> "latest"%string ->
                      files s' !! name = files s !! name)
     /\ List.filter is_epoch_event (trace s')
        = List.filter is_epoch_event (trace s) ++ epoch_events [] records)
  /\ (print_freq args = 0%Z -> 1 <= epochs args -> 1 <= iters_per_epoch args ->
      exists s', training_loop_displaying val_loader test_loader num_domains args s
                 = (Raise ZeroDivisionError, s')
                 /\ files s' = files s)
  /\ (forall acc1 earlier,
        exceeds_all acc1 earlier = true
        <-> (0 < acc1)%Q /\ (forall a, a ∈ earlier -> (a < acc1)%Q)).
Proof.
  intros Hn Hbatch. split; [|split; [|apply exceeds_all_spec]].
  - intros Hpf.
    destruct (training_loop_displaying_run val_loader test_loader num_domains k args s
                Hn Hbatch Hpf)
      as (records & t_end & best_val & best_test & s' & Hrec & Hrun & Hlen & Hts
          & Htrace & Hbest & Hlatest & Hother & _).
    exists records, t_end, (best_val, best_test), s'.
    repeat (split; [assumption|]). exact Htrace.
  - intros Hpf Hepochs Hiters.
    destruct (training_loop_displaying_zero val_loader test_loader num_domains k args s
                Hn Hbatch Hpf Hepochs Hiters) as (t' & _ & Hrun).
    eexists. split; [exact Hrun | reflexivity].
Qed.

(** X13: evaluation changes nothing but the mode of the classifier.  For a
    nonzero print frequency, and for an empty loader, it returns the meter
    average over the batches in loader order (the fresh meter's average for
    an empty loader) and leaves files and trace as they are; with
    print_freq = 0 and at least one batch it raises ZeroDivisionError with
    the classifier in evaluation mode. *)
Theorem validate_only_switches_to_eval
    (loader : list (list Image * list Label)) (print_freq : Z) (s : store) :
  (print_freq <> 0%Z \/ loader = [] ->
   validate_displaying loader print_freq s
   = (Ok (top1_avg loader (model_eval (ts s))),
      {| ts := model_eval (ts s); files := files s; trace := trace s |}))
  /\ (print_freq = 0%Z -> loader <> [] ->
      validate_displaying loader print_freq s
      = (Raise ZeroDivisionError,
         {| ts := model_eval (ts s); files := files s; trace := trace s |}))
  /\ top1_avg [] (model_eval (ts s)) = meter_avg meter_new.
Proof.
  split; [|split].
  - intros Hpf. apply validate_displaying_run, Hpf.
  - intros -> Hne. apply validate_displaying_zero, Hne.
  - reflexivity.
Qed.

(** X14: when the epochs are over, [best_val_acc1] is the greatest of 0 and
    the source validation accuracies of all epochs, and [best_test_acc1] the
    greatest of 0 and the target accuracies of all epochs, the accuracies
    being those [validate] measures after each epoch's training. *)
Theorem best_accuracies_are_maxima
    (val_loader test_loader : list (list Image * list Label))
    (num_domains k : nat) (args : Args) (s : store) :
  2 <= num_domains -> batches_of (num_domains * k) -> print_freq args <> 0%Z ->
  exists records t_end best_val best_test s',
    epoch_records val_loader test_loader num_domains args (epochs args) (ts s)
      = Some (records, t_end)
    /\ length records = epochs args
    /\ training_loop_displaying val_loader test_loader num_domains args s
       = (Ok (best_val, best_test), s')
    /\ greatest best_val (0%Q :: source_accuracies records)
    /\ greatest best_test (0%Q :: target_accuracies records).
Proof.
  intros Hn Hbatch Hpf.
  destruct (training_loop_displaying_run val_loader test_loader num_domains k args s
              Hn Hbatch Hpf)
    as (records & t_end & best_val & best_test & s' & Hrec & Hrun & Hlen & _
        & _ & _ & _ & _ & Hv & Ht).
  exists records, t_end, best_val, best_test, s'.
  split; [exact Hrec|]. split; [exact Hlen|]. split; [exact Hrun|].
  split; apply greatest_of_running_maximum; assumption.
Qed.

(** *** [main] *)

Lemma load_checkpoint_run (name : string) (s : store) :
  load_checkpoint name s
  = match files s !! name with
    | Some c => if checkpoint_fits c (ts s)
                then (Ok tt, set_ts s (load_state_dict c (ts s)))
                else (Raise (RuntimeError "Error(s) in loading state_dict"), s)
    | None => (Raise FileNotFoundError, s)
    end.
Proof.
  unfold load_checkpoint, torch_load. unfold bind at 1. unfold bind at 1.
  unfold read_files at 1. destruct (files s !! name) as [c|]; [|reflexivity].
  unfold ret at 1. unfold bind, read_ts.
  destruct (checkpoint_fits c (ts s)); reflexivity.
Qed.

(** X15: in the training phase, for a nonzero print frequency, the
    accuracy [main] reports last is measured on the classifier reloaded
    from "best", the checkpoint of the last promoted epoch, and not on the
    last weights.  When no epoch was promoted and no "best" file existed
    before, [main] ends with FileNotFoundError after all epochs have run;
    when the checkpoint does not fit the classifier, with the RuntimeError
    of the strict load. *)
Theorem main_reports_best_checkpoint
    (val_loader test_loader : list (list Image * list Label))
    (k : nat) (args : Args) (s : store) :
  2 <= length (sources args) -> batches_of (length (sources args) * k) ->
  phase args <> "test"%string -> print_freq args <> 0%Z ->
  exists records t_end best s1,
    epoch_records val_loader test_loader (length (sources args)) args (epochs args) (ts s)
      = Some (records, t_end)
    /\ training_loop_displaying val_loader test_loader (length (sources args)) args s
       = (Ok best, s1)
    /\ ts s1 = t_end
    /\ files s1 !! "best"%string = select_best [] records (files s !! "best"%string)
    /\ match select_best [] records (files s !! "best"%string) with
       | Some c =>
           if checkpoint_fits c t_end
           then main_displaying val_loader test_loader args s
                = (Ok (top1_avg test_loader (model_eval (load_state_dict c t_end))),
                   {| ts := model_eval (load_state_dict c t_end);
                      files := files s1; trace := trace s1 |})
           else main_displaying val_loader test_loader args s
                = (Raise (RuntimeError "Error(s) in loading state_dict"), s1)
       | None => main_displaying val_loader test_loader args s
                 = (Raise FileNotFoundError, s1)
       end.
Proof.
  intros Hn Hbatch Hphase Hpf.
  destruct (training_loop_displaying_run val_loader test_loader (length (sources args))
              k args s Hn Hbatch Hpf)
    as (records & t_end & best_val & best_test & s1 & Hrec & Hrun & Hlen & Hts
        & Htrace & Hbest & _).
  exists records, t_end, (best_val, best_test), s1.
  split; [exact Hrec|]. split; [exact Hrun|]. split; [exact Hts|]. split; [exact Hbest|].
  assert (Hmain : main_displaying val_loader test_loader args s
    = match files s1 !! "best"%string with
      | Some c =>
          if checkpoint_fits c (ts s1)
          then (Ok (top1_avg test_loader (model_eval (load_state_dict c (ts s1)))),
                {| ts := model_eval (load_state_dict c (ts s1));
                   files := files s1; trace := trace s1 |})
          else (Raise (RuntimeError "Error(s) in loading state_dict"), s1)
      | None => (Raise FileNotFoundError, s1)
      end).
  { unfold main_displaying. rewrite (bool_decide_eq_false_2 _ Hphase).
    unfold bind at 1. rewrite Hrun. unfold bind at 1. rewrite load_checkpoint_run.
    destruct (files s1 !! "best"%string) as [c|]; [|reflexivity].
    destruct (checkpoint_fits c (ts s1)); [|reflexivity].
    rewrite validate_displaying_run by (left; exact Hpf). reflexivity. }
  rewrite Hmain, Hbest, Hts.
  destruct (select_best [] records (files s !! "best"%string)) as [c|]; [|reflexivity].
  destruct (checkpoint_fits c t_end); reflexivity.
Qed.


(** *** What the script writes *)

Lemma pure_display_progress (i : nat) (print_freq : Z) :
  pure (display_progress i print_freq).
Proof.
  unfold display_progress. destruct (print_freq =? 0)%Z; [apply pure_raise|].
  destruct (_ =? 0)%Z; apply pure_ret.
Qed.

Lemma writes_only_train_displaying (writable : list string) (num_domains epoch : nat)
    (args : Args) (print_freq : Z) :
  writes_only writable (train_displaying num_domains epoch args print_freq).
Proof.
  unfold train_displaying. apply writes_only_bind; [apply writes_only_on_ts | intros _].
  unfold for_. apply writes_only_foldM. intros b i.
  apply writes_only_bind; [apply writes_only_train_iteration | intros _].
  apply writes_only_pure, pure_display_progress.
Qed.

Lemma writes_only_validate_displaying (writable : list string)
    (loader : list (list Image * list Label)) (print_freq : Z) :
  writes_only writable (validate_displaying loader print_freq).
Proof.
  unfold validate_displaying. apply writes_only_bind; [apply writes_only_on_ts | intros _].
  apply writes_only_bind; [|intros top1; apply writes_only_ret].
  apply writes_only_foldM. intros top1 [i [images target]].
  apply writes_only_bind; [apply writes_only_read_ts | intros [output features]].
  apply writes_only_bind; [apply writes_only_pure, pure_display_progress | intros _].
  apply writes_only_ret.
Qed.

Lemma writes_only_load_checkpoint (writable : list string) (name : string) :
  writes_only writable (load_checkpoint name).
Proof.
  unfold load_checkpoint.
  apply writes_only_bind; [apply writes_only_torch_load | intros c].
  apply writes_only_bind; [apply writes_only_read_ts | intros fits].
  destruct fits; [apply writes_only_on_ts | apply writes_only_pure, pure_raise].
Qed.

Lemma writes_only_epoch_body_displaying
    (val_loader test_loader : list (list Image * list Label))
    (num_domains : nat) (args : Args) (best : Q * Q) (epoch : nat) :
  writes_only ["latest"; "best"]%string
    (epoch_body_displaying val_loader test_loader num_domains args best epoch).
Proof.
  unfold epoch_body_displaying. destruct best as [best_val best_test].
  apply writes_only_bind; [apply writes_only_train_displaying | intros _].
  apply writes_only_bind; [apply writes_only_validate_displaying | intros acc1].
  apply writes_only_bind; [apply writes_only_emit | intros _].
  apply writes_only_bind; [apply writes_only_read_ts | intros checkpoint].
  apply writes_only_bind; [apply writes_only_insert; left | intros _].
  apply writes_only_bind; [apply writes_only_emit | intros _].
  apply writes_only_bind.
  { destruct (py_gt acc1 best_val); [|apply writes_only_ret].
    apply writes_only_bind; [|intros _; apply writes_only_emit].
    unfold shutil_copy. apply writes_only_bind; [apply writes_only_torch_load|].
    intros c. apply writes_only_insert. right. left. }
  intros _.
  apply writes_only_bind; [apply writes_only_validate_displaying | intros acc_t].
  apply writes_only_bind; [apply writes_only_emit | intros _].
  apply writes_only_ret.
Qed.

(** X20: whatever happens, for any print frequency, the script writes no
    checkpoint file other than "latest" and "best", in the test phase it
    writes none at all, and it never drops a recorded call. *)
Theorem script_writes_only_latest_and_best
    (val_loader test_loader : list (list Image * list Label)) (args : Args) (s : store) :
  let s' := (main_displaying val_loader test_loader args s).2 in
  (forall name, name <> "latest"%string -> name <> "best"%string ->
                files s' !! name = files s !! name)
  /\ (phase args = "test"%string -> files s' = files s)
  /\ exists new, trace s' = trace s ++ new.
Proof.
  assert (Htail : forall writable,
    writes_only writable
      (load_checkpoint "best" ;; validate_displaying test_loader (print_freq args))%py).
  { intros writable.
    apply writes_only_bind; [apply writes_only_load_checkpoint | intros _].
    apply writes_only_validate_displaying. }
  assert (Hmain : writes_only ["latest"; "best"]%string
                    (main_displaying val_loader test_loader args)).
  { unfold main_displaying. case_bool_decide; [apply Htail|].
    apply writes_only_bind; [|intros _; apply Htail].
    unfold training_loop_displaying. apply writes_only_foldM. intros b epoch.
    apply writes_only_epoch_body_displaying. }
  intros s'. subst s'. destruct (Hmain s) as [Htrace Hfiles].
  split; [|split; [|exact Htrace]].
  - intros name Hl Hb. apply Hfiles. intros Hin.
    apply elem_of_cons in Hin as [->|Hin]; [contradiction|].
    apply list_elem_of_singleton in Hin. contradiction.
  - intros Hphase. unfold main_displaying. rewrite (bool_decide_eq_true_2 _ Hphase).
    destruct (Htail [] s) as [_ Hnone].
    apply map_eq. intros name. apply Hnone, not_elem_of_nil.
Qed.

(** X21: with a single source domain the division by the pair count is
    reached before the display test: for any print frequency an epoch of at
    least one iteration raises ZeroDivisionError in its first iteration,
    before any gradient step, and touches no checkpoint file. *)
Theorem single_domain_raises_before_the_display
    (epoch : nat) (args : Args) (print_freq : Z) (s : store) :
  1 <= iters_per_epoch args ->
  exists s', train_displaying 1 epoch args print_freq s = (Raise ZeroDivisionError, s')
             /\ trace s' = trace s ++ [NextBatch; Forward; CrossEntropy 0]
             /\ files s' = files s.
Proof.
  intros Hiters. unfold train_displaying. unfold bind at 1, on_ts at 1, modify.
  unfold range. rewrite Nat.sub_0_r.
  destruct (iters_per_epoch args) as [|n]; [lia|].
  unfold for_. cbn [seq foldM]. unfold bind at 1. unfold bind at 1.
  destruct (train_iteration_single args
              {| ts := model_train (ts s); files := files s; trace := trace s |})
    as [t ->].
  eexists. split; [reflexivity|]. split; reflexivity.
Qed.

(** *** The target data *)

(** X19: in the script as written, for a nonzero print frequency, two
    runs of the epoch loop that differ only in the target data promote
    "best" in the same epochs and end with the same checkpoints, the same
    classifier and the same best validation accuracy. *)
Theorem target_data_does_not_reach_selection
    (val_loader test1 test2 : list (list Image * list Label))
    (num_domains : nat) (args : Args) (s : store) :
  print_freq args <> 0%Z ->
  source_view (training_loop_displaying val_loader test1 num_domains args s)
  = source_view (training_loop_displaying val_loader test2 num_domains args s).
Proof.
  intros Hpf.
  assert (Hsame : forall test_loader,
            training_loop_displaying val_loader test_loader num_domains args s
            = training_loop val_loader test_loader num_domains args s).
  { intros test_loader. unfold training_loop_displaying, training_loop.
    apply foldM_agree. intros best epoch s0. apply epoch_body_displaying_nonzero, Hpf. }
  rewrite !Hsame.
  assert (Hrel : related (fun b b' : Q * Q => b.1 = b'.1)
                   (training_loop val_loader test1 num_domains args)
                   (training_loop val_loader test2 num_domains args)).
  { unfold training_loop. apply related_foldM; [|reflexivity].
    intros b b' epoch Hb. apply related_epoch_body, Hb. }
  specialize (Hrel s s (same_for_source_refl s)). unfold source_view.
  destruct (training_loop val_loader test1 num_domains args s) as [[b1|e1] s1],
           (training_loop val_loader test2 num_domains args s) as [[b2|e2] s2];
    try contradiction; destruct Hrel as [Hr (Ht & Hf & Htr)]; simpl;
    rewrite Hr, Ht, Hf, Htr; reflexivity.
Qed.

End Program.

End CoralProgram.

(** ** resnet.py on the toy implementation *)

Module ResNetExamples.
Import MixStyleResNet MixStyleResNet.Toy ResNetFacts.

Lemma forward_mixes_after_named_stages_witness :
  forward layer2_model [] (0, [])
  = (Ok [1; 2; 3; 4; 5; 6; 9; 7; 8],
     (9, [conv1; bn1; relu; maxpool; layer1; layer2; mixStyleModule; layer3; layer4])).
Proof.
  refine (proj1 (forward_mixes_after_named_stages layer2_model [] 0 [] _)).
  intros layer Hin. apply list_elem_of_singleton in Hin. rewrite Hin. not_a_choice.
Defined.

Lemma relu_iff_plain_resnet_witness :
  relu ∈ (forward layer2_model [] (0, [])).2.2 <-> base_class layer2_model = ResNet.
Proof.
  refine (proj1 (proj2 (proj2 (proj2 (relu_iff_plain_resnet layer2_model [] 0 _))))).
  left.
Defined.

Lemma factory_asserts_class_and_names_witness :
  exists m,
    (_resnet_with_mix_style "resnet18" tt [2; 2; 2; 2] false true
       (Some ["layer1"; "layer3"]%string) (1 # 2) (1 # 10) ReidResNet tt 0).1 = Ok m.
Proof.
  refine (proj2 (proj2 (factory_asserts_class_and_names "resnet18" tt [2; 2; 2; 2]
                          false true (Some ["layer1"; "layer3"]%string)
                          (1 # 2) (1 # 10) ReidResNet tt 0) _ _) _).
  - right. left.
  - intros layer Hin. apply elem_of_cons in Hin as [Hin|Hin]; [rewrite Hin; not_a_choice|].
    apply list_elem_of_singleton in Hin. rewrite Hin. not_a_choice.
  - reflexivity.
Defined.

Example factory_rejects_layer4 :
  (_resnet_with_mix_style "resnet18" tt [2; 2; 2; 2] false true
     (Some ["layer2"; "layer4"]%string) (1 # 2) (1 # 10) ResNet tt 0).1
  = Raise AssertionError.
Proof. vm_compute. reflexivity. Qed.

Example factory_rejects_other_class :
  (_resnet_with_mix_style "resnet18" tt [2; 2; 2; 2] false true
     None (1 # 2) (1 # 10) (OtherClass "VGG") tt 0).1
  = Raise AssertionError.
Proof. vm_compute. reflexivity. Qed.

Lemma pretrained_load_keeps_absent_parameters_witness :
  exists m',
    _resnet_with_mix_style "resnet18" tt [2; 2; 2; 2] true true
      (Some ["layer2"%string]) (1 # 2) (1 # 10) ResNet tt 0 = (Ok m', 1)
    /\ state_dict m' !! "fc.weight"%string = toy_params !! "fc.weight"%string.
Proof.
  destruct (proj1 (proj2 (proj2 (@pretrained_load_keeps_absent_parameters
              toy_tensors toy_backbone "resnet18" tt [2; 2; 2; 2] true (Some ["layer2"%string]) (1 # 2) (1 # 10)
              ResNet tt 0 1 1 layer2_model "https://download/resnet18.pth"
              toy_pretrained ltac:(left) eq_refl eq_refl eq_refl))))
    as (m' & Hres & _ & _ & Habsent & _).
  - intros k v u Hv Hu. unfold toy_pretrained in Hu.
    apply lookup_insert_Some in Hu as [[<- <-] | [Hne Hu]].
    + vm_compute in Hv. injection Hv as <-. reflexivity.
    + apply lookup_singleton_Some in Hu as [<- <-]. vm_compute in Hv. discriminate.
  - exists m'. split; [exact Hres|]. apply Habsent. vm_compute. reflexivity.
Defined.

Example mismatched_shape_raises :
  (_resnet_with_mix_style "resnet34" tt [3; 4; 6; 3] true true
     None (1 # 2) (1 # 10) ResNet tt 0).1
  = Raise (RuntimeError "size mismatch").
Proof. vm_compute. reflexivity. Qed.

Example one_dim_value_for_a_scalar_buffer_is_indexed :
  (load_state_dict counter_model
     {[ "bn1.num_batches_tracked"%string := ([1], 7%Z) ]} false 0).1
  = Ok {| base_class := ResNet; mix_p := 1 # 2; mix_alpha := 1 # 10; apply_layers := [];
          state_dict := {[ "bn1.num_batches_tracked"%string := ([], 7%Z) ]} |}.
Proof. vm_compute. reflexivity. Qed.

Example empty_value_for_a_scalar_buffer_raises :
  (load_state_dict counter_model
     {[ "bn1.num_batches_tracked"%string := ([0], 7%Z) ]} false 0).1
  = Raise IndexError.
Proof. vm_compute. reflexivity. Qed.

End ResNetExamples.

(** ** coral.py on the toy implementation *)

Module CoralExamples.
Import Coral Coral.Toy CoralFacts.

Lemma toy_batches : @batches_of toy_torch (3 * 2).
Proof.
  split.
  - intros t. split; reflexivity.
  - intros x t. simpl. rewrite length_map. split; reflexivity.
Qed.


Example toy_losses :
  (@compute_losses toy_torch [[1]; [2]; [3]] [[1]; [2]; [3]] [[1]; [0]; [3]] 3
     (toy_args ["a"; "b"; "c"]%string) toy_store).1
  = Ok (PyTensor (10 # 3), PyTensor (22 # 6), PyTensor (18 # 27), PyTensor (126 # 18)).
Proof. vm_compute. reflexivity. Qed.

Lemma chunks_follow_domain_order_witness :
  @separate_domains toy_torch unit [1; 2; 3; 4; 5; 6] [7; 8; 9; 10; 11; 12]
    [0; 0; 1; 1; 2; 2] 3 tt
  = (Ok ([[1; 2]; [3; 4]; [5; 6]], [[7; 8]; [9; 10]; [11; 12]], [[0; 0]; [1; 1]; [2; 2]]),
     tt).
Proof.
  destruct (@chunks_follow_domain_order toy_torch unit [1; 2; 3; 4; 5; 6]
              [7; 8; 9; 10; 11; 12] [0; 0; 1; 1; 2; 2] 3 6 tt
              ltac:(lia) eq_refl eq_refl eq_refl eq_refl)
    as (ys & fs & ls & Hrun & _ & _ & _ & _ & Hsub).
  destruct (Hsub [[1; 2]; [3; 4]; [5; 6]] [[7; 8]; [9; 10]; [11; 12]]
              [[0; 0]; [1; 1]; [2; 2]] eq_refl eq_refl eq_refl
              ltac:(repeat constructor) ltac:(repeat constructor)
              ltac:(repeat constructor) eq_refl eq_refl eq_refl)
    as (Hy & Hf & Hl).
  rewrite Hrun, Hy, Hf, Hl. reflexivity.
Defined.

Example uneven_batch_gives_fewer_chunks :
  (@tensor_chunk unit nat [1; 2; 3; 4; 5; 6] 4 tt).1 = Ok [[1; 2]; [3; 4]; [5; 6]].
Proof. reflexivity. Qed.

Lemma single_domain_divides_by_zero_witness :
  exists s', @train toy_torch 1 0 (toy_args ["a"%string]) toy_store
             = (Raise ZeroDivisionError, s')
             /\ trace s' = [NextBatch; Forward; CrossEntropy 0].
Proof.
  destruct (@single_domain_divides_by_zero toy_torch 0 (toy_args ["a"%string]) toy_store
              ltac:(simpl; lia))
    as (_ & _ & s' & Hrun & Htrace & _).
  exists s'. split; assumption.
Defined.

End CoralExamples.

(** ** The further properties on the toy implementations *)

Module MoreExamples.
Import MixStyleResNet MixStyleResNet.Toy ResNetFacts ResNetMore.
Import Coral Coral.Toy CoralFacts CoralMore.

Lemma factory_returns_validated_model_witness :
  (forward layer2_model [] (0, [])).2.2
  = [conv1; bn1; relu; maxpool; layer1; layer2; mixStyleModule; layer3; layer4].
Proof.
  destruct (@factory_returns_validated_model toy_tensors toy_backbone
              "resnet18" tt [2; 2; 2; 2] false true (Some ["layer2"%string])
              (1 # 2) (1 # 10) ResNet tt 0 1 layer2_model eq_refl)
    as (_ & _ & _ & _ & _ & _ & Hforward & _).
  rewrite Hforward. reflexivity.
Defined.

Lemma forward_reads_names_as_a_set_witness :
  (forward repeated_names_model [] (0, [])).2.2
  = (forward layer2_model [] (0, [])).2.2.
Proof.
  refine (proj1 (@forward_reads_names_as_a_set toy_tensors toy_backbone
                   repeated_names_model layer2_model [] 0 [] eq_refl _)).
  intros layer. simpl. rewrite !elem_of_cons. tauto.
Defined.

Lemma class_is_checked_before_construction_witness :
  _resnet_with_mix_style "resnet18" tt [2; 2; 2; 2] true true
    (Some ["layer2"%string]) (1 # 2) (1 # 10) (OtherClass "VGG") tt 5
  = (Raise AssertionError, 5).
Proof.
  refine (proj1 (@class_is_checked_before_construction toy_tensors toy_backbone
                   "resnet18" tt [2; 2; 2; 2] true true (Some ["layer2"%string])
                   (1 # 2) (1 # 10) (OtherClass "VGG") tt 5) _).
  not_a_choice.
Defined.

Example invalid_name_is_found_after_the_constructor :
  _resnet_with_mix_style "resnet18" tt [2; 2; 2; 2] true true
    (Some ["layer2"; "conv1"]%string) (1 # 2) (1 # 10) ResNet tt 5
  = (Raise AssertionError, 6).
Proof. vm_compute. reflexivity. Qed.

Lemma pretrained_failures_come_after_construction_witness :
  _resnet_with_mix_style "resnet50" tt [3; 4; 6; 3] true true
    (Some ["layer1"%string]) (1 # 2) (1 # 10) ResNet tt 0
  = (Raise KeyError, 1).
Proof.
  refine (proj1 (proj2 (proj2 (@pretrained_failures_come_after_construction
                   toy_tensors toy_backbone
                   "resnet50" tt [3; 4; 6; 3] true true (Some ["layer1"%string])
                   (1 # 2) (1 # 10) ResNet tt 0 _ _))) eq_refl eq_refl).
  - left.
  - intros layer Hin. apply list_elem_of_singleton in Hin. rewrite Hin. not_a_choice.
Defined.

Lemma constructors_fetch_their_own_architecture_witness :
  (resnet101 true true (default_kwargs tt) 0).1 = Raise KeyError.
Proof.
  refine (proj2 (@constructors_fetch_their_own_architecture toy_tensors toy_backbone
                   toy_blocks "resnet101" resnet101 true (default_kwargs tt) 0 _ _ _) _).
  - do 3 right. left.
  - left.
  - intros layer Hin. apply elem_of_nil in Hin. contradiction.
  - reflexivity.
Defined.

Lemma constructors_default_to_plain_resnet_witness :
  exists m w', resnet34 false true (default_kwargs tt) 0 = (Ok m, w')
               /\ base_class m = ResNet /\ apply_layers m = [].
Proof.
  destruct (@constructors_default_to_plain_resnet toy_tensors toy_backbone toy_blocks
              "resnet34" resnet34 true tt 0 ltac:(right; left))
    as (m & w' & Hrun & Hclass & Hnames & _).
  exists m, w'. repeat split; assumption.
Defined.

Lemma separate_domains_keeps_every_row_witness :
  exists ys fs ls,
    @separate_domains toy_torch unit [1; 2; 3; 4; 5] [6; 7; 8; 9; 10] [0; 0; 1; 1; 2] 4 tt
    = (Ok (ys, fs, ls), tt)
    /\ concat ys = [1; 2; 3; 4; 5] /\ length ys <= 4.
Proof.
  destruct (proj2 (@separate_domains_keeps_every_row toy_torch unit [1; 2; 3; 4; 5]
                     [6; 7; 8; 9; 10] [0; 0; 1; 1; 2] 4 tt) ltac:(lia))
    as (ys & fs & ls & Hrun & Hy & _ & _ & [_ Hle] & _).
  exists ys, fs, ls. repeat split; assumption.
Defined.

Lemma small_batch_raises_index_error_witness :
  exists s', @train toy_torch 7 0 (toy_args []) toy_store = (Raise IndexError, s')
             /\ files s' = files toy_store.
Proof.
  destruct (@small_batch_raises_index_error toy_torch 7 6 0 (toy_args []) toy_store
              ltac:(lia) ltac:(lia) CoralExamples.toy_batches ltac:(simpl; lia))
    as (_ & s' & Hrun & _ & Hfiles).
  exists s'. split; assumption.
Defined.


Lemma main_writes_only_latest_and_best_witness :
  files (@main toy_torch toy_val_loader toy_test_loader (toy_args ["a"; "b"; "c"]%string)
           toy_store).2 !! "config"%string = None.
Proof.
  refine (proj1 (@main_writes_only_latest_and_best toy_torch toy_val_loader toy_test_loader
                   (toy_args ["a"; "b"; "c"]%string) toy_store) "config"%string _ _);
    discriminate.
Defined.

Lemma progress_display_needs_nonzero_print_freq_witness :
  exists s', @train_displaying toy_torch 3 0 (toy_args ["a"; "b"; "c"]%string) 0 toy_store
             = (Raise ZeroDivisionError, s')
             /\ count_event OptimizerStep (trace s') = 1.
Proof.
  destruct (proj2 (@progress_display_needs_nonzero_print_freq toy_torch 3 2 0
                     (toy_args ["a"; "b"; "c"]%string) 0 toy_store)
              eq_refl ltac:(lia) CoralExamples.toy_batches ltac:(simpl; lia))
    as (s' & Hrun & Htrace & _).
  exists s'. split; [exact Hrun|]. rewrite Htrace. reflexivity.
Defined.

Lemma validate_display_needs_nonzero_print_freq_witness :
  @validate_displaying toy_torch toy_val_loader 0 toy_store
  = (Raise ZeroDivisionError, toy_store).
Proof.
  refine (proj2 (proj2 (@validate_display_needs_nonzero_print_freq toy_torch
                          toy_val_loader 0 toy_store)) eq_refl _).
  discriminate.
Defined.

End MoreExamples.

(** ** The script as written on the toy implementations *)

Module ProgramExamples.
Import Coral Coral.Toy CoralFacts CoralMore CoralProgram.

Lemma journal_batches : @batches_of journal_torch (3 * 2).
Proof.
  split.
  - intros t. split; reflexivity.
  - intros x t. split; reflexivity.
Qed.

Lemma one_update_per_iteration_witness :
  @train_displaying journal_torch 3 0 (toy_args ["a"; "b"; "c"]%string) 100 journal_store
  = (Ok tt,
     @Build_store journal_torch
       [CallTrain;
        CallNext; CallForward; CallZeroGrad; CallBackward (161 # 3); CallStep;
        CallSchedulerStep;
        CallNext; CallForward; CallZeroGrad; CallBackward (161 # 3); CallStep;
        CallSchedulerStep]
       ∅
       (concat (replicate 2 (@iteration_events journal_torch 3)))).
Proof.
  pose proof (@one_update_per_iteration journal_torch 3 2 0
                (toy_args ["a"; "b"; "c"]%string) journal_store
                ltac:(lia) journal_batches) as Hthm.
  cbv zeta in Hthm. destruct Hthm as (_ & Hrun & _).
  destruct (Hrun ltac:(discriminate)) as (t' & Hup & Htrain & _).
  vm_compute in Hup. injection Hup as <-. exact Htrain.
Defined.

Example zero_print_freq_stops_the_epoch :
  let r := @train_displaying journal_torch 3 0 (toy_args ["a"; "b"; "c"]%string) 0
             journal_store in
  r.1 = Raise ZeroDivisionError
  /\ ts r.2 = [CallTrain; CallNext; CallForward; CallZeroGrad; CallBackward (161 # 3);
               CallStep; CallSchedulerStep].
Proof. vm_compute. split; reflexivity. Qed.

Lemma best_checkpoint_follows_source_accuracy_witness :
  exists best s',
    @training_loop_displaying toy_torch toy_val_loader toy_test_loader 3
      (toy_args ["a"; "b"; "c"]%string) toy_store = (Ok best, s')
    /\ ts s' = 6
    /\ files s' !! "latest"%string = Some 6
    /\ files s' !! "best"%string = Some 4
    /\ List.filter is_epoch_event (trace s')
       = [SourceValidated (1 # 3); SavedLatest 2; CopiedToBest; TargetValidated (2 # 2);
          SourceValidated (4 # 3); SavedLatest 4; CopiedToBest; TargetValidated (2 # 2);
          SourceValidated (0 # 3); SavedLatest 6; TargetValidated (0 # 2)].
Proof.
  destruct (@best_checkpoint_follows_source_accuracy toy_torch toy_val_loader
              toy_test_loader 3 2 (toy_args ["a"; "b"; "c"]%string) toy_store
              ltac:(lia) CoralExamples.toy_batches) as (Hrun & _).
  destruct (Hrun ltac:(discriminate))
    as (records & t_end & best & s' & Hrec & _ & Hloop & Hts & Hlatest & Hbest & _ & Htrace).
  vm_compute in Hrec. injection Hrec as <- <-.
  exists best, s'. split; [exact Hloop|]. split; [exact Hts|].
  split; [refine (eq_trans Hlatest _); vm_compute; reflexivity|].
  split; [refine (eq_trans Hbest _); vm_compute; reflexivity|].
  refine (eq_trans Htrace _). vm_compute. reflexivity.
Defined.

Example zero_print_freq_writes_no_checkpoint :
  let args := {| sources := ["a"; "b"; "c"]%string; phase := "train"; epochs := 3;
                 iters_per_epoch := 2; trade_off := 1; print_freq := 0 |} in
  let r := @training_loop_displaying toy_torch toy_val_loader toy_test_loader 3 args
             toy_store in
  r.1 = Raise ZeroDivisionError /\ files r.2 = ∅ /\ ts r.2 = 1.
Proof. vm_compute. repeat split. Qed.

Lemma validate_only_switches_to_eval_witness :
  @validate_displaying toy_torch toy_val_loader 100 toy_store = (Ok (0 # 3), toy_store).
Proof.
  refine (eq_trans
            (proj1 (@validate_only_switches_to_eval toy_torch toy_val_loader 100 toy_store)
               (or_introl _)) _); [discriminate | vm_compute; reflexivity].
Defined.

Lemma best_accuracies_are_maxima_witness :
  exists best_val best_test s',
    @training_loop_displaying toy_torch toy_val_loader toy_test_loader 3
      (toy_args ["a"; "b"; "c"]%string) toy_store = (Ok (best_val, best_test), s')
    /\ greatest best_val [0%Q; 1 # 3; 4 # 3; 0 # 3]
    /\ greatest best_test [0%Q; 2 # 2; 2 # 2; 0 # 2].
Proof.
  destruct (@best_accuracies_are_maxima toy_torch toy_val_loader toy_test_loader 3 2
              (toy_args ["a"; "b"; "c"]%string) toy_store
              ltac:(lia) CoralExamples.toy_batches ltac:(discriminate))
    as (records & t_end & best_val & best_test & s' & Hrec & _ & Hrun & Hv & Ht).
  vm_compute in Hrec. injection Hrec as <- <-.
  exists best_val, best_test, s'.
  split; [exact Hrun | split; [exact Hv | exact Ht]].
Defined.

Example toy_best_accuracies :
  (@training_loop_displaying toy_torch toy_val_loader toy_test_loader 3
     (toy_args ["a"; "b"; "c"]%string) toy_store).1 = Ok (4 # 3, 2 # 2).
Proof. vm_compute. reflexivity. Qed.

Lemma main_reports_best_checkpoint_witness :
  exists s1,
    @main_displaying toy_torch toy_val_loader toy_test_loader
      (toy_args ["a"; "b"; "c"]%string) toy_store
    = (Ok (2 # 2), {| ts := 4; files := files s1; trace := trace s1 |})
    /\ ts s1 = 6 /\ files s1 !! "best"%string = Some 4.
Proof.
  destruct (@main_reports_best_checkpoint toy_torch toy_val_loader toy_test_loader 2
              (toy_args ["a"; "b"; "c"]%string) toy_store
              ltac:(simpl; lia) CoralExamples.toy_batches ltac:(discriminate)
              ltac:(discriminate))
    as (records & t_end & best & s1 & Hrec & _ & Hts & Hbest & Hmain).
  vm_compute in Hrec. injection Hrec as <- <-.
  exists s1. split; [|split; [exact Hts | refine (eq_trans Hbest _); vm_compute; reflexivity]].
  vm_compute in Hmain. vm_compute. exact Hmain.
Defined.


Example test_phase_rejects_a_checkpoint_that_does_not_fit :
  (@main_displaying toy_torch toy_val_loader toy_test_loader toy_test_args
     {| ts := 0; files := {[ "best"%string := 100 ]}; trace := [] |}).1
  = Raise (RuntimeError "Error(s) in loading state_dict").
Proof. vm_compute. reflexivity. Qed.

Example test_phase_evaluates_the_stored_checkpoint :
  let r := @main_displaying toy_torch toy_val_loader toy_test_loader toy_test_args
             {| ts := 0; files := {[ "best"%string := 4 ]}; trace := [] |} in
  r.1 = Ok (2 # 2) /\ ts r.2 = 4 /\ trace r.2 = [].
Proof. vm_compute. repeat split. Qed.

Lemma target_data_does_not_reach_selection_witness :
  source_view (@training_loop_displaying toy_torch toy_val_loader toy_test_loader 3
                 (toy_args ["a"; "b"; "c"]%string) toy_store)
  = source_view (@training_loop_displaying toy_torch toy_val_loader [] 3
                   (toy_args ["a"; "b"; "c"]%string) toy_store).
Proof.
  apply (@target_data_does_not_reach_selection toy_torch toy_val_loader toy_test_loader []
           3 (toy_args ["a"; "b"; "c"]%string) toy_store).
  discriminate.
Defined.

Lemma script_writes_only_latest_and_best_witness :
  files (@main_displaying toy_torch toy_val_loader toy_test_loader
           (toy_args ["a"; "b"; "c"]%string) toy_store).2 !! "config"%string = None.
Proof.
  refine (proj1 (@script_writes_only_latest_and_best toy_torch toy_val_loader
                   toy_test_loader (toy_args ["a"; "b"; "c"]%string) toy_store)
            "config"%string _ _);
    discriminate.
Defined.

Lemma single_domain_raises_before_the_display_witness :
  exists s', @train_displaying toy_torch 1 0 (toy_args ["a"%string]) 0 toy_store
             = (Raise ZeroDivisionError, s')
             /\ trace s' = [NextBatch; Forward; CrossEntropy 0].
Proof.
  destruct (@single_domain_raises_before_the_display toy_torch 0 (toy_args ["a"%string]) 0
              toy_store ltac:(simpl; lia))
    as (s' & Hrun & Htrace & _).
  exists s'. split; assumption.
Defined.

End ProgramExamples.
